(** * Threagile server core: capability keys, session tokens, encrypted vault

    A shallow embedding of the server-mode functions of
    [pkg/model/model.go]: the token broker ([createToken],
    [checkTokenToFolderName], [deleteToken], [housekeepingTokenMaps]),
    the capability keys ([createKey], [checkKeyToFolderName],
    [deleteKey]), the encrypted model vault ([readModel],
    [writeModelYAML], [backupModelToHistory], [createNewModel]), the
    creation throttle ([checkObjectCreationThrottler]) and the folder
    locks ([lockFolder], [unlockFolder]) with the goroutines of
    [importModel] that take them.

    Conventions.
    - A Go [[]byte] (and a Go [string] used as bytes) is a [list Z] of
      values in [0, 256); [int64] and [int] values are [Z], with the
      two's-complement wrap of the arithmetic written out ([wrap64]).
    - The process-wide maps are [gmap]s carried in explicit states
      ([TokenMaps], the throttle map, [Server]); every function returns
      the new state.
    - Values the code obtains from its environment (the clock, the random
      source, how a write to a file or the removal of a folder ends) are
      arguments of the embedded functions, one per read.
    - A Go panic is the [Panicked] outcome of [result].
    - Go's [crypto/sha512], [crypto/sha256], [encoding/hex] and
      [hash/fnv] are embedded down to the bits; the other libraries the
      code calls (gzip, AES-GCM, Argon2, YAML, UUID) are the fields of
      the class [Externals]. *)

From Stdlib Require Import ZArith List String Ascii Lia Bool.
From Stdlib Require Import Sorting.Sorted Sorting.Permutation.
From Stdlib Require Import DecimalString.
From stdpp Require Import base tactics option list gmap sets strings fin_maps sorting.
Import ListNotations.
Local Open Scope Z_scope.

(** ** Bytes, machine integers, outcomes *)

Definition is_byte (b : Z) : Prop := 0 <= b < 256.
Definition is_bytes (bs : list Z) : Prop := Forall is_byte bs.

(** [int64] arithmetic wraps around. *)
Definition wrap64 (x : Z) : Z := (x + 2 ^ 63) mod 2 ^ 64 - 2 ^ 63.

Definition int64_range (x : Z) : Prop := - 2 ^ 63 <= x < 2 ^ 63.

(** A call either returns or panics. *)
Inductive result (A : Type) : Type :=
| Return (a : A)
| Panicked (msg : string).
Arguments Return {A} a.
Arguments Panicked {A} msg.

Global Instance result_bind : MBind result := fun A B k r =>
  match r with
  | Return a => k a
  | Panicked msg => Panicked msg
  end.

Definition StatusOK : Z := 200.
Definition StatusCreated : Z := 201.
Definition StatusNotFound : Z := 404.
Definition StatusTooManyRequests : Z := 429.
Definition StatusInternalServerError : Z := 500.

Definition bytes_of_string (s : string) : list Z :=
  map (fun c => Z.of_N (N_of_ascii c)) (list_ascii_of_string s).

(** ** SHA-2 (crypto/sha512, crypto/sha256) *)

Module SHA2.

Definition wrap (w x : Z) : Z := x mod 2 ^ w.

Definition rotr (w n x : Z) : Z :=
  Z.lor (Z.shiftr x n) (wrap w (Z.shiftl x (w - n))).

(** The round constants are the leading fractional bits of the cube
    roots (initial values: square roots) of the first primes. *)
Fixpoint iroot_loop (k : Z) (fuel : nat) (bit : Z) (n r : Z) : Z :=
  match fuel with
  | O => r
  | S fuel' =>
      let c := r + 2 ^ bit in
      iroot_loop k fuel' (bit - 1) n (if c ^ k <=? n then c else r)
  end.

Definition iroot (k n : Z) : Z := iroot_loop k 80 79 n 0.

Definition is_prime (p : Z) : bool :=
  (2 <=? p) &&
  forallb (fun d => negb (p mod d =? 0) || (p <=? d))
          (map Z.of_nat (seq 2 (Z.to_nat (Z.sqrt p)))).

Definition primes (n : nat) : list Z :=
  firstn n (filter is_prime (map Z.of_nat (seq 2 420))).

Definition frac_root (k w p : Z) : Z := wrap w (iroot k (p * 2 ^ (k * w))).

Record params := {
  wbits : Z;
  rounds : nat;
  bigS0 : Z * Z * Z;
  bigS1 : Z * Z * Z;
  smallS0 : Z * Z * Z;
  smallS1 : Z * Z * Z;
  K : list Z;
  IV : list Z
}.

Definition K512 : list Z :=
  Eval vm_compute in map (frac_root 3 64) (primes 80).
Definition IV512 : list Z :=
  Eval vm_compute in map (frac_root 2 64) (primes 8).
Definition K256 : list Z :=
  Eval vm_compute in map (frac_root 3 32) (primes 64).
Definition IV256 : list Z :=
  Eval vm_compute in map (frac_root 2 32) (primes 8).

Definition p512 : params := {|
  wbits := 64; rounds := 80;
  bigS0 := (28, 34, 39); bigS1 := (14, 18, 41);
  smallS0 := (1, 8, 7); smallS1 := (19, 61, 6);
  K := K512;
  IV := IV512
|}.

Definition p256 : params := {|
  wbits := 32; rounds := 64;
  bigS0 := (2, 13, 22); bigS1 := (6, 11, 25);
  smallS0 := (7, 18, 3); smallS1 := (17, 19, 10);
  K := K256;
  IV := IV256
|}.

Section Generic.
Variable P : params.
Abbreviation w := (wbits P).

Definition add (x y : Z) : Z := wrap w (x + y).

Definition bigSigma (c : Z * Z * Z) (x : Z) : Z :=
  let '(a, b, d) := c in
  Z.lxor (Z.lxor (rotr w a x) (rotr w b x)) (rotr w d x).

Definition smallSigma (c : Z * Z * Z) (x : Z) : Z :=
  let '(a, b, d) := c in
  Z.lxor (Z.lxor (rotr w a x) (rotr w b x)) (Z.shiftr x d).

Definition Ch (x y z : Z) : Z :=
  Z.lxor (Z.land x y) (Z.land (wrap w (Z.lnot x)) z).

Definition Maj (x y z : Z) : Z :=
  Z.lxor (Z.lxor (Z.land x y) (Z.land x z)) (Z.land y z).

Definition be_word (bs : list Z) : Z :=
  fold_left (fun acc b => acc * 256 + b) bs 0.

Fixpoint be_bytes (n : nat) (x : Z) : list Z :=
  match n with
  | O => []
  | S n' => be_bytes n' (x / 256) ++ [x mod 256]
  end.

Fixpoint chunks {A} (fuel : nat) (n : nat) (l : list A) : list (list A) :=
  match fuel with
  | O => []
  | S fuel' =>
      match l with
      | [] => []
      | _ => firstn n l :: chunks fuel' n (skipn n l)
      end
  end.

Definition wbytes : nat := Z.to_nat (w / 8).
Definition blockbytes : nat := (16 * wbytes)%nat.

Definition pad (msg : list Z) : list Z :=
  let l := length msg in
  let lenfield := (2 * wbytes)%nat in
  let used := ((l + 1 + lenfield) mod blockbytes)%nat in
  let z := ((blockbytes - used) mod blockbytes)%nat in
  msg ++ [128] ++ repeat 0 z ++ be_bytes lenfield (8 * Z.of_nat l).

(** Message schedule; [win] holds the last 16 words, oldest first. *)
Fixpoint schedule (n : nat) (win : list Z) : list Z :=
  match n with
  | O => []
  | S n' =>
      let g i := nth i win 0 in
      let x := add (add (smallSigma (smallS1 P) (g 14%nat)) (g 9%nat))
                   (add (smallSigma (smallS0 P) (g 1%nat)) (g 0%nat)) in
      x :: schedule n' (tl win ++ [x])
  end.

Definition round (st : list Z) (kw : Z * Z) : list Z :=
  match st with
  | [a; b; c; d; e; f; g; h] =>
      let t1 := add (add (add h (bigSigma (bigS1 P) e)) (Ch e f g))
                    (add (fst kw) (snd kw)) in
      let t2 := add (bigSigma (bigS0 P) a) (Maj a b c) in
      [add t1 t2; a; b; c; add d t1; e; f; g]
  | _ => st
  end.

Definition compress (h : list Z) (block : list Z) : list Z :=
  let w16 := map be_word (chunks 16 wbytes block) in
  let ws := w16 ++ schedule (rounds P - 16) w16 in
  let st := fold_left round (combine (K P) ws) h in
  map (fun p => add (fst p) (snd p)) (combine h st).

Definition digest (msg : list Z) : list Z :=
  let p := pad msg in
  let blocks := chunks (S (length p)) blockbytes p in
  concat (map (be_bytes wbytes) (fold_left compress blocks (IV P))).
End Generic.

Definition sha512_Sum (msg : list Z) : list Z := digest p512 msg.
Definition sha256_Sum (msg : list Z) : list Z := digest p256 msg.

End SHA2.

(** ** encoding/hex *)

Definition hexdigit (n : Z) : ascii :=
  nth (Z.to_nat n) (list_ascii_of_string "0123456789abcdef") "0"%char.

Fixpoint hex_EncodeToString (bs : list Z) : string :=
  match bs with
  | [] => EmptyString
  | b :: bs' =>
      String (hexdigit (b / 16))
             (String (hexdigit (b mod 16)) (hex_EncodeToString bs'))
  end.

(** ** hash/fnv: 32-bit FNV-1a *)

Module FNV.
Definition offset32 : Z := 2166136261.
Definition prime32 : Z := 16777619.

Definition step (h b : Z) : Z := (Z.lxor h b * prime32) mod 2 ^ 32.

Definition Sum32a (bs : list Z) : Z := fold_left step bs offset32.
End FNV.

(** [fmt.Sprintf("%v", n)] of a [uint32]. *)
Definition sprint_uint (n : Z) : string :=
  NilEmpty.string_of_uint (N.to_uint (Z.to_N n)).

(** [func hash(s string) string] *)
Definition hash (s : string) : string :=
  sprint_uint (FNV.Sum32a (bytes_of_string s)).

(** [func hashSHA256(key []byte) string]: the hasher the body creates is
    [sha512.New()]. *)
Definition hashSHA256 (key : list Z) : string :=
  hex_EncodeToString (SHA2.sha512_Sum key).

(** ** xor *)

Definition keySize : nat := 32.

(** [result := make([]byte, len(xor)); for i, b := range key
    { result[i] = b ^ xor[i] }]; the index [xor[i]] is in range because
    the lengths were compared first. *)
Definition xor_loop (key x : list Z) : list Z :=
  fold_left (fun res ib => <[fst ib := Z.lxor (snd ib) (nth (fst ib) x 0)]> res)
            (imap pair key) (repeat 0 (length x)).

Definition xor (key x : list Z) : result (list Z) :=
  if negb (length key =? length x)%nat
  then Panicked "key length not matching XOR length"
  else Return (xor_loop key x).

(** ** Libraries outside the repository

    What the code calls in gzip, AES-GCM, Argon2, YAML, UUID and
    path/filepath, and what the Go runtime leaves unspecified. *)

Class Externals := {
  (** The parsed model, [input.ModelInput]. *)
  ModelInput : Type;
  (** [gzip.NewWriter(&b); w.Write(p); w.Close(); b.Bytes()] *)
  gzip_compress : list Z -> list Z;
  (** [gzip.NewReader] followed by [buf.ReadFrom]: [None] when the
      header is rejected, otherwise the bytes that were read (the error
      of [ReadFrom] is dropped by the caller). *)
  gzip_decompress : list Z -> option (list Z);
  (** [argon2.IDKey(password, salt, time, memory, threads, keyLen)] *)
  argon2_IDKey : list Z -> list Z -> Z -> Z -> Z -> Z -> list Z;
  (** [aesGcm.Seal(nil, nonce, plaintext, nil)] under the AES key. *)
  gcm_Seal : list Z -> list Z -> list Z -> list Z;
  (** [aesGcm.Open(nil, nonce, ciphertext, nil)]; [None] is the error. *)
  gcm_Open : list Z -> list Z -> list Z -> option (list Z);
  (** [yaml.Unmarshal(yamlBytes, &modelInput)]; [None] is the error. *)
  yaml_Unmarshal : list Z -> option ModelInput;
  (** [uuid.Parse(s)] followed by [String()]: the canonical form. *)
  uuid_Parse : string -> option string;
  (** [filepath.Clean] on a single path element. *)
  filepath_Clean : string -> string;
  (** Whether the process may write files whatever their mode. *)
  os_privileged : bool;
  (** The order in which [for k, v := range m] visits a map. *)
  map_range : forall {K} `{Countable K} {V}, gmap K V -> list (K * V)
}.

(** [range] visits exactly the entries of the map; the order is not
    specified by the language. *)
Definition RangeLaw `{Externals} : Prop :=
  forall K `(Countable K) V (m : gmap K V) k v,
    (k, v) ∈ map_range m <-> m !! k = Some v.

(** Decompressing a compressed text gives the text back. *)
Definition GzipLaw `{Externals} : Prop :=
  forall p, gzip_decompress (gzip_compress p) = Some p.

(** Opening what was sealed under the same key and nonce gives the
    plaintext back. *)
Definition GcmOpenSeal `{Externals} : Prop :=
  forall k n p, gcm_Open k n (gcm_Seal k n p) = Some p.

(** [Seal] appends a 16-byte tag to a ciphertext as long as the
    plaintext. *)
Definition GcmOverhead `{Externals} : Prop :=
  forall k n p, length (gcm_Seal k n p) = (length p + 16)%nat.

(** [IDKey] returns [keyLen] bytes. *)
Definition Argon2Length `{Externals} : Prop :=
  forall pw salt t m th keyLen,
    0 <= keyLen -> length (argon2_IDKey pw salt t m th keyLen) = Z.to_nat keyLen.

(** ** The file system (package os) *)

Abbreviation path := (list string).

(** [filepath.Join] of a clean directory path and one element. *)
Definition filepath_Join (d : path) (name : string) : path := d ++ [name].

Definition path_dir (p : path) : path := removelast p.

Record file := { mode : Z; data : list Z }.

Record FS := { dirs : gset path; files : gmap path file }.

Definition set_files (fs : FS) (f : gmap path file) : FS :=
  {| dirs := dirs fs; files := f |}.

Definition set_dirs (fs : FS) (d : gset path) : FS :=
  {| dirs := d; files := files fs |}.

(** [_, err := os.Stat(p); os.IsNotExist(err)] *)
Definition notExist (fs : FS) (p : path) : bool :=
  negb (bool_decide (p ∈ dirs fs)) && negb (bool_decide (is_Some (files fs !! p))).

Definition os_ReadFile (fs : FS) (p : path) : option (list Z) :=
  data <$> files fs !! p.

(** The owner's write bit, unless the process is privileged. *)
Definition writable `{Externals} (f : file) : bool :=
  os_privileged || Z.testbit (mode f) 7.

(** Opening [p] for writing with [O_CREATE|O_TRUNC]: the file is
    emptied, or created with mode [perm]. *)
Definition open_trunc `{Externals} (fs : FS) (p : path) (perm : Z) : option FS :=
  if bool_decide (p ∈ dirs fs) then None
  else if negb (bool_decide (path_dir p ∈ dirs fs)) then None
  else match files fs !! p with
       | Some f =>
           if writable f
           then Some (set_files fs (<[p := {| mode := mode f; data := [] |}]> (files fs)))
           else None
       | None => Some (set_files fs (<[p := {| mode := perm; data := [] |}]> (files fs)))
       end.

(** An open file: its path and the offset of the next write. *)
Record handle := { hpath : path; hoff : nat }.

Definition os_Create `{Externals} (fs : FS) (p : path) : option (FS * handle) :=
  fs' ← open_trunc fs p 438; Some (fs', {| hpath := p; hoff := 0 |}).

(** The bytes that land at offset [off] of a file. *)
Definition write_at (old : list Z) (off : nat) (b : list Z) : list Z :=
  take off (old ++ repeat 0 (off - length old)) ++ b ++ drop (off + length b) old.

(** How a call [n, err := f.Write(b)] ends: [None] when it returns no
    error, [Some n] when it returns an error after [n] bytes (a full
    disk, an I/O error). [accepted w b] is what it has written. *)
Definition accepted (w : option nat) (b : list Z) : list Z :=
  match w with
  | None => b
  | Some n => take n b
  end.

(** [f.Write(b)]: what is written lands at the handle's offset, which
    moves on by as much. *)
Definition file_Write (fs : FS) (h : handle) (b : list Z) (w : option nat) : FS * handle :=
  match files fs !! hpath h with
  | Some f =>
      (set_files fs (<[hpath h := {| mode := mode f;
                                     data := write_at (data f) (hoff h) (accepted w b) |}]>
                       (files fs)),
       {| hpath := hpath h; hoff := hoff h + length (accepted w b) |})
  | None => (fs, h)
  end.

(** [os.WriteFile], whose error its caller checks: the file as a
    complete write leaves it, or [None] when it cannot be opened. *)
Definition os_WriteFile `{Externals} (fs : FS) (p : path) (b : list Z) (perm : Z) : option FS :=
  fs' ← open_trunc fs p perm;
  Some (fst (file_Write fs' {| hpath := p; hoff := 0 |} b None)).

Definition os_Mkdir (fs : FS) (p : path) : option FS :=
  if negb (notExist fs p) then None
  else if negb (bool_decide (path_dir p ∈ dirs fs)) then None
  else Some (set_dirs fs ({[p]} ∪ dirs fs)).

(** The name of [p] when [p] lies directly in [d]. *)
Definition child_name (d p : path) : option string :=
  match reverse p with
  | n :: rd => if bool_decide (reverse rd = d) then Some n else None
  | [] => None
  end.

Definition entries (fs : FS) (d : path) : gset string :=
  set_omap (child_name d) (dirs fs ∪ dom (files fs)).

Definition string_le (a b : string) : Prop := String.leb a b = true.

Global Instance string_le_dec a b : Decision (string_le a b).
Proof. unfold string_le. apply _. Defined.

(** [os.ReadDir]: the entries of the directory, sorted by file name. *)
Definition os_ReadDir (fs : FS) (d : path) : option (list string) :=
  if bool_decide (d ∈ dirs fs)
  then Some (merge_sort string_le (elements (entries fs d)))
  else None.

(** [os.Remove]: a file, or an empty directory. *)
Definition os_Remove (fs : FS) (p : path) : option FS :=
  if bool_decide (is_Some (files fs !! p))
  then Some (set_files fs (delete p (files fs)))
  else if bool_decide (p ∈ dirs fs) && bool_decide (entries fs p = ∅)
  then Some (set_dirs fs (dirs fs ∖ {[p]}))
  else None.

(** [sort.Slice(files, func(i, j) { return files[i].Name() < files[j].Name() })] *)
Definition name_less (a b : string) : bool := String.ltb a b.

Definition not_after (a b : string) : Prop := name_less b a = false.

Global Instance not_after_dec a b : Decision (not_after a b).
Proof. unfold not_after. apply _. Defined.

Definition sort_Slice_by_name (l : list string) : list string :=
  merge_sort not_after l.

(** ** Server context and responses *)

Record Context := {
  serverFolder : path;
  keyDir : string;
  inputFile : string;
  backupHistoryFilesToKeep : Z
}.

(** [Defaults]: the history retention is 50; [keyDir] and [inputFile]
    are constants of package [common], taken as arguments. *)
Definition Defaults (server : path) (KeyDir InputFile : string) : Context :=
  {| serverFolder := server;
     keyDir := KeyDir;
     inputFile := InputFile;
     backupHistoryFilesToKeep := 50 |}.

(** What a handler writes with [ginContext.JSON]. *)
Inductive response : Type :=
| ErrorJSON (status : Z) (error : string)
| MessageJSON (status : Z) (message : string)
| TokenJSON (status : Z) (token : list Z).

Definition folderNameFromKey (ctx : Context) (key : list Z) : path :=
  let sha512Hash := hashSHA256 key in
  filepath_Join (filepath_Join (serverFolder ctx) (keyDir ctx)) sha512Hash.

Definition folderNameForModel (folderNameOfKey : path) (uuid : string) : path :=
  filepath_Join folderNameOfKey uuid.

(** ** The token broker *)

Record timeoutStruct := {
  xorRand : list Z;
  createdNanoTime : Z;
  lastAccessedNanoTime : Z
}.

Record TokenMaps := {
  mapFolderNameToTokenHash : gmap path string;
  mapTokenHashToTimeoutStruct : gmap string timeoutStruct
}.

Definition extremeShortTimeoutsForTesting : bool := false.

Definition deleteTokenHashFromMaps `{Externals} (tokenHash : string) (tm : TokenMaps) : TokenMaps :=
  let tokens := delete tokenHash (mapTokenHashToTimeoutStruct tm) in
  let folders := mapFolderNameToTokenHash tm in
  {| mapTokenHashToTimeoutStruct := tokens;
     mapFolderNameToTokenHash :=
       match List.find (fun fc => bool_decide (snd fc = tokenHash)) (map_range folders) with
       | Some (folderName, _) => delete folderName folders
       | None => folders
       end |}.

Definition timedOut (now : Z) (val : timeoutStruct) : bool :=
  if extremeShortTimeoutsForTesting
  then (wrap64 (now - lastAccessedNanoTime val) >? 60000000000)
       || (wrap64 (now - createdNanoTime val) >? 180000000000)
  else (wrap64 (now - lastAccessedNanoTime val) >? 1800000000000)
       || (wrap64 (now - createdNanoTime val) >? 36000000000000).

Definition housekeeping_step `{Externals} (now : Z) (tm : TokenMaps)
    (entry : string * timeoutStruct) : TokenMaps :=
  if timedOut now (snd entry) then deleteTokenHashFromMaps (fst entry) tm else tm.

(** [now] is the clock value read at the start of the sweep. *)
Definition housekeepingTokenMaps `{Externals} (now : Z) (tm : TokenMaps) : TokenMaps :=
  fold_left (housekeeping_step now) (map_range (mapTokenHashToTimeoutStruct tm)) tm.

(** The header value after [base64.RawURLEncoding.DecodeString]; [None]
    when the header cannot be bound or decoded. *)
Definition checkKeyToFolderName (ctx : Context) (fs : FS) (header : option (list Z))
  : path * list Z * bool * option response :=
  match header with
  | None => ([], [], false, Some (ErrorJSON StatusNotFound "key not found"))
  | Some key =>
      if (length key =? 0)%nat
      then ([], key, false, Some (ErrorJSON StatusNotFound "key not found"))
      else
        let folderNameOfKey := folderNameFromKey ctx key in
        if notExist fs folderNameOfKey
        then (folderNameOfKey, key, false, Some (ErrorJSON StatusNotFound "key not found"))
        else (folderNameOfKey, key, true, None)
  end.

(** [n, err := rand.Read(buf)] on a zeroed buffer of [size] bytes: [rnd]
    is [None] for an error, otherwise the bytes delivered. *)
Definition rand_Read (size : nat) (rnd : option (list Z)) : list Z * nat * bool :=
  match rnd with
  | None => (repeat 0 size, 0%nat, true)
  | Some bs => (take size (bs ++ repeat 0 size), Nat.min (length bs) size, false)
  end.

(** [createToken]; [rnd] is what the random source delivers, [now] the
    clock when the token is stamped and [nowSweep] the clock read by the
    housekeeping sweep. The maps are returned as the call leaves them,
    also when it panics. *)
Definition createToken `{Externals} (ctx : Context) (fs : FS) (header : option (list Z))
    (rnd : option (list Z)) (now nowSweep : Z) (tm : TokenMaps)
  : TokenMaps * result response :=
  let '(folderName, key, ok, resp) := checkKeyToFolderName ctx fs header in
  if negb ok then (tm, Return (default (ErrorJSON StatusNotFound "key not found") resp))
  else
    let tm1 :=
      match mapFolderNameToTokenHash tm !! folderName with
      | Some tokenHash =>
          (* invalidate previous token *)
          {| mapFolderNameToTokenHash := mapFolderNameToTokenHash tm;
             mapTokenHashToTimeoutStruct := delete tokenHash (mapTokenHashToTimeoutStruct tm) |}
      | None => tm
      end in
    let '(xorBytesArr, n, err) := rand_Read keySize rnd in
    if negb (n =? keySize)%nat || err
    then (tm1, Return (ErrorJSON StatusInternalServerError "unable to create token"))
    else
      match xor key xorBytesArr with
      | Panicked msg => (tm1, Panicked msg)
      | Return token =>
          let tokenHash := hashSHA256 token in
          let tm2 := housekeepingTokenMaps nowSweep tm1 in
          ({| mapTokenHashToTimeoutStruct :=
                <[tokenHash := {| xorRand := xorBytesArr;
                                  createdNanoTime := now;
                                  lastAccessedNanoTime := now |}]>
                  (mapTokenHashToTimeoutStruct tm2);
              mapFolderNameToTokenHash :=
                <[folderName := tokenHash]> (mapFolderNameToTokenHash tm2) |},
           Return (TokenJSON StatusCreated token))
      end.

Definition deleteToken `{Externals} (header : option (list Z)) (tm : TokenMaps)
  : TokenMaps * response :=
  match header with
  | None => (tm, ErrorJSON StatusNotFound "token not found")
  | Some token =>
      if (length token =? 0)%nat then (tm, ErrorJSON StatusNotFound "token not found")
      else (deleteTokenHashFromMaps (hashSHA256 token) tm,
            MessageJSON StatusOK "token deleted")
  end.

(** What [checkTokenToFolderName] returns: [(folderNameOfKey, key, ok)]
    and the error response it wrote, if any. *)
Record tokenCheck := {
  tcFolder : path;
  tcKey : list Z;
  tcOk : bool;
  tcResponse : option response
}.

Definition tokenNotFound (folder : path) (key : list Z) : tokenCheck :=
  {| tcFolder := folder; tcKey := key; tcOk := false;
     tcResponse := Some (ErrorJSON StatusNotFound "token not found") |}.

(** [checkTokenToFolderName]; [nowSweep] is the clock read by the
    housekeeping sweep, [nowAccess] the one read for
    [lastAccessedNanoTime]. The record found in the map is a copy (the
    map holds [timeoutStruct] values), and the assignment to its field
    is an assignment to that copy: no statement stores it back. *)
Definition checkTokenToFolderName `{Externals} (ctx : Context) (fs : FS)
    (header : option (list Z)) (nowSweep nowAccess : Z) (tm : TokenMaps)
  : TokenMaps * result tokenCheck :=
  match header with
  | None => (tm, Return (tokenNotFound [] []))
  | Some token =>
      if (length token =? 0)%nat then (tm, Return (tokenNotFound [] []))
      else
        let tm1 := housekeepingTokenMaps nowSweep tm in
        let tokenHash := hashSHA256 token in
        match mapTokenHashToTimeoutStruct tm1 !! tokenHash with
        | Some timeoutStruct0 =>
            match xor token (xorRand timeoutStruct0) with
            | Panicked msg => (tm1, Panicked msg)
            | Return key =>
                let folderNameOfKey := folderNameFromKey ctx key in
                if notExist fs folderNameOfKey
                then (tm1, Return (tokenNotFound folderNameOfKey key))
                else
                  let timeoutStruct1 :=
                    {| xorRand := xorRand timeoutStruct0;
                       createdNanoTime := createdNanoTime timeoutStruct0;
                       lastAccessedNanoTime := nowAccess |} in
                  (tm1, Return {| tcFolder := folderNameOfKey; tcKey := key;
                                  tcOk := true; tcResponse := None |})
            end
        | None => (tm1, Return (tokenNotFound [] []))
        end
  end.

(** ** The creation throttle *)

(** The inner loop of the sweep, on the slice stored under [keyCheck]:
    [for i := 0; i < len(s); i++ { if s[i] < cutoff { s = append(s[:i],
    s[i+1:]...); i-- } }]. After a removal [i--] and [i++] leave the
    index where it was. Every turn either removes an element or moves
    the index forward, so the length of the slice bounds the turns. *)
Fixpoint prune_loop (fuel : nat) (cutoff : Z) (keyCheck : string) (i : nat)
    (m : gmap string (list Z)) : gmap string (list Z) :=
  match fuel with
  | O => m
  | S fuel' =>
      let s := default [] (m !! keyCheck) in
      if (i <? length s)%nat
      then if nth i s 0 <? cutoff
           then prune_loop fuel' cutoff keyCheck i (<[keyCheck := take i s ++ drop (S i) s]> m)
           else prune_loop fuel' cutoff keyCheck (S i) m
      else m
  end.

Definition sweep_step (cutoff : Z) (m : gmap string (list Z))
    (entry : string * list Z) : gmap string (list Z) :=
  let keyCheck := fst entry in
  let m1 := prune_loop (length (default [] (m !! keyCheck))) cutoff keyCheck 0 m in
  let length0 := length (default [] (m1 !! keyCheck)) in
  if (length0 =? 0)%nat then delete keyCheck m1 else m1.

Definition checkObjectCreationThrottler `{Externals} (typeName : string) (now : Z)
    (createdObjectsThrottler : gmap string (list Z))
  : gmap string (list Z) * bool * option response :=
  (* remove all elements older than 3 minutes (= 180000000000 ns) *)
  let cutoff := wrap64 (now - 180000000000) in
  let m1 := fold_left (sweep_step cutoff) (map_range createdObjectsThrottler)
                      createdObjectsThrottler in
  (* check current request *)
  let keyHash := hash typeName in
  let m2 := match m1 !! keyHash with
            | Some _ => m1
            | None => <[keyHash := []]> m1
            end in
  (* check the limit of 20 creations for this type per 3 minutes *)
  let withinLimit := (length (default [] (m2 !! keyHash)) <? 20)%nat in
  if withinLimit
  then (<[keyHash := default [] (m2 !! keyHash) ++ [now]]> m2, true, None)
  else (m2, false,
        Some (ErrorJSON StatusTooManyRequests
          "object creation throttling exceeded (denial-of-service protection): please wait some time and try again")).

(** ** The encrypted vault *)

Record argon2Params := {
  memory : Z;
  iterations : Z;
  parallelism : Z;
  saltLength : nat;
  keyLength : Z
}.

(** The two slice expressions [in[0:saltLength]] and [in[saltLength:]]
    need [saltLength <= len(in)]: the second one panics otherwise,
    whatever the capacity of the slice. *)
Definition generateKeyFromAlreadyStrongRandomInput `{Externals}
    (alreadyRandomInput : list Z) : result (list Z) :=
  let p := {| memory := 64 * 1024; iterations := 3; parallelism := 2;
              saltLength := 16; keyLength := Z.of_nat keySize |} in
  if (length alreadyRandomInput <? saltLength p)%nat
  then Panicked "slice bounds out of range"
  else
    let salt := take (saltLength p) alreadyRandomInput in
    Return (argon2_IDKey (drop (saltLength p) alreadyRandomInput) salt
                         (iterations p) (memory p) (parallelism p) (keyLength p)).

(** [aes.NewCipher]: a key of 16, 24 or 32 bytes, or [KeySizeError].
    [cipher.NewGCM] accepts every AES block. *)
Definition aes_NewCipher (key : list Z) : option (list Z) :=
  if (length key =? 16)%nat || (length key =? 24)%nat || (length key =? 32)%nat
  then Some key else None.

Definition checkModelFolder `{Externals} (fs : FS) (modelUUID : string)
    (folderNameOfKey : path) : path * bool * option response :=
  match uuid_Parse modelUUID with
  | None => ([], false, Some (ErrorJSON StatusNotFound "model not found"))
  | Some uuidParsed =>
      let modelFolder := folderNameForModel folderNameOfKey uuidParsed in
      if notExist fs modelFolder
      then (modelFolder, false, Some (ErrorJSON StatusNotFound "model not found"))
      else (modelFolder, true, None)
  end.

(** What [readModel] returns: [(modelInputResult, yamlText, ok)], the
    first two being zero values when [ok] is false, and the error
    response it wrote, if any. *)
Record modelRead `{Externals} := {
  modelInputResult : option ModelInput;
  yamlText : list Z;
  ok : bool;
  readResponse : option response
}.

Definition unableToOpen `{Externals} : modelRead :=
  {| modelInputResult := None; yamlText := []; ok := false;
     readResponse := Some (ErrorJSON StatusInternalServerError "unable to open model") |}.

(** [readModel]. [os.ReadFile] returns a slice of capacity 512 or more,
    so [fileBytes[0:12]] is within the capacity; [fileBytes[12:]] panics
    when the file has fewer than 12 bytes. *)
Definition readModel `{Externals} (ctx : Context) (fs : FS) (modelUUID : string)
    (key : list Z) (folderNameOfKey : path) : result modelRead :=
  let '(modelFolder, found, resp) := checkModelFolder fs modelUUID folderNameOfKey in
  if negb found
  then Return {| modelInputResult := None; yamlText := []; ok := false; readResponse := resp |}
  else
    cryptoKey ← generateKeyFromAlreadyStrongRandomInput key;
    match aes_NewCipher cryptoKey with
    | None => Return unableToOpen
    | Some block =>
        match os_ReadFile fs (filepath_Join modelFolder (inputFile ctx)) with
        | None => Return unableToOpen
        | Some fileBytes =>
            if (length fileBytes <? 12)%nat
            then Panicked "slice bounds out of range"
            else
              let nonce := take 12 fileBytes in
              let ciphertext := drop 12 fileBytes in
              match gcm_Open block nonce ciphertext with
              | None => Return unableToOpen
              | Some plaintext =>
                  match gzip_decompress plaintext with
                  | None => Return unableToOpen
                  | Some yamlBytes =>
                      match yaml_Unmarshal yamlBytes with
                      | None => Return unableToOpen
                      | Some modelInput =>
                          Return {| modelInputResult := Some modelInput;
                                    yamlText := yamlBytes;
                                    ok := true;
                                    readResponse := None |}
                      end
                  end
              end
        end
    end.

(** ** The history archive *)

(** The deletion loop over the sorted entries. *)
Fixpoint delete_oldest `{Externals} (historyFolder : path) (files0 : list string)
    (requiredToDelete : Z) (fs : FS) : FS * option string :=
  match files0 with
  | [] => (fs, None)
  | file0 :: rest =>
      let requiredToDelete := wrap64 (requiredToDelete - 1) in
      if negb (String.eqb file0 (filepath_Clean file0))
      then (fs, Some "weird file name")
      else match os_Remove fs (filepath_Join historyFolder file0) with
           | None => (fs, Some "remove")
           | Some fs' =>
               if requiredToDelete <=? 0 then (fs', None)
               else delete_oldest historyFolder rest requiredToDelete fs'
           end
  end.

(** [backupModelToHistory]; [stamp] is
    [time.Now().Format("2006-01-02 15:04:05")]. The result is the file
    system as the call leaves it and the error, if any. *)
Definition backupModelToHistory `{Externals} (ctx : Context) (fs : FS) (modelFolder : path)
    (changeReasonForHistory : string) (stamp : string) : FS * option string :=
  let historyFolder := filepath_Join modelFolder "history" in
  match (if notExist fs historyFolder then os_Mkdir fs historyFolder else Some fs) with
  | None => (fs, Some "mkdir")
  | Some fs1 =>
      match os_ReadFile fs1 (filepath_Join modelFolder (inputFile ctx)) with
      | None => (fs1, Some "read")
      | Some inputModel =>
          let historyFile :=
            filepath_Join historyFolder
              (stamp ++ " " ++ changeReasonForHistory ++ ".backup")%string in
          match os_WriteFile fs1 historyFile inputModel 256 with
          | None => (fs1, Some "write")
          | Some fs2 =>
              (* now delete any old files if over limit to keep *)
              match os_ReadDir fs2 historyFolder with
              | None => (fs2, Some "readdir")
              | Some files0 =>
                  if Z.of_nat (length files0) >? backupHistoryFilesToKeep ctx
                  then
                    let requiredToDelete :=
                      wrap64 (Z.of_nat (length files0) - backupHistoryFilesToKeep ctx) in
                    delete_oldest historyFolder (sort_Slice_by_name files0)
                                  requiredToDelete fs2
                  else (fs2, None)
              end
          end
      end
  end.

(** [io.ReadFull(rand.Reader, nonce)] on a 12-byte buffer: [rnd] is
    [None] for an error, otherwise the bytes the source delivers. *)
Definition io_ReadFull (size : nat) (rnd : option (list Z)) : option (list Z) :=
  match rnd with
  | None => None
  | Some bs => if (length bs <? size)%nat then None else Some (take size bs)
  end.

Definition unableToWrite : option response :=
  Some (ErrorJSON StatusInternalServerError "unable to write model").

(** [writeModelYAML]; [rnd] is what the random source delivers for the
    nonce, [stamp] the formatted clock of the backup, and [writes] how
    the two calls of [f.Write] end. The source discards what [f.Write]
    and [f.Close] return ([_, _ = f.Write(nonce)]) and returns [true]
    after them, whatever they did. The result is the file system as
    the call leaves it, [ok], and the error response it wrote, if
    any. *)
Definition writeModelYAML `{Externals} (ctx : Context) (fs : FS) (yaml : list Z)
    (key : list Z) (modelFolder : path) (changeReasonForHistory : string)
    (skipBackup : bool) (rnd : option (list Z)) (stamp : string)
    (writes : option nat * option nat)
  : result (FS * bool * option response) :=
  let plaintext := gzip_compress yaml in
  cryptoKey ← generateKeyFromAlreadyStrongRandomInput key;
  match aes_NewCipher cryptoKey with
  | None => Return (fs, false, unableToWrite)
  | Some block =>
      (* Never use more than 2^32 random nonces with a given key because
         of the risk of a repeat. *)
      match io_ReadFull 12 rnd with
      | None => Return (fs, false, unableToWrite)
      | Some nonce =>
          let ciphertext := gcm_Seal block nonce plaintext in
          let '(fs1, err) :=
            if negb skipBackup
            then backupModelToHistory ctx fs modelFolder changeReasonForHistory stamp
            else (fs, None) in
          match err with
          | Some _ => Return (fs1, false, unableToWrite)
          | None =>
              match os_Create fs1 (filepath_Join modelFolder (inputFile ctx)) with
              | None => Return (fs1, false, unableToWrite)
              | Some (fs2, f) =>
                  let '(fs3, f1) := file_Write fs2 f nonce (fst writes) in
                  let '(fs4, f2) := file_Write fs3 f1 ciphertext (snd writes) in
                  Return (fs4, true, None)
              end
          end
      end
  end.

(** ** An executable instance of the libraries

    Small stand-ins on which the embedding runs: a gzip frame that is
    the two magic bytes followed by the text, an AEAD whose tag is a
    keyed checksum, a YAML decoder that rejects a lone opening brace (a
    flow mapping that is never closed) and accepts every other text, a
    UUID parser that accepts 36-character strings as they are, and map
    iteration in the order of [map_to_list]. They satisfy the laws
    stated above. *)

Module Stub.

Definition frame (p : list Z) : list Z := 31 :: 139 :: p.

Definition unframe (c : list Z) : option (list Z) :=
  match c with
  | 31 :: 139 :: p => Some p
  | _ => None
  end.

Definition stretch (pw salt : list Z) (t m th keyLen : Z) : list Z :=
  take (Z.to_nat keyLen) (salt ++ pw ++ repeat 0 (Z.to_nat keyLen)).

Definition sum (l : list Z) : Z := fold_right Z.add 0 l.

Definition tag (k n body : list Z) : list Z :=
  (sum k + sum n + sum body) mod 256 :: repeat 0 15.

Definition mask (k : list Z) (b : Z) : Z := Z.lxor b (hd 0 k).

Definition seal (k n p : list Z) : list Z :=
  map (mask k) p ++ tag k n (map (mask k) p).

Definition open (k n c : list Z) : option (list Z) :=
  if (length c <? 16)%nat then None
  else
    let body := take (length c - 16) c in
    if bool_decide (drop (length c - 16) c = tag k n body)
    then Some (map (mask k) body)
    else None.

Definition decode (y : list Z) : option (list Z) :=
  if bool_decide (y = [123]) then None else Some y.

Definition parse (s : string) : option string :=
  if (String.length s =? 36)%nat then Some s else None.

Definition externals : Externals := {|
  ModelInput := list Z;
  gzip_compress := frame;
  gzip_decompress := unframe;
  argon2_IDKey := stretch;
  gcm_Seal := seal;
  gcm_Open := open;
  yaml_Unmarshal := decode;
  uuid_Parse := parse;
  filepath_Clean := fun name => name;
  os_privileged := false;
  map_range := fun K _ _ V m => map_to_list m
|}.

End Stub.

(** ** Requests to the token broker *)

Inductive request : Type :=
| CreateToken (fs : FS) (header rnd : option (list Z)) (now nowSweep : Z)
| CheckToken (fs : FS) (header : option (list Z)) (nowSweep nowAccess : Z)
| DeleteToken (header : option (list Z)).

(** The token maps after a request has been served. *)
Definition serve `{Externals} (ctx : Context) (tm : TokenMaps) (r : request) : TokenMaps :=
  match r with
  | CreateToken fs header rnd now nowSweep =>
      fst (createToken ctx fs header rnd now nowSweep tm)
  | CheckToken fs header nowSweep nowAccess =>
      fst (checkTokenToFolderName ctx fs header nowSweep nowAccess tm)
  | DeleteToken header => fst (deleteToken header tm)
  end.

(** The maps at start-up: [make(map[string]string)],
    [make(map[string]timeoutStruct)]. *)
Definition noTokens : TokenMaps :=
  {| mapFolderNameToTokenHash := ∅; mapTokenHashToTimeoutStruct := ∅ |}.

(** Every live record is referenced by the reverse index, which holds
    one digest per folder. *)
Definition index_covers (tm : TokenMaps) : Prop :=
  forall h, is_Some (mapTokenHashToTimeoutStruct tm !! h) ->
            exists F, mapFolderNameToTokenHash tm !! F = Some h.

(** The maps after the first step of [createToken]: the record the
    reverse index names for the folder is deleted. *)
Definition invalidatePrevious (folderName : path) (tm : TokenMaps) : TokenMaps :=
  match mapFolderNameToTokenHash tm !! folderName with
  | Some tokenHash =>
      {| mapFolderNameToTokenHash := mapFolderNameToTokenHash tm;
         mapTokenHashToTimeoutStruct := delete tokenHash (mapTokenHashToTimeoutStruct tm) |}
  | None => tm
  end.

(** The maps after a [createToken] that ran to its end. *)
Definition installed `{Externals} (folderName : path) (tokenHash : string)
    (r : timeoutStruct) (nowSweep : Z) (tm : TokenMaps) : TokenMaps :=
  let tm2 := housekeepingTokenMaps nowSweep (invalidatePrevious folderName tm) in
  {| mapTokenHashToTimeoutStruct := <[tokenHash := r]> (mapTokenHashToTimeoutStruct tm2);
     mapFolderNameToTokenHash := <[folderName := tokenHash]> (mapFolderNameToTokenHash tm2) |}.

Definition issued `{Externals} (ctx : Context) (key pad : list Z) (now nowSweep : Z)
    (tm : TokenMaps) : TokenMaps :=
  installed (folderNameFromKey ctx key) (hashSHA256 (zip_with Z.lxor key pad))
            {| xorRand := pad; createdNanoTime := now; lastAccessedNanoTime := now |}
            nowSweep tm.

(** ** A concrete server for running the embedding *)

Module Example.

Definition ctx : Context := Defaults ["srv"%string] "keys" "threagile.yaml".

Definition key : list Z := map Z.of_nat (seq 1 32).

Definition folder : path := Eval vm_compute in folderNameFromKey ctx key.

Definition uuid : string := "123e4567-e89b-12d3-a456-426614174000".

Definition modelFolder : path := Eval vm_compute in folderNameForModel folder uuid.

(** The tenant folder and one model folder exist; no document yet. *)
Definition fs : FS :=
  {| dirs := {[ ["srv"%string]; ["srv"; "keys"]%string; folder; modelFolder ]};
     files := ∅ |}.

Definition pad1 : list Z := repeat 7 32.
Definition pad2 : list Z := repeat 9 32.

Definition minute : Z := 60000000000.

End Example.

(** ** Runs of the creation throttle *)

(** The timestamps recorded for a type name. *)
Definition window (typeName : string) (m : gmap string (list Z)) : list Z :=
  default [] (m !! hash typeName).

(** The timestamps of a window that a call at [now] keeps: those not
    older than 3 minutes. *)
Definition recent (now : Z) (s : list Z) : list Z :=
  filter (fun t => wrap64 (now - 180000000000) <= t) s.

(** What the sweep leaves of a window: the timestamps not older than
    the cutoff, or no entry at all when none is left. *)
Definition keep (cutoff : Z) (s : list Z) : option (list Z) :=
  match filter (fun t => cutoff <= t) s with
  | [] => None
  | s' => Some s'
  end.

(** The answers to [k] successive calls that find [n] timestamps in the
    window and lose none of them. *)
Definition answers (n k : nat) : list bool :=
  map (fun i => (n + i <? 20)%nat) (seq 0 k).

(** Successive calls for one type name at the given clock values: the
    answers, and the map after the last call. *)
Fixpoint throttle_calls `{Externals} (typeName : string) (times : list Z)
    (m : gmap string (list Z)) : list bool * gmap string (list Z) :=
  match times with
  | [] => ([], m)
  | t :: ts =>
      let '(m1, ok, _) := checkObjectCreationThrottler typeName t m in
      let '(oks, m2) := throttle_calls typeName ts m1 in
      (ok :: oks, m2)
  end.

(** ** Tampering with a stored document *)

(** Bit [j] of byte [i] flipped. *)
Definition flip_bit (i : nat) (j : Z) (l : list Z) : list Z :=
  alter (fun b => Z.lxor b (2 ^ j)) i l.

(** The file at [p] with bit [j] of byte [i] of its ciphertext, which
    starts after the 12 bytes of the nonce, flipped. *)
Definition tamper (fs : FS) (p : path) (i : nat) (j : Z) : FS :=
  set_files fs
    (alter (fun f => {| mode := mode f; data := flip_bit (12 + i) j (data f) |}) p (files fs)).

(** What AES-GCM is relied on for under the key [k]: a sealed message
    with one bit flipped is rejected. (The tag is a polynomial in the
    hash subkey over the ciphertext blocks, so this holds for every key
    whose hash subkey is not zero.) *)
Definition GcmDetectsFlip `{Externals} (k : list Z) : Prop :=
  forall n p (i : nat) (j : Z),
    (i < length (gcm_Seal k n p))%nat -> 0 <= j < 8 ->
    gcm_Open k n (flip_bit i j (gcm_Seal k n p)) = None.

(** The path of the document of a model folder. *)
Definition documentOf (ctx : Context) (modelFolder : path) : path :=
  filepath_Join modelFolder (inputFile ctx).

(** ** Directory listings *)

(** The listing of a set of names, as [os.ReadDir] returns it. *)
Definition listing (names : gset string) : list string :=
  merge_sort string_le (elements names).

(** No path is a directory and a file at once. *)
Definition fs_wf (fs : FS) : Prop :=
  forall p, p ∈ dirs fs -> files fs !! p = None.

(** The history folder of a model folder, and the name of a backup. *)
Definition historyOf (modelFolder : path) : path :=
  filepath_Join modelFolder "history".

Definition backupName (stamp changeReasonForHistory : string) : string :=
  (stamp ++ " " ++ changeReasonForHistory ++ ".backup")%string.

(** How many entries a listing has beyond the number to keep. *)
Definition excess (keep : Z) (l : list string) : nat :=
  Z.to_nat (Z.of_nat (length l) - keep).

(** ** A model with two archived versions, on a server that keeps two *)

Module Archive.

Definition ctx : Context :=
  {| serverFolder := ["srv"%string]; keyDir := "keys"; inputFile := "threagile.yaml";
     backupHistoryFilesToKeep := 2 |}.

Definition history : path := Eval vm_compute in historyOf Example.modelFolder.

Definition fs : FS :=
  {| dirs := {[ ["srv"%string]; ["srv"; "keys"]%string; Example.folder;
                Example.modelFolder; history ]};
     files :=
       {[ documentOf ctx Example.modelFolder := {| mode := 438; data := [1; 2; 3] |};
          filepath_Join history "2024-01-01 09:00:00 Edit.backup"
            := {| mode := 256; data := [7] |};
          filepath_Join history "2024-01-02 09:00:00 Edit.backup"
            := {| mode := 256; data := [8] |} ]} |}.

End Archive.


(** ** A write into the archive, by name *)

Module Written.

(** The write of a second text into the archive of two backups, and the
    file system it leaves. *)
Definition outcome : result (FS * bool * option response) :=
  writeModelYAML (H := Stub.externals) Archive.ctx Archive.fs
    (bytes_of_string "title: B") Example.key Example.modelFolder "Edit" false
    (Some (repeat 9 12)) "2024-01-03 09:00:00" (None, None).

Definition after : FS :=
  match outcome with
  | Return (fs', _, _) => fs'
  | Panicked _ => Archive.fs
  end.

End Written.

(** ** Handlers running side by side

    [gin] serves every request on a goroutine of its own. The state the
    goroutines share is the mutex [context.globalLock], the package
    variable [locksByFolderName], the mutexes that map points to, and
    the disk. A mutex is an address into [mutexes], where [true] means
    held. *)

Record Server := {
  globalLock : bool;
  locksByFolderName : gmap path nat;
  mutexes : list bool;
  disk : FS
}.

Definition set_globalLock (s : Server) (b : bool) : Server :=
  {| globalLock := b; locksByFolderName := locksByFolderName s;
     mutexes := mutexes s; disk := disk s |}.

Definition set_locks (s : Server) (m : gmap path nat) : Server :=
  {| globalLock := globalLock s; locksByFolderName := m;
     mutexes := mutexes s; disk := disk s |}.

Definition set_mutexes (s : Server) (l : list bool) : Server :=
  {| globalLock := globalLock s; locksByFolderName := locksByFolderName s;
     mutexes := l; disk := disk s |}.

Definition set_disk (s : Server) (fs : FS) : Server :=
  {| globalLock := globalLock s; locksByFolderName := locksByFolderName s;
     mutexes := mutexes s; disk := fs |}.

(** One request to [importModel], once [checkTokenToFolderName] has
    answered with [folderNameOfKey] and [key]: the model id of the
    route, the text that [execute] returns for the upload, what the
    random source delivers for the nonce, the formatted clock of the
    backup, and how its two calls of [f.Write] end. *)
Record upload := {
  upFolder : path;
  upKey : list Z;
  upUuid : string;
  upYaml : list Z;
  upRnd : option (list Z);
  upStamp : string;
  upWrites : option nat * option nat
}.

(** How a handler ends: with the write done, without it, or in a panic
    that [gin] recovers. *)
Inductive ending :=
| Imported
| Refused
| Panic (msg : string).

(** Where a goroutine stands in [importModel]: the statement it executes
    next, with the locals that statement needs. *)
Inductive point :=
| lockFolder_globalLock            (* context.globalLock.Lock() *)
| lockFolder_exists                (* _, exists := locksByFolderName[folderName]; if !exists { ... } *)
| lockFolder_index                 (* locksByFolderName[folderName] *)
| lockFolder_Lock (m : nat)        (* .Lock() on the mutex found *)
| lockFolder_return                (* deferred context.globalLock.Unlock() *)
| importModel_readModel            (* _, _, ok = context.readModel(...) *)
| writeModelYAML_backup            (* writeModelYAML up to backupModelToHistory *)
| writeModelYAML_Create (nonce ciphertext : list Z)            (* os.Create *)
| writeModelYAML_Write1 (f : handle) (nonce ciphertext : list Z) (* f.Write(nonce) *)
| writeModelYAML_Write2 (f : handle) (ciphertext : list Z)      (* f.Write(ciphertext); f.Close() *)
| unlockFolder_exists (e : ending) (* if _, exists := locksByFolderName[folderName]; exists *)
| unlockFolder_Unlock (e : ending) (* locksByFolderName[folderName].Unlock() *)
| unlockFolder_delete (e : ending) (* delete(locksByFolderName, folderName) *)
| finished (e : ending).

(** Between the return of [lockFolder] and the deferred call of
    [unlockFolder]. *)
Definition inside (p : point) : bool :=
  match p with
  | importModel_readModel | writeModelYAML_backup | writeModelYAML_Create _ _
  | writeModelYAML_Write1 _ _ _ | writeModelYAML_Write2 _ _ => true
  | _ => false
  end.

(** One statement of a goroutine; [None] when it cannot move: it waits
    for a mutex, or has ended. *)
Definition step `{Externals} (ctx : Context) (r : upload) (p : point) (s : Server)
  : option (point * Server) :=
  let folderName := upFolder r in
  match p with
  | lockFolder_globalLock =>
      if globalLock s then None
      else Some (lockFolder_exists, set_globalLock s true)
  | lockFolder_exists =>
      match locksByFolderName s !! folderName with
      | Some _ => Some (lockFolder_index, s)
      | None =>
          Some (lockFolder_index,
                set_mutexes
                  (set_locks s (<[folderName := length (mutexes s)]> (locksByFolderName s)))
                  (mutexes s ++ [false]))
      end
  | lockFolder_index =>
      match locksByFolderName s !! folderName with
      | Some m => Some (lockFolder_Lock m, s)
      | None =>
          (* a nil *sync.Mutex; the deferred unlock of the global lock runs *)
          Some (finished (Panic "nil pointer dereference"), set_globalLock s false)
      end
  | lockFolder_Lock m =>
      match mutexes s !! m with
      | Some false => Some (lockFolder_return, set_mutexes s (<[m := true]> (mutexes s)))
      | _ => None
      end
  | lockFolder_return =>
      Some (importModel_readModel, set_globalLock s false)
  | importModel_readModel =>
      match readModel ctx (disk s) (upUuid r) (upKey r) folderName with
      | Panicked msg => Some (unlockFolder_exists (Panic msg), s)
      | Return got =>
          if ok got then Some (writeModelYAML_backup, s)
          else Some (unlockFolder_exists Refused, s)
      end
  | writeModelYAML_backup =>
      let modelFolder := folderNameForModel folderName (upUuid r) in
      let plaintext := gzip_compress (upYaml r) in
      match generateKeyFromAlreadyStrongRandomInput (upKey r) with
      | Panicked msg => Some (unlockFolder_exists (Panic msg), s)
      | Return cryptoKey =>
          match aes_NewCipher cryptoKey with
          | None => Some (unlockFolder_exists Refused, s)
          | Some block =>
              match io_ReadFull 12 (upRnd r) with
              | None => Some (unlockFolder_exists Refused, s)
              | Some nonce =>
                  let ciphertext := gcm_Seal block nonce plaintext in
                  let '(fs1, err) :=
                    backupModelToHistory ctx (disk s) modelFolder "Model Import" (upStamp r) in
                  match err with
                  | Some _ => Some (unlockFolder_exists Refused, set_disk s fs1)
                  | None => Some (writeModelYAML_Create nonce ciphertext, set_disk s fs1)
                  end
              end
          end
      end
  | writeModelYAML_Create nonce ciphertext =>
      let modelFolder := folderNameForModel folderName (upUuid r) in
      match os_Create (disk s) (filepath_Join modelFolder (inputFile ctx)) with
      | None => Some (unlockFolder_exists Refused, s)
      | Some (fs2, f) => Some (writeModelYAML_Write1 f nonce ciphertext, set_disk s fs2)
      end
  | writeModelYAML_Write1 f nonce ciphertext =>
      let '(fs3, f1) := file_Write (disk s) f nonce (fst (upWrites r)) in
      Some (writeModelYAML_Write2 f1 ciphertext, set_disk s fs3)
  | writeModelYAML_Write2 f1 ciphertext =>
      let '(fs4, _) := file_Write (disk s) f1 ciphertext (snd (upWrites r)) in
      Some (unlockFolder_exists Imported, set_disk s fs4)
  | unlockFolder_exists e =>
      match locksByFolderName s !! folderName with
      | Some _ => Some (unlockFolder_Unlock e, s)
      | None => Some (finished e, s)
      end
  | unlockFolder_Unlock e =>
      match locksByFolderName s !! folderName with
      | None => Some (finished (Panic "nil pointer dereference"), s)
      | Some m =>
          match mutexes s !! m with
          | Some true => Some (unlockFolder_delete e, set_mutexes s (<[m := false]> (mutexes s)))
          | _ => Some (finished (Panic "sync: unlock of unlocked mutex"), s)
          end
      end
  | unlockFolder_delete e =>
      Some (finished e, set_locks s (delete folderName (locksByFolderName s)))
  | finished _ => None
  end.

(** The goroutines in flight, and the scheduler: the goroutine picked
    executes one statement. A schedule that picks a goroutine which
    cannot move is no execution. *)
Definition pool : Type := list (upload * point).

Definition pick `{Externals} (ctx : Context) (i : nat) (c : pool * Server)
  : option (pool * Server) :=
  '(r, p) ← c.1 !! i;
  '(p', s') ← step ctx r p c.2;
  Some (<[i := (r, p')]> c.1, s').

Fixpoint run `{Externals} (ctx : Context) (schedule : list nat) (c : pool * Server)
  : option (pool * Server) :=
  match schedule with
  | [] => Some c
  | i :: rest => c' ← pick ctx i c; run ctx rest c'
  end.

(** A goroutine running on its own, for at most [fuel] statements. *)
Fixpoint alone `{Externals} (ctx : Context) (fuel : nat) (r : upload) (p : point) (s : Server)
  : point * Server :=
  match fuel with
  | O => (p, s)
  | S fuel' =>
      match step ctx r p s with
      | None => (p, s)
      | Some (p', s') => alone ctx fuel' r p' s'
      end
  end.

Definition points (c : pool * Server) : list point := snd <$> c.1.

(** An idle server on a disk. *)
Definition idle (fs : FS) : Server :=
  {| globalLock := false; locksByFolderName := ∅; mutexes := []; disk := fs |}.

(** What a completed write of [yaml] stores: the nonce, then the sealed
    gzip of the text. *)
Definition stored `{Externals} (key yaml nonce : list Z) : list Z :=
  match generateKeyFromAlreadyStrongRandomInput key with
  | Return cryptoKey => nonce ++ gcm_Seal cryptoKey nonce (gzip_compress yaml)
  | Panicked _ => []
  end.

(** Three uploads for one model of one tenant, all of whose writes
    succeed. *)
Module Race.

Definition fs0 : FS :=
  match writeModelYAML (H := Stub.externals) Example.ctx Example.fs
          (bytes_of_string "title: 0") Example.key Example.modelFolder "Model Creation"
          true (Some (repeat 0 12)) "2024-01-01 09:00:00" (None, None) with
  | Return (fs', _, _) => fs'
  | Panicked _ => Example.fs
  end.

Definition a : upload :=
  {| upFolder := Example.folder; upKey := Example.key; upUuid := Example.uuid;
     upYaml := bytes_of_string "title: A"; upRnd := Some (repeat 1 12);
     upStamp := "2024-01-02 09:00:01"; upWrites := (None, None) |}.

Definition b : upload :=
  {| upFolder := Example.folder; upKey := Example.key; upUuid := Example.uuid;
     upYaml := bytes_of_string "title: B"; upRnd := Some (repeat 2 12);
     upStamp := "2024-01-02 09:00:02"; upWrites := (None, None) |}.

Definition c : upload :=
  {| upFolder := Example.folder; upKey := Example.key; upUuid := Example.uuid;
     upYaml := bytes_of_string "title: C"; upRnd := Some (repeat 3 12);
     upStamp := "2024-01-02 09:00:03"; upWrites := (None, None) |}.

Definition start : pool * Server :=
  ([(a, lockFolder_globalLock); (b, lockFolder_globalLock); (c, lockFolder_globalLock)],
   idle fs0).

(** [a] takes the folder lock; [b] finds the mutex of [a] and waits on
    it; [a] writes, unlocks and deletes the entry; [b] gets the mutex it
    waited on; [c] finds no entry, makes a mutex and locks it. *)
Definition overtaking : list nat :=
  [0; 0; 0; 0; 0;
   1; 1; 1;
   0; 0; 0; 0; 0; 0; 0; 0;
   1; 1;
   2; 2; 2; 2; 2]%nat.

(** [b] and [c] read and back up, then write in turn; both unlock. *)
Definition mingled : list nat :=
  [1; 1; 2; 2;
   1; 1; 2; 2; 2; 1;
   1; 1; 1; 2]%nat.

End Race.

(** ** Token records over time *)

(** Every record is as [createToken] stamped it. *)
Definition untouched (tm : TokenMaps) : Prop :=
  forall h r, mapTokenHashToTimeoutStruct tm !! h = Some r ->
              lastAccessedNanoTime r = createdNanoTime r.

(** The maps once a first token has been issued for the key of
    [Example], at clock 1000. *)
Module Issued.

Definition token : list Z := zip_with Z.lxor Example.key Example.pad1.

Definition tm : TokenMaps :=
  fst (createToken (H := Stub.externals) Example.ctx Example.fs (Some Example.key)
         (Some Example.pad1) 1000 1000 noTokens).

End Issued.

(** ** The throttle map over time *)

(** The throttle map after a call for the type name [call.1] at the
    clock [call.2]. *)
Definition throttled `{Externals} (m : gmap string (list Z)) (call : string * Z)
  : gmap string (list Z) :=
  fst (fst (checkObjectCreationThrottler (fst call) (snd call) m)).

(** No window is empty, and none holds more than 20 timestamps. *)
Definition windows_bounded (m : gmap string (list Z)) : Prop :=
  forall k s, m !! k = Some s -> s <> [] /\ (length s <= 20)%nat.

(** ** Capability keys and new models *)

(** [os.MkdirAll]: every prefix of the path that is missing is created;
    a prefix that is a file is an error. (Directories carry no
    permissions in [FS]: the server creates them with mode 0700.) *)
Fixpoint mkdirAll_from (fs : FS) (parent rest : path) : option FS :=
  match rest with
  | [] => Some fs
  | n :: rest' =>
      let p := filepath_Join parent n in
      if bool_decide (p ∈ dirs fs) then mkdirAll_from fs p rest'
      else if bool_decide (is_Some (files fs !! p)) then None
      else mkdirAll_from (set_dirs fs ({[p]} ∪ dirs fs)) p rest'
  end.

Definition os_MkdirAll (fs : FS) (p : path) : option FS := mkdirAll_from fs [] p.

(** [os.RemoveAll]: the path and everything below it; no error when
    the path does not exist. [denied] are the paths that the system
    refuses to remove (entries of a directory the process may not
    write): those that exist at or below the path stay, with the
    directories that lead to them, and make the call return an error.
    The result is the file system as the call leaves it, and whether it
    returned an error. *)
Definition held_back (fs : FS) (p : path) (denied : gset path) (q : path) : Prop :=
  set_Exists (fun d => notExist fs d = false /\ p `prefix_of` d /\ q `prefix_of` d) denied.

Definition stays (fs : FS) (p : path) (denied : gset path) (q : path) : Prop :=
  ~ p `prefix_of` q \/ held_back fs p denied q.

Global Instance held_back_dec fs p denied q : Decision (held_back fs p denied q).
Proof. unfold held_back. apply _. Defined.

Global Instance stays_dec fs p denied q : Decision (stays fs p denied q).
Proof. unfold stays. apply _. Defined.

Definition os_RemoveAll (fs : FS) (p : path) (denied : gset path) : FS * bool :=
  ({| dirs := filter (stays fs p denied) (dirs fs);
      files := filter (fun e => stays fs p denied (fst e)) (files fs) |},
   bool_decide (held_back fs p denied p)).

(** The answers of the creating handlers; [NotCreated] carries the
    error response that was written. *)
Inductive created :=
| KeyJSON (status : Z) (key : list Z)
| ModelJSON (status : Z) (message id : string)
| NotCreated (r : option response).

(** [createKey]; [now] is the clock read by the throttle and [rnd] what
    the random source delivers. The result is the throttle map and the
    file system as the call leaves them, and the answer. *)
Definition createKey `{Externals} (ctx : Context) (fs : FS) (rnd : option (list Z))
    (now : Z) (createdObjectsThrottler : gmap string (list Z))
  : gmap string (list Z) * FS * created :=
  let '(m1, ok, resp) := checkObjectCreationThrottler "KEY" now createdObjectsThrottler in
  if negb ok
  then (m1, fs, NotCreated resp)
  else
    let '(keyBytesArr, n, err) := rand_Read keySize rnd in
    if negb (n =? keySize)%nat || err
    then (m1, fs, NotCreated (Some (ErrorJSON StatusInternalServerError "unable to create key")))
    else
      match os_MkdirAll fs (folderNameFromKey ctx keyBytesArr) with
      | None =>
          (m1, fs, NotCreated (Some (ErrorJSON StatusInternalServerError "unable to create key")))
      | Some fs' => (m1, fs', KeyJSON StatusCreated keyBytesArr)
      end.

(** [deleteKey]; [denied] is what [os.RemoveAll] is refused. *)
Definition deleteKey (ctx : Context) (fs : FS) (header : option (list Z))
    (denied : gset path) : FS * response :=
  let '(folderName, _, ok, resp) := checkKeyToFolderName ctx fs header in
  if negb ok then (fs, default (ErrorJSON StatusNotFound "key not found") resp)
  else
    let '(fs', err) := os_RemoveAll fs folderName denied in
    if err then (fs', ErrorJSON StatusNotFound "key not found")
    else (fs', MessageJSON StatusOK "key deleted").

(** [createNewModel] from the throttle on, with [folderNameOfKey] and
    [key] as [checkTokenToFolderName] returned them; [aUuid] is
    [uuid.New().String()], [aYaml] the text of the empty model, which
    holds the version of the build, and [writes] how the two calls of
    [f.Write] in [writeModelYAML] end. It runs between [lockFolder] and
    [unlockFolder]. *)
Definition createNewModel `{Externals} (ctx : Context) (fs : FS) (folderNameOfKey : path)
    (key : list Z) (aUuid : string) (aYaml : list Z) (rnd : option (list Z))
    (stamp : string) (writes : option nat * option nat) (now : Z)
    (createdObjectsThrottler : gmap string (list Z))
  : result (gmap string (list Z) * FS * created) :=
  let '(m1, ok, resp) := checkObjectCreationThrottler "MODEL" now createdObjectsThrottler in
  if negb ok
  then Return (m1, fs, NotCreated resp)
  else
    match os_Mkdir fs (folderNameForModel folderNameOfKey aUuid) with
    | None =>
        Return (m1, fs,
                NotCreated (Some (ErrorJSON StatusInternalServerError "unable to create model")))
    | Some fs1 =>
        match writeModelYAML ctx fs1 aYaml key (folderNameForModel folderNameOfKey aUuid)
                "New Model Creation" true rnd stamp writes with
        | Panicked msg => Panicked msg
        | Return (fs2, true, _) =>
            Return (m1, fs2, ModelJSON StatusCreated "model created" aUuid)
        | Return (fs2, false, resp) =>
            Return (m1, fs2, NotCreated resp)
        end
    end.

(** A server folder without keys, and the bytes of a new key. *)
Module Fresh.

Definition fs : FS := {| dirs := {[ ["srv"%string] ]}; files := ∅ |}.

Definition bytes : list Z := map Z.of_nat (seq 101 32).

End Fresh.

(** A model id that [Fresh] and [Example] do not hold yet, and the
    text of an empty model. *)
Module NewModel.

Definition uuid : string := "9b2f0c1e-7a4d-4e55-8c3a-0d6f1e2a3b4c".

Definition yaml : list Z := bytes_of_string "title: New Threat Model".

End NewModel.

(** ** One goroutine at a time *)

(** The server while one goroutine is between [lockFolder] and
    [unlockFolder] for [folderName], and once it has left. *)
Definition held (fs : FS) (folderName : path) : Server :=
  {| globalLock := false; locksByFolderName := {[ folderName := 0%nat ]};
     mutexes := [true]; disk := fs |}.

Definition released (fs : FS) : Server :=
  {| globalLock := false; locksByFolderName := ∅; mutexes := [false]; disk := fs |}.

(** What [importModel] does between the two, as one function. *)
Definition importModel_locked `{Externals} (ctx : Context) (r : upload) (fs : FS)
  : ending * FS :=
  match readModel ctx fs (upUuid r) (upKey r) (upFolder r) with
  | Panicked msg => (Panic msg, fs)
  | Return got =>
      if ok got
      then match writeModelYAML ctx fs (upYaml r) (upKey r)
                   (folderNameForModel (upFolder r) (upUuid r)) "Model Import" false
                   (upRnd r) (upStamp r) (upWrites r) with
           | Panicked msg => (Panic msg, fs)
           | Return (fs', true, _) => (Imported, fs')
           | Return (fs', false, _) => (Refused, fs')
           end
      else (Refused, fs)
  end.

(** A throttle map whose window for keys is full at clock 1000. *)
Module Busy.

Definition m : gmap string (list Z) := {[ hash "KEY" := repeat 1000 20 ]}.

End Busy.

(** A second tenant beside the one of [Example]. *)
Module Two.

Definition key : list Z := map Z.of_nat (seq 33 32).

Definition folder : path := Eval vm_compute in folderNameFromKey Example.ctx key.

Definition fs : FS :=
  {| dirs := {[ ["srv"%string]; ["srv"; "keys"]%string; Example.folder; folder ]};
     files := ∅ |}.

End Two.

(** * Properties of [xor] *)

Lemma xor_loop_from (key : list Z) :
  forall (n : nat) (x acc : list Z),
    length acc = (n + length key)%nat ->
    length x = (n + length key)%nat ->
    fold_left (fun res ib => <[fst ib := Z.lxor (snd ib) (nth (fst ib) x 0)]> res)
              (imap (fun i b => ((n + i)%nat, b)) key) acc
    = take n acc ++ zip_with Z.lxor key (drop n x).
Proof.
  induction key as [|b key IH]; intros n x acc Hacc Hx; simpl in *.
  - rewrite firstn_all2 by lia. by rewrite app_nil_r.
  - replace (n + 0)%nat with n by lia.
    assert (imap ((fun (i : nat) (b0 : Z) => ((n + i)%nat, b0)) ∘ S) key
            = imap (fun (i : nat) (b0 : Z) => ((S n + i)%nat, b0)) key) as ->.
    { apply imap_ext. intros i y _. simpl. f_equal. lia. }
    rewrite (IH (S n)).
    + destruct (drop n x) as [|xn rest] eqn:Hd.
      { apply (f_equal length) in Hd. rewrite length_drop in Hd. simpl in Hd. lia. }
      assert (Hn : nth n x 0 = xn).
      { rewrite <- (take_drop n x) at 1. rewrite app_nth2; rewrite length_take; [|lia].
        replace (n - n `min` length x)%nat with 0%nat by lia. by rewrite Hd. }
      assert (Hr : drop (S n) x = rest).
      { change rest with (drop 1 (xn :: rest)). rewrite <- Hd, drop_drop.
        f_equal. lia. }
      rewrite Hr, Hn. simpl.
      rewrite (take_S_r _ _ (Z.lxor b xn)).
      * rewrite take_insert_ge by lia. by rewrite <- app_assoc.
      * apply list_lookup_insert_eq. lia.
    + rewrite length_insert. lia.
    + lia.
Qed.

Lemma xor_loop_zip (key x : list Z) :
  length key = length x -> xor_loop key x = zip_with Z.lxor key x.
Proof.
  intros H. unfold xor_loop.
  pose proof (xor_loop_from key 0 x (repeat 0 (length x))) as L.
  etrans; [apply L|done]; rewrite ?repeat_length; lia.
Qed.

Lemma xor_Return (key x : list Z) :
  length key = length x -> xor key x = Return (zip_with Z.lxor key x).
Proof.
  intros H. unfold xor. rewrite H, Nat.eqb_refl. simpl. by rewrite xor_loop_zip.
Qed.

Lemma xor_Panicked (key x : list Z) :
  length key <> length x -> exists msg, xor key x = Panicked msg.
Proof.
  intros H. unfold xor. apply Nat.eqb_neq in H. rewrite H. simpl. eauto.
Qed.

Lemma zip_lxor_cancel (k r : list Z) :
  length k = length r -> zip_with Z.lxor (zip_with Z.lxor k r) r = k.
Proof.
  revert r. induction k as [|a k IH]; intros [|b r] H; simpl in *; try done.
  rewrite IH by lia. f_equal.
  rewrite Z.lxor_assoc, Z.lxor_nilpotent, Z.lxor_0_r. done.
Qed.

Lemma length_zip_lxor (k r : list Z) :
  length k = length r -> length (zip_with Z.lxor k r) = length r.
Proof. intros H. rewrite length_zip_with. lia. Qed.

(** * The token maps under the housekeeping sweep *)

Section Housekeeping.
Context `{E : Externals}.
Hypothesis range_law : RangeLaw.

Lemma delete_hash_tokens (h : string) (tm : TokenMaps) :
  mapTokenHashToTimeoutStruct (deleteTokenHashFromMaps h tm)
  = delete h (mapTokenHashToTimeoutStruct tm).
Proof. reflexivity. Qed.

Lemma delete_hash_folders_sub (h : string) (tm : TokenMaps) (F : path) (x : string) :
  mapFolderNameToTokenHash (deleteTokenHashFromMaps h tm) !! F = Some x ->
  mapFolderNameToTokenHash tm !! F = Some x.
Proof.
  unfold deleteTokenHashFromMaps; simpl.
  destruct (List.find _ _) as [[f c]|]; [|done].
  intros H. by apply lookup_delete_Some in H as [_ H].
Qed.

Lemma delete_hash_folders_keep (h : string) (tm : TokenMaps) (F : path) (x : string) :
  mapFolderNameToTokenHash tm !! F = Some x -> x <> h ->
  mapFolderNameToTokenHash (deleteTokenHashFromMaps h tm) !! F = Some x.
Proof.
  intros HF Hne. unfold deleteTokenHashFromMaps; simpl.
  destruct (List.find _ _) as [[f c]|] eqn:Hfind; [|done].
  apply find_some in Hfind as [Hin Hc]. simpl in Hc.
  apply bool_decide_eq_true in Hc. subst c.
  apply list_elem_of_In, range_law in Hin.
  rewrite lookup_delete_ne; [done|]. intros ->. congruence.
Qed.

Lemma sweep_tokens_sub (now : Z) (l : list (string * timeoutStruct)) :
  forall (tm : TokenMaps) (k : string) (v : timeoutStruct),
    mapTokenHashToTimeoutStruct (fold_left (housekeeping_step now) l tm) !! k = Some v ->
    mapTokenHashToTimeoutStruct tm !! k = Some v.
Proof.
  induction l as [|[h val] l IH]; intros tm k v H; simpl in *; [done|].
  apply IH in H. unfold housekeeping_step in H. simpl in H.
  destruct (timedOut now val); [|done].
  rewrite delete_hash_tokens in H. by apply lookup_delete_Some in H as [_ H].
Qed.

Lemma sweep_tokens_keep (now : Z) (l : list (string * timeoutStruct)) :
  forall (tm : TokenMaps) (k : string),
    (forall v, (k, v) ∈ l -> timedOut now v = false) ->
    mapTokenHashToTimeoutStruct (fold_left (housekeeping_step now) l tm) !! k
    = mapTokenHashToTimeoutStruct tm !! k.
Proof.
  induction l as [|[h val] l IH]; intros tm k Hk; simpl in *; [done|].
  rewrite IH by (intros v Hv; apply Hk; by right).
  unfold housekeeping_step; simpl.
  destruct (timedOut now val) eqn:Hto; [|done].
  rewrite delete_hash_tokens. apply lookup_delete_ne.
  intros ->. specialize (Hk val (list_elem_of_here _ _)). congruence.
Qed.

Lemma sweep_tokens_drop (now : Z) (l : list (string * timeoutStruct)) :
  forall (tm : TokenMaps) (k : string) (v : timeoutStruct),
    (k, v) ∈ l -> timedOut now v = true ->
    mapTokenHashToTimeoutStruct (fold_left (housekeeping_step now) l tm) !! k = None.
Proof.
  induction l as [|[h val] l IH]; intros tm k v Hin Hto; simpl in *.
  - by apply elem_of_nil in Hin.
  - apply elem_of_cons in Hin as [Heq|Hin]; [|by eapply IH].
    inversion Heq; subst h val.
    destruct (mapTokenHashToTimeoutStruct
                (fold_left (housekeeping_step now) l
                   (housekeeping_step now tm (k, v))) !! k) as [v'|] eqn:Hl; [|done].
    apply sweep_tokens_sub in Hl. unfold housekeeping_step in Hl. simpl in Hl.
    rewrite Hto, delete_hash_tokens, lookup_delete_eq in Hl. done.
Qed.

(** The sweep removes exactly the records that have timed out. *)
Lemma housekeeping_tokens (now : Z) (tm : TokenMaps) (k : string) :
  mapTokenHashToTimeoutStruct (housekeepingTokenMaps now tm) !! k
  = match mapTokenHashToTimeoutStruct tm !! k with
    | Some v => if timedOut now v then None else Some v
    | None => None
    end.
Proof.
  unfold housekeepingTokenMaps.
  destruct (mapTokenHashToTimeoutStruct tm !! k) as [v|] eqn:Hk.
  - destruct (timedOut now v) eqn:Hto.
    + eapply sweep_tokens_drop; [|done]. by apply range_law.
    + rewrite sweep_tokens_keep; [done|].
      intros v' Hv'. apply range_law in Hv'. congruence.
  - rewrite sweep_tokens_keep; [done|].
    intros v' Hv'. apply range_law in Hv'. congruence.
Qed.

Lemma sweep_folders_sub (now : Z) (l : list (string * timeoutStruct)) :
  forall (tm : TokenMaps) (F : path) (x : string),
    mapFolderNameToTokenHash (fold_left (housekeeping_step now) l tm) !! F = Some x ->
    mapFolderNameToTokenHash tm !! F = Some x.
Proof.
  induction l as [|[h val] l IH]; intros tm F x H; simpl in *; [done|].
  apply IH in H. unfold housekeeping_step in H. simpl in H.
  destruct (timedOut now val); [|done].
  by apply delete_hash_folders_sub in H.
Qed.

Lemma housekeeping_folders_sub (now : Z) (tm : TokenMaps) (F : path) (x : string) :
  mapFolderNameToTokenHash (housekeepingTokenMaps now tm) !! F = Some x ->
  mapFolderNameToTokenHash tm !! F = Some x.
Proof. apply sweep_folders_sub. Qed.

Lemma index_covers_delete_hash (h : string) (tm : TokenMaps) :
  index_covers tm -> index_covers (deleteTokenHashFromMaps h tm).
Proof.
  intros Hc h' Hl. rewrite delete_hash_tokens in Hl.
  destruct Hl as [v Hv]. apply lookup_delete_Some in Hv as [Hne Hv].
  destruct (Hc h') as [F HF]; [eauto|].
  exists F. by apply delete_hash_folders_keep.
Qed.

Lemma index_covers_sweep (now : Z) (l : list (string * timeoutStruct)) :
  forall tm, index_covers tm -> index_covers (fold_left (housekeeping_step now) l tm).
Proof.
  induction l as [|[h val] l IH]; intros tm Hc; simpl; [done|].
  apply IH. unfold housekeeping_step; simpl.
  destruct (timedOut now val); [|done]. by apply index_covers_delete_hash.
Qed.

Lemma index_covers_housekeeping (now : Z) (tm : TokenMaps) :
  index_covers tm -> index_covers (housekeepingTokenMaps now tm).
Proof. apply index_covers_sweep. Qed.

End Housekeeping.

Lemma wrap64_id (x : Z) : int64_range x -> wrap64 x = x.
Proof.
  unfold int64_range, wrap64. intros H.
  rewrite Z.mod_small; lia.
Qed.

(** A record stamped at [t] survives a sweep at [now] as long as no more
    than 30 minutes have passed. *)
Lemma timedOut_fresh (now t : Z) (pad : list Z) :
  0 <= t < 2 ^ 63 -> 0 <= now < 2 ^ 63 -> now - t <= 1800000000000 ->
  timedOut now {| xorRand := pad; createdNanoTime := t; lastAccessedNanoTime := t |} = false.
Proof.
  intros Ht Hn Hd. unfold timedOut; simpl.
  rewrite wrap64_id by (unfold int64_range; lia).
  apply orb_false_iff; split; rewrite Z.gtb_ltb; apply Z.ltb_ge; lia.
Qed.

Lemma timedOut_stale (now t : Z) (pad : list Z) :
  0 <= t < 2 ^ 63 -> 0 <= now < 2 ^ 63 -> 1800000000000 < now - t ->
  timedOut now {| xorRand := pad; createdNanoTime := t; lastAccessedNanoTime := t |} = true.
Proof.
  intros Ht Hn Hd. unfold timedOut; simpl.
  rewrite wrap64_id by (unfold int64_range; lia).
  apply orb_true_iff; left. rewrite Z.gtb_ltb; apply Z.ltb_lt; lia.
Qed.

Section Broker.
Context `{E : Externals}.
Hypothesis range_law : RangeLaw.

Lemma rand_Read_full (bs : list Z) :
  (keySize <= length bs)%nat ->
  rand_Read keySize (Some bs) = (take keySize bs, keySize, false).
Proof.
  intros H. unfold rand_Read.
  rewrite take_app_le by done. by rewrite Nat.min_r.
Qed.

Lemma createToken_issues (ctx : Context) (fs : FS) (key bs : list Z) (now nowSweep : Z)
    (tm : TokenMaps) :
  length key = keySize -> (keySize <= length bs)%nat ->
  notExist fs (folderNameFromKey ctx key) = false ->
  createToken ctx fs (Some key) (Some bs) now nowSweep tm
  = (issued ctx key (take keySize bs) now nowSweep tm,
     Return (TokenJSON StatusCreated (zip_with Z.lxor key (take keySize bs)))).
Proof.
  intros Hk Hb Hex. unfold createToken, checkKeyToFolderName.
  rewrite Hk. change (keySize =? 0)%nat with false. cbv iota. rewrite Hex. cbv iota.
  simpl negb. cbv iota.
  rewrite rand_Read_full by done. rewrite Nat.eqb_refl. simpl.
  rewrite xor_Return by (rewrite length_take; lia).
  unfold issued, installed, invalidatePrevious.
  by destruct (mapFolderNameToTokenHash tm !! folderNameFromKey ctx key).
Qed.

Lemma checkToken_state (ctx : Context) (fs : FS) (token : list Z) (nowSweep nowAccess : Z)
    (tm : TokenMaps) :
  token <> [] ->
  fst (checkTokenToFolderName ctx fs (Some token) nowSweep nowAccess tm)
  = housekeepingTokenMaps nowSweep tm.
Proof.
  intros Hne. unfold checkTokenToFolderName.
  destruct token as [|b token]; [done|]. simpl length. cbv iota. simpl Nat.eqb. cbv iota.
  destruct (mapTokenHashToTimeoutStruct _ !! _) as [r|]; [|done].
  destruct (xor _ _); [|done].
  by destruct (notExist _ _).
Qed.

Lemma checkToken_miss (ctx : Context) (fs : FS) (token : list Z) (nowSweep nowAccess : Z)
    (tm : TokenMaps) :
  mapTokenHashToTimeoutStruct (housekeepingTokenMaps nowSweep tm) !! hashSHA256 token = None ->
  snd (checkTokenToFolderName ctx fs (Some token) nowSweep nowAccess tm)
  = Return (tokenNotFound [] []).
Proof.
  intros Hm. unfold checkTokenToFolderName.
  destruct (length token =? 0)%nat; [done|]. by rewrite Hm.
Qed.

Lemma checkToken_hit (ctx : Context) (fs : FS) (token key : list Z) (r : timeoutStruct)
    (nowSweep nowAccess : Z) (tm : TokenMaps) :
  token <> [] ->
  mapTokenHashToTimeoutStruct (housekeepingTokenMaps nowSweep tm) !! hashSHA256 token = Some r ->
  xor token (xorRand r) = Return key ->
  notExist fs (folderNameFromKey ctx key) = false ->
  snd (checkTokenToFolderName ctx fs (Some token) nowSweep nowAccess tm)
  = Return {| tcFolder := folderNameFromKey ctx key; tcKey := key;
              tcOk := true; tcResponse := None |}.
Proof.
  intros Hne Hl Hx Hex. unfold checkTokenToFolderName.
  destruct token as [|b token]; [done|]. simpl length. simpl Nat.eqb. cbv iota.
  rewrite Hl, Hx, Hex. done.
Qed.

Lemma issued_lookup (ctx : Context) (key pad : list Z) (now nowSweep : Z) (tm : TokenMaps) :
  mapTokenHashToTimeoutStruct (issued ctx key pad now nowSweep tm)
    !! hashSHA256 (zip_with Z.lxor key pad)
  = Some {| xorRand := pad; createdNanoTime := now; lastAccessedNanoTime := now |}.
Proof. unfold issued, installed; simpl. apply lookup_insert_eq. Qed.

Lemma issued_folder (ctx : Context) (key pad : list Z) (now nowSweep : Z) (tm : TokenMaps) :
  mapFolderNameToTokenHash (issued ctx key pad now nowSweep tm) !! folderNameFromKey ctx key
  = Some (hashSHA256 (zip_with Z.lxor key pad)).
Proof. unfold issued, installed; simpl. apply lookup_insert_eq. Qed.

Lemma invalidatePrevious_gone (F : path) (h : string) (tm : TokenMaps) :
  mapFolderNameToTokenHash tm !! F = Some h ->
  mapTokenHashToTimeoutStruct (invalidatePrevious F tm) !! h = None.
Proof. intros H. unfold invalidatePrevious. rewrite H. simpl. apply lookup_delete_eq. Qed.

(** Issuing again for the same key removes the record of the token
    issued before, unless the two tokens have the same digest. *)
Lemma reissue_removes (ctx : Context) (key pad1 pad2 : list Z) (now1 sweep1 now2 sweep2 : Z)
    (tm : TokenMaps) :
  hashSHA256 (zip_with Z.lxor key pad1) <> hashSHA256 (zip_with Z.lxor key pad2) ->
  mapTokenHashToTimeoutStruct
    (issued ctx key pad2 now2 sweep2 (issued ctx key pad1 now1 sweep1 tm))
    !! hashSHA256 (zip_with Z.lxor key pad1) = None.
Proof.
  intros Hne. unfold issued at 1. unfold installed. simpl.
  rewrite lookup_insert_ne by congruence.
  rewrite housekeeping_tokens by done.
  rewrite invalidatePrevious_gone; [done|]. apply issued_folder.
Qed.

Lemma index_covers_invalidate (F : path) (tm : TokenMaps) :
  index_covers tm -> index_covers (invalidatePrevious F tm).
Proof.
  intros Hc. unfold invalidatePrevious.
  destruct (mapFolderNameToTokenHash tm !! F) as [h|]; [|done].
  intros h' [v Hv]. simpl in *. apply lookup_delete_Some in Hv as [_ Hv].
  apply Hc. eauto.
Qed.

Lemma index_covers_installed (F : path) (hn : string) (r : timeoutStruct) (nowSweep : Z)
    (tm : TokenMaps) :
  index_covers tm -> index_covers (installed F hn r nowSweep tm).
Proof.
  intros Hc h [v Hv]. unfold installed in *. simpl in *.
  destruct (decide (h = hn)) as [->|Hne].
  { exists F. apply lookup_insert_eq. }
  rewrite lookup_insert_ne in Hv by done.
  pose proof (index_covers_housekeeping range_law nowSweep _
                (index_covers_invalidate F tm Hc)) as Hc2.
  destruct (Hc2 h) as [F' HF']; [eauto|].
  exists F'. rewrite lookup_insert_ne; [done|].
  intros <-. apply housekeeping_folders_sub in HF'.
  apply sweep_tokens_sub in Hv.
  unfold invalidatePrevious in HF', Hv.
  destruct (mapFolderNameToTokenHash tm !! F) as [h0|] eqn:HF; simpl in *.
  - assert (h0 = h) as -> by congruence. by rewrite lookup_delete_eq in Hv.
  - congruence.
Qed.

Lemma index_covers_createToken (ctx : Context) (fs : FS) (header rnd : option (list Z))
    (now nowSweep : Z) (tm : TokenMaps) :
  index_covers tm -> index_covers (fst (createToken ctx fs header rnd now nowSweep tm)).
Proof.
  intros Hc. unfold createToken.
  destruct (checkKeyToFolderName ctx fs header) as [[[F key] ok] resp].
  destruct ok; simpl; [|done].
  pose proof (index_covers_invalidate F tm Hc) as Hc1.
  pose proof (index_covers_installed F) as Hi.
  unfold invalidatePrevious, installed, invalidatePrevious in *.
  destruct (rand_Read keySize rnd) as [[pad n] err].
  destruct (negb (n =? keySize)%nat || err); simpl.
  { by destruct (mapFolderNameToTokenHash tm !! F). }
  destruct (xor key pad) as [token|msg]; simpl.
  - specialize (Hi (hashSHA256 token)
                   {| xorRand := pad; createdNanoTime := now; lastAccessedNanoTime := now |}
                   nowSweep tm Hc).
    by destruct (mapFolderNameToTokenHash tm !! F).
  - by destruct (mapFolderNameToTokenHash tm !! F).
Qed.

Lemma index_covers_checkToken (ctx : Context) (fs : FS) (header : option (list Z))
    (nowSweep nowAccess : Z) (tm : TokenMaps) :
  index_covers tm ->
  index_covers (fst (checkTokenToFolderName ctx fs header nowSweep nowAccess tm)).
Proof.
  intros Hc. destruct header as [token|]; [|done].
  destruct token as [|b token]; [done|].
  rewrite checkToken_state by done. by apply index_covers_housekeeping.
Qed.

Lemma index_covers_deleteToken (header : option (list Z)) (tm : TokenMaps) :
  index_covers tm -> index_covers (fst (deleteToken header tm)).
Proof.
  intros Hc. unfold deleteToken. destruct header as [token|]; [|done].
  destruct (length token =? 0)%nat; [done|]. simpl.
  by apply index_covers_delete_hash.
Qed.

End Broker.

Lemma stub_range_law : @RangeLaw Stub.externals.
Proof. intros K ? ? V m k v. simpl. apply elem_of_map_to_list. Qed.

(** * The token broker *)

Lemma index_covers_trace `{E : Externals} (ctx : Context) (reqs : list request) :
  RangeLaw -> forall tm, index_covers tm -> index_covers (fold_left (serve ctx) reqs tm).
Proof.
  intros HR. induction reqs as [|r reqs IH]; intros tm Hc; simpl; [done|].
  apply IH. destruct r; simpl.
  - by apply index_covers_createToken.
  - by apply index_covers_checkToken.
  - by apply index_covers_deleteToken.
Qed.

Lemma index_covers_noTokens : index_covers noTokens.
Proof. intros h [v Hv]. simpl in Hv. by rewrite lookup_empty in Hv. Qed.

(** C4. XOR with the same pad twice gives the key back, and the token
    just issued for a 32-byte key whose folder exists verifies: the
    check recovers exactly the key and resolves to the key's folder. *)
Theorem token_issue_verify_round_trip `{E : Externals} (ctx : Context) (fs : FS)
    (key bs : list Z) (now nowSweep nowSweep' nowAccess : Z) (tm : TokenMaps) :
  RangeLaw ->
  length key = keySize -> (keySize <= length bs)%nat ->
  notExist fs (folderNameFromKey ctx key) = false ->
  0 <= now < 2 ^ 63 -> 0 <= nowSweep' < 2 ^ 63 -> nowSweep' - now <= 1800000000000 ->
  (forall k r : list Z, length k = length r -> (t ← xor k r; xor t r) = Return k) /\
  exists token tm',
    xor key (take keySize bs) = Return token /\
    createToken ctx fs (Some key) (Some bs) now nowSweep tm
    = (tm', Return (TokenJSON StatusCreated token)) /\
    xor token (take keySize bs) = Return key /\
    checkTokenToFolderName ctx fs (Some token) nowSweep' nowAccess tm'
    = (housekeepingTokenMaps nowSweep' tm',
       Return {| tcFolder := folderNameFromKey ctx key; tcKey := key;
                 tcOk := true; tcResponse := None |}).
Proof.
  intros HR Hk Hb Hex Hnow Hsw Hd.
  assert (Hinv : forall k r : list Z, length k = length r ->
                                       (t ← xor k r; xor t r) = Return k).
  { intros k r Hl. rewrite xor_Return by done. simpl.
    rewrite xor_Return by (by rewrite length_zip_lxor).
    by rewrite zip_lxor_cancel. }
  split; [exact Hinv|].
  set (pad := take keySize bs).
  assert (Hpad : length key = length pad) by (unfold pad; rewrite length_take; lia).
  exists (zip_with Z.lxor key pad), (issued ctx key pad now nowSweep tm).
  assert (Hback : xor (zip_with Z.lxor key pad) pad = Return key).
  { rewrite xor_Return by (by rewrite length_zip_lxor). by rewrite zip_lxor_cancel. }
  assert (Hne : zip_with Z.lxor key pad <> []).
  { intros H0. apply (f_equal length) in H0. rewrite length_zip_lxor in H0 by done.
    simpl in H0. unfold keySize in *. lia. }
  split; [by apply xor_Return|]. split; [by apply createToken_issues|].
  split; [exact Hback|].
  rewrite (surjective_pairing (checkTokenToFolderName _ _ _ _ _ _)).
  f_equal; [by apply checkToken_state|].
  apply (checkToken_hit ctx fs _ key
           {| xorRand := pad; createdNanoTime := now; lastAccessedNanoTime := now |});
    [done| |exact Hback|done].
  rewrite housekeeping_tokens by done. rewrite issued_lookup.
  by rewrite timedOut_fresh.
Qed.

Lemma token_issue_verify_round_trip_witness :
  exists token tm',
    createToken (H := Stub.externals) Example.ctx Example.fs (Some Example.key)
                (Some Example.pad1) 1000 1000 noTokens
    = (tm', Return (TokenJSON StatusCreated token)) /\
    checkTokenToFolderName (H := Stub.externals) Example.ctx Example.fs (Some token)
                           2000 2000 tm'
    = (housekeepingTokenMaps (H := Stub.externals) 2000 tm',
       Return {| tcFolder := folderNameFromKey Example.ctx Example.key;
                 tcKey := Example.key; tcOk := true; tcResponse := None |}).
Proof.
  destruct (token_issue_verify_round_trip (E := Stub.externals) Example.ctx Example.fs
              Example.key Example.pad1 1000 1000 2000 2000 noTokens)
    as [_ (token & tm' & _ & Hc & _ & Hv)].
  - exact stub_range_law.
  - reflexivity.
  - vm_compute. lia.
  - vm_compute. reflexivity.
  - lia.
  - lia.
  - lia.
  - exists token, tm'. split; [exact Hc | exact Hv].
Defined.

(** C3. At every instant each live token record is the one the reverse
    index names for some folder, and the index names one digest per
    folder. Issuing twice for the same key deletes the first token's
    record before the second is installed: afterwards the first token
    is answered with "token not found" and the second one verifies.
    (The two tokens must not have the same digest, which is the case
    unless the two pads are equal or SHA-512 collides.) *)
Theorem token_single_liveness `{E : Externals} (ctx : Context) (fs : FS)
    (key bs1 bs2 : list Z) (now1 sweep1 now2 sweep2 sweep3 access3 sweep4 access4 : Z)
    (tm : TokenMaps) :
  RangeLaw ->
  length key = keySize -> (keySize <= length bs1)%nat -> (keySize <= length bs2)%nat ->
  notExist fs (folderNameFromKey ctx key) = false ->
  hashSHA256 (zip_with Z.lxor key (take keySize bs1))
    <> hashSHA256 (zip_with Z.lxor key (take keySize bs2)) ->
  0 <= now2 < 2 ^ 63 -> 0 <= sweep3 < 2 ^ 63 -> 0 <= sweep4 < 2 ^ 63 ->
  sweep3 - now2 <= 1800000000000 -> sweep4 - now2 <= 1800000000000 ->
  (forall reqs, index_covers (fold_left (serve ctx) reqs noTokens)) /\
  exists t1 t2 tm1 tm2 tm3,
    createToken ctx fs (Some key) (Some bs1) now1 sweep1 tm
    = (tm1, Return (TokenJSON StatusCreated t1)) /\
    is_Some (mapTokenHashToTimeoutStruct tm1 !! hashSHA256 t1) /\
    createToken ctx fs (Some key) (Some bs2) now2 sweep2 tm1
    = (tm2, Return (TokenJSON StatusCreated t2)) /\
    mapTokenHashToTimeoutStruct tm2 !! hashSHA256 t1 = None /\
    mapFolderNameToTokenHash tm2 !! folderNameFromKey ctx key = Some (hashSHA256 t2) /\
    checkTokenToFolderName ctx fs (Some t1) sweep3 access3 tm2
    = (tm3, Return {| tcFolder := []; tcKey := []; tcOk := false;
                      tcResponse := Some (ErrorJSON StatusNotFound "token not found") |}) /\
    snd (checkTokenToFolderName ctx fs (Some t2) sweep4 access4 tm3)
    = Return {| tcFolder := folderNameFromKey ctx key; tcKey := key;
                tcOk := true; tcResponse := None |}.
Proof.
  intros HR Hk Hb1 Hb2 Hex Hne Hnow Hs3 Hs4 Hd3 Hd4.
  split.
  { intros reqs. apply index_covers_trace; [done|]. apply index_covers_noTokens. }
  set (pad1 := take keySize bs1) in *. set (pad2 := take keySize bs2) in *.
  set (t1 := zip_with Z.lxor key pad1) in *. set (t2 := zip_with Z.lxor key pad2) in *.
  assert (Hp1 : length key = length pad1) by (unfold pad1; rewrite length_take; lia).
  assert (Hp2 : length key = length pad2) by (unfold pad2; rewrite length_take; lia).
  assert (Hnil : forall p, length key = length p -> zip_with Z.lxor key p <> []).
  { intros p Hp H0. apply (f_equal length) in H0. rewrite length_zip_lxor in H0 by done.
    simpl in H0. unfold keySize in *. lia. }
  set (tm1 := issued ctx key pad1 now1 sweep1 tm).
  set (tm2 := issued ctx key pad2 now2 sweep2 tm1).
  exists t1, t2, tm1, tm2, (housekeepingTokenMaps sweep3 tm2).
  assert (Hgone : mapTokenHashToTimeoutStruct tm2 !! hashSHA256 t1 = None)
    by (by apply reissue_removes).
  assert (Hlive : mapTokenHashToTimeoutStruct tm2 !! hashSHA256 t2
                  = Some {| xorRand := pad2; createdNanoTime := now2;
                            lastAccessedNanoTime := now2 |})
    by apply issued_lookup.
  split; [by apply createToken_issues|].
  split; [unfold tm1, t1; rewrite issued_lookup; eauto|].
  split; [by apply createToken_issues|].
  split; [exact Hgone|].
  split; [apply issued_folder|].
  split.
  - rewrite (surjective_pairing (checkTokenToFolderName _ _ _ _ _ _)).
    f_equal; [apply checkToken_state; by apply Hnil|].
    apply checkToken_miss. rewrite housekeeping_tokens by done. by rewrite Hgone.
  - apply (checkToken_hit ctx fs _ key
             {| xorRand := pad2; createdNanoTime := now2; lastAccessedNanoTime := now2 |});
      [by apply Hnil| | |done].
    + rewrite !housekeeping_tokens by done. rewrite Hlive.
      rewrite timedOut_fresh by done. by rewrite timedOut_fresh.
    + change (xor t2 pad2 = Return key). unfold t2.
      rewrite xor_Return by (by rewrite length_zip_lxor).
      by rewrite zip_lxor_cancel.
Qed.

Lemma token_single_liveness_witness :
  exists t1 t2 tm1 tm2 tm3,
    createToken (H := Stub.externals) Example.ctx Example.fs (Some Example.key)
                (Some Example.pad1) 1000 1000 noTokens
    = (tm1, Return (TokenJSON StatusCreated t1)) /\
    createToken (H := Stub.externals) Example.ctx Example.fs (Some Example.key)
                (Some Example.pad2) 2000 2000 tm1
    = (tm2, Return (TokenJSON StatusCreated t2)) /\
    checkTokenToFolderName (H := Stub.externals) Example.ctx Example.fs (Some t1)
                           3000 3000 tm2
    = (tm3, Return {| tcFolder := []; tcKey := []; tcOk := false;
                      tcResponse := Some (ErrorJSON StatusNotFound "token not found") |}) /\
    snd (checkTokenToFolderName (H := Stub.externals) Example.ctx Example.fs (Some t2)
                                4000 4000 tm3)
    = Return {| tcFolder := folderNameFromKey Example.ctx Example.key;
                tcKey := Example.key; tcOk := true; tcResponse := None |}.
Proof.
  destruct (token_single_liveness (E := Stub.externals) Example.ctx Example.fs
              Example.key Example.pad1 Example.pad2
              1000 1000 2000 2000 3000 3000 4000 4000 noTokens)
    as [_ (t1 & t2 & tm1 & tm2 & tm3 & H1 & _ & H2 & _ & _ & H3 & H4)].
  - exact stub_range_law.
  - reflexivity.
  - vm_compute. lia.
  - vm_compute. lia.
  - vm_compute. reflexivity.
  - vm_compute. intros H. discriminate H.
  - lia.
  - lia.
  - lia.
  - lia.
  - lia.
  - exists t1, t2, tm1, tm2, tm3. repeat split; assumption.
Defined.

Lemma checkToken_ok_hit `{E : Externals} (ctx : Context) (fs : FS) (token : list Z)
    (nowSweep nowAccess : Z) (tm : TokenMaps) (r : tokenCheck) :
  snd (checkTokenToFolderName ctx fs (Some token) nowSweep nowAccess tm) = Return r ->
  tcOk r = true ->
  is_Some (mapTokenHashToTimeoutStruct (housekeepingTokenMaps nowSweep tm)
             !! hashSHA256 token).
Proof.
  unfold checkTokenToFolderName.
  destruct (length token =? 0)%nat.
  { simpl. intros [= <-]. done. }
  destruct (mapTokenHashToTimeoutStruct _ !! _) as [rec|]; [eauto|].
  simpl. intros [= <-]. done.
Qed.

(** C5. Run on a concrete server: a token issued at time 1000 is
    verified at time 5000; the check succeeds and the record held in the
    token map still has [lastAccessedNanoTime] 1000. Idleness is hence
    measured from issuance: the same token, verified 29 minutes after it
    was issued, is refused 2 minutes later. *)
Theorem verify_leaves_lastAccessed_unchanged :
  let issue := createToken (H := Stub.externals) Example.ctx Example.fs
                 (Some Example.key) (Some Example.pad1) 1000 1000 noTokens in
  let token := zip_with Z.lxor Example.key Example.pad1 in
  let verify := checkTokenToFolderName (H := Stub.externals) Example.ctx Example.fs
                  (Some token) 5000 5000 (fst issue) in
  let verify29 := checkTokenToFolderName (H := Stub.externals) Example.ctx Example.fs
                    (Some token) (1000 + 29 * Example.minute) (1000 + 29 * Example.minute)
                    (fst issue) in
  let verify31 := checkTokenToFolderName (H := Stub.externals) Example.ctx Example.fs
                    (Some token) (1000 + 31 * Example.minute) (1000 + 31 * Example.minute)
                    (fst verify29) in
  snd issue = Return (TokenJSON StatusCreated token) /\
  (exists r, snd verify = Return r /\ tcOk r = true) /\
  lastAccessedNanoTime
    <$> mapTokenHashToTimeoutStruct (fst verify) !! hashSHA256 token = Some 1000 /\
  (exists r, snd verify29 = Return r /\ tcOk r = true) /\
  snd verify31 = Return (tokenNotFound [] []).
Proof.
  cbv zeta. split; [|split; [|split; [|split]]].
  - vm_compute. reflexivity.
  - vm_compute. (eexists; split; reflexivity).
  - vm_compute. reflexivity.
  - vm_compute. (eexists; split; reflexivity).
  - vm_compute. reflexivity.
Qed.

(** C6, as stated, fails: the record of an issued token is not stored
    under the SHA-256 digest of the token. *)
Lemma token_index_is_not_sha256 :
  let issue := createToken (H := Stub.externals) Example.ctx Example.fs
                 (Some Example.key) (Some Example.pad1) 1000 1000 noTokens in
  let token := zip_with Z.lxor Example.key Example.pad1 in
  snd issue = Return (TokenJSON StatusCreated token) /\
  mapTokenHashToTimeoutStruct (fst issue)
    !! hex_EncodeToString (SHA2.sha256_Sum token) = None /\
  is_Some (mapTokenHashToTimeoutStruct (fst issue)
    !! hex_EncodeToString (SHA2.sha512_Sum token)).
Proof.
  cbv zeta. split; [|split].
  - vm_compute. reflexivity.
  - vm_compute. reflexivity.
  - vm_compute. eexists; reflexivity.
Qed.


(** C6, amended. The record {pad, createdAt, lastAccessedAt} of an
    issued token is stored under the hex digest that [hashSHA256]
    computes, which is the SHA-512 digest of the token; the reverse
    index holds the same digest; and the check looks the record up under
    that digest. *)
Theorem token_index_digest `{E : Externals} (ctx : Context) (fs : FS)
    (key bs : list Z) (now nowSweep : Z) (tm : TokenMaps) :
  length key = keySize -> (keySize <= length bs)%nat ->
  notExist fs (folderNameFromKey ctx key) = false ->
  exists token tm',
    createToken ctx fs (Some key) (Some bs) now nowSweep tm
    = (tm', Return (TokenJSON StatusCreated token)) /\
    mapTokenHashToTimeoutStruct tm' !! hex_EncodeToString (SHA2.sha512_Sum token)
    = Some {| xorRand := take keySize bs; createdNanoTime := now;
              lastAccessedNanoTime := now |} /\
    mapFolderNameToTokenHash tm' !! folderNameFromKey ctx key
    = Some (hex_EncodeToString (SHA2.sha512_Sum token)) /\
    forall (queried : list Z) (fs0 : FS) (sweep access : Z) (tm0 : TokenMaps),
      let found := mapTokenHashToTimeoutStruct (housekeepingTokenMaps sweep tm0)
                     !! hex_EncodeToString (SHA2.sha512_Sum queried) in
      let answer := snd (checkTokenToFolderName ctx fs0 (Some queried) sweep access tm0) in
      (found = None -> answer = Return (tokenNotFound [] [])) /\
      (forall r, answer = Return r -> tcOk r = true -> is_Some found).
Proof.
  intros Hk Hb Hex.
  exists (zip_with Z.lxor key (take keySize bs)),
         (issued ctx key (take keySize bs) now nowSweep tm).
  split; [by apply createToken_issues|].
  split; [apply issued_lookup|].
  split; [apply issued_folder|].
  intros queried fs0 sweep access tm0 found answer. split.
  - apply checkToken_miss.
  - apply checkToken_ok_hit.
Qed.

Lemma token_index_digest_witness :
  exists token tm',
    createToken (H := Stub.externals) Example.ctx Example.fs (Some Example.key)
                (Some Example.pad1) 1000 1000 noTokens
    = (tm', Return (TokenJSON StatusCreated token)) /\
    mapTokenHashToTimeoutStruct tm' !! hex_EncodeToString (SHA2.sha512_Sum token)
    = Some {| xorRand := take keySize Example.pad1; createdNanoTime := 1000;
              lastAccessedNanoTime := 1000 |}.
Proof.
  destruct (token_index_digest (E := Stub.externals) Example.ctx Example.fs
              Example.key Example.pad1 1000 1000 noTokens)
    as (token & tm' & H1 & H2 & _).
  - reflexivity.
  - vm_compute. lia.
  - vm_compute. reflexivity.
  - exists token, tm'. split; [exact H1 | exact H2].
Defined.

(** * The creation throttle *)

Section Throttle.
Context `{E : Externals}.
Hypothesis range_law : RangeLaw.

Lemma prune_loop_filter (cutoff : Z) (k : string) (fuel : nat) :
  forall (i : nat) (m : gmap string (list Z)) (s : list Z),
    m !! k = Some s -> fuel = (length s - i)%nat ->
    prune_loop fuel cutoff k i m
    = <[k := take i s ++ filter (fun t => cutoff <= t) (drop i s)]> m.
Proof.
  induction fuel as [|fuel IH]; intros i m s Hk Hf; simpl.
  - rewrite drop_ge by lia. rewrite take_ge by lia.
    rewrite filter_nil, app_nil_r. by rewrite insert_id.
  - rewrite Hk. simpl.
    assert (Hi : (i < length s)%nat) by lia.
    apply Nat.ltb_lt in Hi as Hi'. rewrite Hi'.
    destruct (lookup_lt_is_Some_2 s i Hi) as [x Hx].
    rewrite (nth_lookup_Some _ _ _ _ Hx).
    rewrite (drop_S _ _ _ Hx).
    destruct (Z.ltb_spec x cutoff) as [Hlt|Hge].
    + rewrite filter_cons_False by lia.
      rewrite (IH i _ (take i s ++ drop (S i) s)).
      * rewrite insert_insert_eq. f_equal.
        rewrite take_app_le by (rewrite length_take; lia).
        rewrite take_take, Nat.min_id.
        rewrite drop_app_ge by (rewrite length_take; lia).
        rewrite length_take. replace (i - i `min` length s)%nat with 0%nat by lia.
        done.
      * apply lookup_insert_eq.
      * rewrite length_app, length_take, length_drop. lia.
    + rewrite filter_cons_True by lia.
      rewrite (IH (S i) m s Hk) by lia.
      f_equal. rewrite (take_S_r _ _ _ Hx). by rewrite <- app_assoc.
Qed.

Lemma sweep_step_lookup (cutoff : Z) (m : gmap string (list Z)) (e : string * list Z)
    (k : string) :
  sweep_step cutoff m e !! k
  = if decide (k = fst e) then m !! k ≫= keep cutoff else m !! k.
Proof.
  unfold sweep_step. destruct e as [k0 v]. simpl.
  destruct (m !! k0) as [s|] eqn:Hk0; simpl.
  - rewrite (prune_loop_filter cutoff k0 _ 0 m s Hk0) by lia.
    rewrite take_0, drop_0. simpl. rewrite lookup_insert_eq. simpl.
    destruct (decide (k = k0)) as [->|Hne].
    + rewrite Hk0. simpl. unfold keep.
      destruct (filter _ s) as [|x s']; simpl.
      * apply lookup_delete_eq.
      * apply lookup_insert_eq.
    + destruct (filter _ s) as [|x s']; simpl.
      * rewrite lookup_delete_ne by done. by rewrite lookup_insert_ne.
      * by rewrite lookup_insert_ne.
  - rewrite Hk0. simpl.
    destruct (decide (k = k0)) as [->|Hne].
    + rewrite lookup_delete_eq, Hk0. done.
    + by rewrite lookup_delete_ne.
Qed.

Lemma keep_keep (cutoff : Z) (o : option (list Z)) :
  (o ≫= keep cutoff) ≫= keep cutoff = o ≫= keep cutoff.
Proof.
  destruct o as [s|]; [|done]. simpl. unfold keep at 2 3.
  destruct (filter _ s) as [|x s'] eqn:Hf; [done|]. simpl.
  unfold keep. rewrite <- Hf.
  assert (Hff : filter (fun t => cutoff <= t) (filter (fun t => cutoff <= t) s)
                = filter (fun t => cutoff <= t) s).
  { clear. induction s as [|y s IH]; [done|].
    destruct (decide (cutoff <= y)).
    - rewrite !filter_cons_True by done. by rewrite IH.
    - rewrite filter_cons_False by done. done. }
  rewrite Hff, Hf. done.
Qed.

Lemma sweep_fold_lookup (cutoff : Z) (l : list (string * list Z)) :
  forall (m : gmap string (list Z)) (k : string),
    fold_left (sweep_step cutoff) l m !! k
    = if decide (k ∈ l.*1) then m !! k ≫= keep cutoff else m !! k.
Proof.
  induction l as [|e l IH]; intros m k.
  - simpl. destruct (decide (k ∈ [])) as [H|H]; [by apply elem_of_nil in H|done].
  - cbn [fold_left]. rewrite IH, !sweep_step_lookup, fmap_cons.
    destruct (decide (k ∈ e.1 :: l.*1)) as [Hc|Hc].
    + destruct (decide (k ∈ l.*1)) as [Hin|Hnin].
      * destruct (decide (k = e.1)) as [->|Hne]; [apply keep_keep|done].
      * destruct (decide (k = e.1)) as [->|Hne]; [done|].
        apply elem_of_cons in Hc as [?|?]; done.
    + destruct (decide (k ∈ l.*1)) as [Hin|Hnin].
      * exfalso. apply Hc. by right.
      * destruct (decide (k = e.1)) as [->|Hne]; [|done].
        exfalso. apply Hc. by left.
Qed.

(** The sweep prunes every window and drops the windows left empty. *)
Lemma sweep_lookup (cutoff : Z) (m : gmap string (list Z)) (k : string) :
  fold_left (sweep_step cutoff) (map_range m) m !! k = m !! k ≫= keep cutoff.
Proof.
  rewrite sweep_fold_lookup.
  destruct (decide (k ∈ (map_range m).*1)) as [Hin|Hnin]; [done|].
  destruct (m !! k) as [s|] eqn:Hk; [|done].
  exfalso. apply Hnin. apply list_elem_of_fmap. exists (k, s).
  split; [done|]. by apply range_law.
Qed.

Lemma default_keep (cutoff : Z) (o : option (list Z)) :
  default [] (o ≫= keep cutoff) = filter (fun t => cutoff <= t) (default [] o).
Proof.
  destruct o as [s|]; simpl; [|done]. unfold keep.
  by destruct (filter _ s).
Qed.

(** One call: prune, compare with 20, record [now] when allowed. *)
Lemma throttle_call (typeName : string) (now : Z) (m : gmap string (list Z)) :
  let W := recent now (window typeName m) in
  exists m',
    checkObjectCreationThrottler typeName now m
    = (m', (length W <? 20)%nat,
       if (length W <? 20)%nat then None
       else Some (ErrorJSON StatusTooManyRequests
         "object creation throttling exceeded (denial-of-service protection): please wait some time and try again")) /\
    window typeName m' = (if (length W <? 20)%nat then W ++ [now] else W).
Proof.
  intros W. unfold checkObjectCreationThrottler.
  set (cutoff := wrap64 (now - 180000000000)).
  set (m1 := fold_left (sweep_step cutoff) (map_range m) m).
  assert (H1 : default [] (m1 !! hash typeName) = W).
  { unfold m1. rewrite sweep_lookup, default_keep. done. }
  set (m2 := match m1 !! hash typeName with
             | Some _ => m1
             | None => <[hash typeName := []]> m1
             end).
  assert (H2 : default [] (m2 !! hash typeName) = W).
  { unfold m2. destruct (m1 !! hash typeName) as [s|] eqn:Hl.
    - by rewrite <- H1, Hl.
    - rewrite lookup_insert_eq. by rewrite <- H1. }
  rewrite H2.
  destruct (length W <? 20)%nat eqn:Hlt.
  - eexists. split; [reflexivity|]. unfold window. by rewrite lookup_insert_eq.
  - eexists. split; [reflexivity|]. exact H2.
Qed.

Lemma recent_all (now : Z) (acc : list Z) :
  0 <= now < 2 ^ 63 -> Forall (fun a => now - a <= 180000000000) acc ->
  recent now acc = acc.
Proof.
  intros Hn Ha. unfold recent.
  rewrite wrap64_id by (unfold int64_range; lia).
  induction Ha as [|a acc Ha _ IH]; [done|].
  rewrite filter_cons_True by lia. by rewrite IH.
Qed.

Lemma recent_none (now : Z) (acc : list Z) :
  0 <= now < 2 ^ 63 -> Forall (fun a => 180000000000 < now - a) acc ->
  recent now acc = [].
Proof.
  intros Hn Ha. unfold recent.
  rewrite wrap64_id by (unfold int64_range; lia).
  induction Ha as [|a acc Ha _ IH]; [done|].
  rewrite filter_cons_False by lia. by rewrite IH.
Qed.

Lemma answers_S (n k : nat) :
  answers n (S k) = (n <? 20)%nat :: answers (if (n <? 20)%nat then S n else n) k.
Proof.
  unfold answers. simpl. rewrite Nat.add_0_r. f_equal.
  rewrite <- seq_shift, map_map. apply map_ext_in. intros i _.
  destruct (n <? 20)%nat eqn:Hn.
  - f_equal. lia.
  - apply Nat.ltb_ge in Hn.
    transitivity false; [|symmetry]; apply Nat.ltb_ge; lia.
Qed.

(** Calls that all fall within one window of 3 minutes lose no
    timestamp: the window fills up to 20 and stays there. *)
Lemma throttle_calls_window (typeName : string) (lo hi : Z) (ts : list Z) :
  0 <= lo -> hi < 2 ^ 63 -> hi - lo <= 180000000000 ->
  Forall (fun t => lo <= t <= hi) ts ->
  forall (m : gmap string (list Z)),
    Forall (fun t => lo <= t <= hi) (window typeName m) ->
    exists m',
      throttle_calls typeName ts m
      = (answers (length (window typeName m)) (length ts), m') /\
      window typeName m'
      = window typeName m ++ take (20 - length (window typeName m)) ts.
Proof.
  intros Hlo Hhi Hspan Hts.
  induction Hts as [|t ts Ht Hts IH]; intros m Hm.
  - exists m. split; [done|]. by rewrite take_nil, app_nil_r.
  - cbn [throttle_calls length]. rewrite answers_S.
    destruct (throttle_call typeName t m) as (m1 & Hcall & Hwin).
    assert (Hrec : recent t (window typeName m) = window typeName m).
    { apply recent_all; [lia|]. eapply Forall_impl; [exact Hm|]. simpl. intros; lia. }
    rewrite Hrec in Hcall, Hwin.
    rewrite Hcall.
    destruct (IH m1) as (m2 & Hrun & Hw2).
    { rewrite Hwin. destruct (_ <? 20)%nat; [|done].
      apply Forall_app; split; [done|]. by constructor. }
    rewrite Hrun, Hwin. exists m2.
    destruct (length (window typeName m) <? 20)%nat eqn:Hlt.
    + rewrite length_app. simpl. rewrite Nat.add_1_r. split; [done|].
      rewrite Hw2, Hwin, length_app. simpl. rewrite <- app_assoc. simpl.
      apply Nat.ltb_lt in Hlt.
      destruct (20 - length (window typeName m))%nat as [|k] eqn:Hk; [lia|].
      simpl. do 3 f_equal. lia.
    + split; [done|]. rewrite Hw2, Hwin. apply Nat.ltb_ge in Hlt.
      by replace (20 - length (window typeName m))%nat with 0%nat by lia.
Qed.

End Throttle.

(** C8. A call first prunes the timestamps older than 3 minutes from
    the window of the type, then answers "allowed" and records [now]
    exactly when fewer than 20 are left, and otherwise answers 429 and
    records nothing. Hence, of 21 calls within one window of 3 minutes
    on an empty window, the first 20 are allowed and the 21st is
    refused; and a call made after the window has passed is allowed
    again. *)
Theorem throttle_boundary `{E : Externals} (typeName : string)
    (m : gmap string (list Z)) (ts : list Z) (lo hi later : Z) :
  RangeLaw ->
  length ts = 21%nat -> window typeName m = [] ->
  0 <= lo -> hi < 2 ^ 63 -> hi - lo <= 180000000000 ->
  Forall (fun t => lo <= t <= hi) ts ->
  180000000000 < later - hi -> later < 2 ^ 63 ->
  (forall now m0,
      let W := recent now (window typeName m0) in
      exists m',
        checkObjectCreationThrottler typeName now m0
        = (m', (length W <? 20)%nat,
           if (length W <? 20)%nat then None
           else Some (ErrorJSON StatusTooManyRequests
             "object creation throttling exceeded (denial-of-service protection): please wait some time and try again")) /\
        window typeName m' = (if (length W <? 20)%nat then W ++ [now] else W)) /\
  exists m21 m22,
    throttle_calls typeName ts m = (repeat true 20 ++ [false], m21) /\
    window typeName m21 = take 20 ts /\
    checkObjectCreationThrottler typeName later m21 = (m22, true, None) /\
    window typeName m22 = [later].
Proof.
  intros HR Hlen Hwin Hlo Hhi Hspan Hts Hlater Hl63.
  split; [intros now m0; by apply throttle_call|].
  destruct (throttle_calls_window HR typeName lo hi ts Hlo Hhi Hspan Hts m) as (m21 & Hrun & Hw).
  { rewrite Hwin. constructor. }
  rewrite Hwin, Hlen in Hrun. simpl in Hw. rewrite Hwin in Hw. simpl in Hw.
  destruct (throttle_call HR typeName later m21) as (m22 & Hcall & Hw22).
  assert (Hnone : recent later (window typeName m21) = []).
  { apply recent_none.
    - destruct ts as [|t ts]; [done|]. apply Forall_cons in Hts as [Ht _]. lia.
    - rewrite Hw. apply Forall_take. eapply Forall_impl; [exact Hts|].
      simpl. intros; lia. }
  rewrite Hnone in Hcall, Hw22. simpl in Hcall, Hw22.
  exists m21, m22. done.
Qed.

Lemma throttle_boundary_witness :
  exists m21 m22,
    throttle_calls (H := Stub.externals) "KEY" (map Z.of_nat (seq 1000 21)) ∅
    = (repeat true 20 ++ [false], m21) /\
    checkObjectCreationThrottler (H := Stub.externals) "KEY" 200000000000 m21
    = (m22, true, None).
Proof.
  destruct (throttle_boundary (E := Stub.externals) "KEY" ∅ (map Z.of_nat (seq 1000 21))
              1000 1020 200000000000)
    as [_ (m21 & m22 & H1 & _ & H2 & _)].
  - exact stub_range_law.
  - reflexivity.
  - reflexivity.
  - lia.
  - lia.
  - lia.
  - simpl. repeat constructor; lia.
  - lia.
  - lia.
  - exists m21, m22. split; [exact H1 | exact H2].
Defined.

Example throttle_run_example :
  fst (throttle_calls (H := Stub.externals) "MODEL" (map Z.of_nat (seq 1 22)) ∅)
  = repeat true 20 ++ [false; false].
Proof. vm_compute. reflexivity. Qed.

(** * The file system *)

Lemma path_dir_Join (d : path) (name : string) : path_dir (filepath_Join d name) = d.
Proof. unfold path_dir, filepath_Join. apply removelast_last. Qed.

Lemma write_at_end (old b : list Z) : write_at old (length old) b = old ++ b.
Proof.
  unfold write_at. rewrite Nat.sub_diag. simpl. rewrite app_nil_r.
  rewrite firstn_all. rewrite drop_ge by lia. by rewrite app_nil_r.
Qed.

Section Files.
Context `{E : Externals}.

Lemma open_trunc_Some (fs fs' : FS) (p : path) (perm : Z) :
  open_trunc fs p perm = Some fs' ->
  path_dir p ∈ dirs fs /\ dirs fs' = dirs fs /\
  (exists md, files fs' = <[p := {| mode := md; data := [] |}]> (files fs)).
Proof.
  unfold open_trunc.
  destruct (bool_decide (p ∈ dirs fs)); [done|].
  destruct (bool_decide (path_dir p ∈ dirs fs)) eqn:Hd; [|done].
  apply bool_decide_eq_true in Hd. simpl.
  destruct (files fs !! p) as [f|].
  - destruct (writable f); [|done]. intros [= <-]. eauto.
  - intros [= <-]. eauto.
Qed.

(** Creating a file and writing two pieces to it leaves what was
    written of the pieces, one part after the other. *)
Lemma create_write_write (fs fs2 : FS) (f : handle) (p : path) (a b : list Z)
    (wa wb : option nat) :
  os_Create fs p = Some (fs2, f) ->
  let '(fs3, f1) := file_Write fs2 f a wa in
  let '(fs4, f2) := file_Write fs3 f1 b wb in
  path_dir p ∈ dirs fs /\ dirs fs4 = dirs fs /\
  os_ReadFile fs4 p = Some (accepted wa a ++ accepted wb b) /\
  (forall q, q <> p -> files fs4 !! q = files fs !! q).
Proof.
  unfold os_Create. intros H.
  destruct (open_trunc fs p 438) as [fs1|] eqn:Ho; [|done].
  simpl in H. injection H as <- <-.
  apply open_trunc_Some in Ho as (Hd & Hdirs & md & Hfiles).
  unfold file_Write. simpl. rewrite Hfiles, lookup_insert_eq. simpl.
  rewrite lookup_insert_eq. simpl.
  split; [done|]. split; [done|]. split.
  - unfold os_ReadFile. simpl. rewrite lookup_insert_eq. simpl.
    change (write_at [] 0 (accepted wa a))
      with (write_at [] (length (@nil Z)) (accepted wa a)).
    rewrite write_at_end. simpl.
    by rewrite write_at_end.
  - intros q Hq. by rewrite !lookup_insert_ne.
Qed.

End Files.

(** * The encrypted vault *)

Section Vault.
Context `{E : Externals}.

Lemma io_ReadFull_length (size : nat) (rnd : option (list Z)) (nonce : list Z) :
  io_ReadFull size rnd = Some nonce -> length nonce = size.
Proof.
  unfold io_ReadFull. destruct rnd as [bs|]; [|done].
  destruct (length bs <? size)%nat eqn:Hl; [done|].
  apply Nat.ltb_ge in Hl. intros [= <-]. rewrite length_take. lia.
Qed.

(** A write that reports success has left, in an existing model
    folder, what its two calls of [f.Write] have written of the nonce
    and of the sealed compressed text. *)
Lemma writeModelYAML_persists (ctx : Context) (fs fs' : FS) (yaml key : list Z)
    (modelFolder : path) (reason : string) (skipBackup : bool)
    (rnd : option (list Z)) (stamp : string) (writes : option nat * option nat)
    (resp : option response) :
  writeModelYAML ctx fs yaml key modelFolder reason skipBackup rnd stamp writes
  = Return (fs', true, resp) ->
  exists cryptoKey block nonce,
    generateKeyFromAlreadyStrongRandomInput key = Return cryptoKey /\
    aes_NewCipher cryptoKey = Some block /\
    io_ReadFull 12 rnd = Some nonce /\
    modelFolder ∈ dirs fs' /\
    os_ReadFile fs' (documentOf ctx modelFolder)
    = Some (accepted (fst writes) nonce
            ++ accepted (snd writes) (gcm_Seal block nonce (gzip_compress yaml))) /\
    resp = None.
Proof.
  unfold writeModelYAML.
  destruct (generateKeyFromAlreadyStrongRandomInput key) as [cryptoKey|msg] eqn:Hk; [|done].
  simpl.
  destruct (aes_NewCipher cryptoKey) as [block|] eqn:Hb; [|intros [=]].
  destruct (io_ReadFull 12 rnd) as [nonce|] eqn:Hn; [|intros [=]].
  destruct (if negb skipBackup
            then backupModelToHistory ctx fs modelFolder reason stamp
            else (fs, None)) as [fs1 err].
  destruct err as [e|]; [intros [=]|].
  destruct (os_Create fs1 (filepath_Join modelFolder (inputFile ctx)))
    as [[fs2 f]|] eqn:Hc; [|intros [=]].
  pose proof (create_write_write fs1 fs2 f _ nonce
                (gcm_Seal block nonce (gzip_compress yaml)) (fst writes) (snd writes) Hc)
    as Hw.
  destruct (file_Write fs2 f nonce (fst writes)) as [fs3 f1].
  destruct (file_Write fs3 f1 _ (snd writes)) as [fs4 f2].
  destruct Hw as (Hd & Hdirs & Hread & _).
  intros [= <- <-]. exists cryptoKey, block, nonce.
  rewrite path_dir_Join in Hd. rewrite Hdirs.
  repeat split; done.
Qed.

Lemma notExist_dir (fs : FS) (p : path) : p ∈ dirs fs -> notExist fs p = false.
Proof. intros H. unfold notExist. by rewrite bool_decide_eq_true_2. Qed.

(** [readModel] on a model folder that exists, with a key that yields
    an AES key, and a stored document [fileBytes]. *)
Lemma readModel_document (ctx : Context) (fs : FS) (modelUUID uuid : string)
    (key cryptoKey block fileBytes : list Z) (folderNameOfKey : path) :
  uuid_Parse modelUUID = Some uuid ->
  notExist fs (folderNameForModel folderNameOfKey uuid) = false ->
  generateKeyFromAlreadyStrongRandomInput key = Return cryptoKey ->
  aes_NewCipher cryptoKey = Some block ->
  os_ReadFile fs (documentOf ctx (folderNameForModel folderNameOfKey uuid)) = Some fileBytes ->
  readModel ctx fs modelUUID key folderNameOfKey
  = if (length fileBytes <? 12)%nat then Panicked "slice bounds out of range"
    else match gcm_Open block (take 12 fileBytes) (drop 12 fileBytes) with
         | None => Return unableToOpen
         | Some plaintext =>
             match gzip_decompress plaintext with
             | None => Return unableToOpen
             | Some yamlBytes =>
                 match yaml_Unmarshal yamlBytes with
                 | None => Return unableToOpen
                 | Some modelInput =>
                     Return {| modelInputResult := Some modelInput;
                               yamlText := yamlBytes; ok := true;
                               readResponse := None |}
                 end
             end
         end.
Proof.
  intros Hu Hex Hk Hb Hf. unfold readModel, checkModelFolder.
  rewrite Hu, Hex. simpl. rewrite Hk. simpl. rewrite Hb.
  unfold documentOf in Hf. rewrite Hf. done.
Qed.

(** Whatever [readModel] returns without [ok] carries no text and no
    model; what it returns with [ok] is the decompression of a
    plaintext that AES-GCM has authenticated. *)
Lemma readModel_atomic (ctx : Context) (fs : FS) (modelUUID : string)
    (key : list Z) (folderNameOfKey : path) (r : modelRead) :
  readModel ctx fs modelUUID key folderNameOfKey = Return r ->
  (ok r = false -> yamlText r = [] /\ modelInputResult r = None) /\
  (ok r = true ->
   exists uuid cryptoKey block fileBytes plaintext,
     uuid_Parse modelUUID = Some uuid /\
     generateKeyFromAlreadyStrongRandomInput key = Return cryptoKey /\
     aes_NewCipher cryptoKey = Some block /\
     os_ReadFile fs (documentOf ctx (folderNameForModel folderNameOfKey uuid))
     = Some fileBytes /\
     gcm_Open block (take 12 fileBytes) (drop 12 fileBytes) = Some plaintext /\
     gzip_decompress plaintext = Some (yamlText r)).
Proof.
  unfold readModel, checkModelFolder.
  destruct (uuid_Parse modelUUID) as [uuid|]; simpl.
  2:{ intros [= <-]. simpl. split; [done|intros [=]]. }
  destruct (notExist fs _); simpl.
  { intros [= <-]. simpl. split; [done|intros [=]]. }
  destruct (generateKeyFromAlreadyStrongRandomInput key) as [cryptoKey|]; [|done].
  simpl. destruct (aes_NewCipher cryptoKey) as [block|] eqn:Hb.
  2:{ intros [= <-]. simpl. split; [done|intros [=]]. }
  destruct (os_ReadFile fs _) as [fileBytes|] eqn:Hf.
  2:{ intros [= <-]. simpl. split; [done|intros [=]]. }
  destruct (length fileBytes <? 12)%nat; [done|].
  destruct (gcm_Open block _ _) as [plaintext|] eqn:Ho.
  2:{ intros [= <-]. simpl. split; [done|intros [=]]. }
  destruct (gzip_decompress plaintext) as [yamlBytes|] eqn:Hz.
  2:{ intros [= <-]. simpl. split; [done|intros [=]]. }
  destruct (yaml_Unmarshal yamlBytes) as [mi|].
  2:{ intros [= <-]. simpl. split; [done|intros [=]]. }
  intros [= <-]. simpl. split; [intros [=]|]. intros _.
  exists uuid, cryptoKey, block, fileBytes, plaintext. done.
Qed.

End Vault.

(** * The executable instance satisfies the laws *)

Lemma stub_gzip_law : @GzipLaw Stub.externals.
Proof. intros p. reflexivity. Qed.

Lemma stub_argon2_length : @Argon2Length Stub.externals.
Proof.
  intros pw salt t m th keyLen Hk. simpl. unfold Stub.stretch.
  rewrite length_take, !length_app, repeat_length. lia.
Qed.

Lemma stub_overhead : @GcmOverhead Stub.externals.
Proof.
  intros k n p. simpl. unfold Stub.seal, Stub.tag.
  rewrite length_app, length_map. simpl. lia.
Qed.

Lemma mask_mask (k : list Z) (p : list Z) : map (Stub.mask k) (map (Stub.mask k) p) = p.
Proof.
  induction p as [|b p IH]; [done|]. simpl. rewrite IH. f_equal.
  unfold Stub.mask. by rewrite Z.lxor_assoc, Z.lxor_nilpotent, Z.lxor_0_r.
Qed.

Lemma stub_open_body_tag (k n body tg : list Z) :
  length tg = 16%nat ->
  Stub.open k n (body ++ tg)
  = if bool_decide (tg = Stub.tag k n body) then Some (map (Stub.mask k) body) else None.
Proof.
  intros Ht. unfold Stub.open. rewrite length_app, Ht.
  replace (length body + 16 <? 16)%nat with false by (symmetry; apply Nat.ltb_ge; lia).
  replace (length body + 16 - 16)%nat with (length body) by lia.
  rewrite take_app_length, drop_app_length. done.
Qed.

Lemma stub_open_seal : @GcmOpenSeal Stub.externals.
Proof.
  intros k n p. simpl. unfold Stub.seal.
  rewrite stub_open_body_tag by done.
  rewrite bool_decide_eq_true_2 by done. by rewrite mask_mask.
Qed.

Lemma lxor_pow2_shift (b j : Z) :
  0 <= j -> Z.lxor b (2 ^ j) = b + 2 ^ j \/ Z.lxor b (2 ^ j) = b - 2 ^ j.
Proof.
  intros Hj.
  assert (Hclear : forall c, Z.testbit c j = false -> Z.lxor c (2 ^ j) = c + 2 ^ j).
  { intros c Hc. symmetry. apply Z.add_nocarry_lxor.
    apply Z.bits_inj'. intros i Hi. rewrite Z.land_spec, Z.bits_0.
    rewrite Z.pow2_bits_eqb by done.
    destruct (Z.eqb_spec j i) as [->|Hne]; [by rewrite Hc|apply andb_false_r]. }
  destruct (Z.testbit b j) eqn:Hb.
  - right. specialize (Hclear (Z.lxor b (2 ^ j))).
    rewrite Z.lxor_assoc, Z.lxor_nilpotent, Z.lxor_0_r in Hclear.
    assert (Hc : Z.testbit (Z.lxor b (2 ^ j)) j = false).
    { rewrite Z.lxor_spec, Hb, Z.pow2_bits_eqb, Z.eqb_refl by done. done. }
    specialize (Hclear Hc). lia.
  - left. by apply Hclear.
Qed.

Lemma sum_alter (f : Z -> Z) (l : list Z) (i : nat) (x : Z) :
  l !! i = Some x -> Stub.sum (alter f i l) = Stub.sum l - x + f x.
Proof.
  assert (Hcons : forall y l', Stub.sum (y :: l') = y + Stub.sum l') by done.
  revert i. induction l as [|y l IH]; intros [|i] H; try done.
  - injection H as ->. change (alter f 0%nat (x :: l)) with (f x :: l).
    rewrite !Hcons. lia.
  - change (alter f (S i) (y :: l)) with (y :: alter f i l).
    rewrite !Hcons, (IH i H). lia.
Qed.

Lemma stub_detects_flip (k : list Z) : @GcmDetectsFlip Stub.externals k.
Proof.
  intros n p i j Hi Hj. simpl in *. unfold Stub.seal in *.
  set (body := map (Stub.mask k) p) in *.
  assert (Hpow : 1 <= 2 ^ j < 256).
  { split; [pose proof (Z.pow_pos_nonneg 2 j); lia|].
    change 256 with (2 ^ 8). apply Z.pow_lt_mono_r; lia. }
  unfold flip_bit. rewrite length_app in Hi.
  destruct (decide (i < length body)%nat) as [Hlt|Hge].
  - rewrite alter_app_l by done.
    rewrite stub_open_body_tag by done.
    rewrite bool_decide_eq_false_2; [done|].
    destruct (lookup_lt_is_Some_2 body i Hlt) as [x Hx].
    unfold Stub.tag. rewrite (sum_alter _ _ _ _ Hx).
    intros [= Heq].
    destruct (lxor_pow2_shift x j) as [Hs|Hs]; [lia|..]; rewrite Hs in Heq;
      revert Heq; generalize (2 ^ j) Hpow; intros d Hd;
      generalize (Stub.sum k + Stub.sum n) (Stub.sum body); intros a s Heq;
      apply (f_equal (fun z => z - (a + s) mod 256)) in Heq;
      rewrite Z.sub_diag in Heq; symmetry in Heq;
      apply Zminus_eq in Heq; revert Heq;
      Z.div_mod_to_equations; lia.
  - rewrite alter_app_r_alt by lia.
    rewrite stub_open_body_tag by (by rewrite length_alter).
    rewrite bool_decide_eq_false_2; [done|].
    intros Heq.
    assert (Hlt : (i - length body < length (Stub.tag k n body))%nat) by (simpl in *; lia).
    destruct (lookup_lt_is_Some_2 _ _ Hlt) as [x Hx].
    apply (f_equal (fun l => l !! (i - length body)%nat)) in Heq.
    rewrite list_lookup_alter_eq, Hx in Heq. simpl in Heq. injection Heq as Heq.
    destruct (lxor_pow2_shift x j) as [Hs|Hs]; lia.
Qed.

Section VaultClaims.
Context `{E : Externals}.

Lemma keygen_ok (key : list Z) :
  Argon2Length -> (16 <= length key)%nat ->
  exists cryptoKey,
    generateKeyFromAlreadyStrongRandomInput key = Return cryptoKey /\
    aes_NewCipher cryptoKey = Some cryptoKey.
Proof.
  intros HA Hk. unfold generateKeyFromAlreadyStrongRandomInput. simpl.
  replace (length key <? 16)%nat with false by (symmetry; apply Nat.ltb_ge; lia).
  eexists. split; [reflexivity|]. unfold aes_NewCipher.
  rewrite HA by (unfold keySize; lia). done.
Qed.

Lemma aes_NewCipher_same (k block : list Z) : aes_NewCipher k = Some block -> block = k.
Proof. unfold aes_NewCipher. destruct (_ || _); [by intros [= <-]|done]. Qed.

(** Reading back what a successful write has persisted, when both
    calls of [f.Write] wrote all they were given. *)
Lemma read_after_write (ctx : Context) (fs fs' : FS) (T key : list Z)
    (modelUUID uuid : string) (F : path) (reason : string) (skipBackup : bool)
    (rnd : option (list Z)) (stamp : string) (resp : option response) :
  GzipLaw -> GcmOpenSeal ->
  uuid_Parse modelUUID = Some uuid ->
  writeModelYAML ctx fs T key (folderNameForModel F uuid) reason skipBackup rnd stamp
                 (None, None)
  = Return (fs', true, resp) ->
  readModel ctx fs' modelUUID key F
  = match yaml_Unmarshal T with
    | None => Return unableToOpen
    | Some modelInput =>
        Return {| modelInputResult := Some modelInput; yamlText := T; ok := true;
                  readResponse := None |}
    end.
Proof.
  intros HG HO Hu Hw.
  apply writeModelYAML_persists in Hw
    as (cryptoKey & block & nonce & Hk & Hb & Hn & Hd & Hr & _).
  simpl in Hr.
  apply io_ReadFull_length in Hn.
  rewrite (readModel_document ctx fs' modelUUID uuid key cryptoKey block _ F
             Hu (notExist_dir _ _ Hd) Hk Hb Hr).
  rewrite length_app, Hn. simpl.
  rewrite take_app_length' by done. rewrite drop_app_length' by done.
  by rewrite HO, HG.
Qed.

Lemma writeModelYAML_succeeds (ctx : Context) (fs : FS) (T key : list Z)
    (modelFolder : path) (reason : string) (bs : list Z) (stamp : string)
    (writes : option nat * option nat) :
  Argon2Length -> (16 <= length key)%nat -> (12 <= length bs)%nat ->
  modelFolder ∈ dirs fs -> documentOf ctx modelFolder ∉ dirs fs ->
  (forall f, files fs !! documentOf ctx modelFolder = Some f -> writable f = true) ->
  exists fs', writeModelYAML ctx fs T key modelFolder reason true (Some bs) stamp writes
              = Return (fs', true, None).
Proof.
  intros HA Hk Hb Hd Hnd Hw.
  destruct (keygen_ok key HA Hk) as (ck & Hck & Hc).
  unfold writeModelYAML. rewrite Hck. simpl. rewrite Hc.
  replace (length bs <? 12)%nat with false by (symmetry; apply Nat.ltb_ge; lia).
  unfold os_Create, open_trunc. fold (documentOf ctx modelFolder).
  rewrite bool_decide_eq_false_2 by done.
  replace (path_dir (documentOf ctx modelFolder)) with modelFolder
    by (symmetry; apply path_dir_Join).
  rewrite bool_decide_eq_true_2 by done. simpl.
  destruct (files fs !! documentOf ctx modelFolder) as [f|] eqn:Hf.
  - rewrite (Hw f eq_refl). simpl.
    destruct (file_Write _ _ _ _) as [fs3 f1]. destruct (file_Write fs3 _ _ _). eauto.
  - simpl. destruct (file_Write _ _ _ _) as [fs3 f1]. destruct (file_Write fs3 _ _ _). eauto.
Qed.


End VaultClaims.








Lemma read_tampered `{E : Externals} (fs : FS) (p : path) (i : nat) (j : Z) :
  os_ReadFile (tamper fs p i j) p = flip_bit (12 + i) j <$> os_ReadFile fs p.
Proof.
  unfold os_ReadFile, tamper. simpl. rewrite lookup_alter_eq.
  by destruct (files fs !! p).
Qed.

(** C2. After a successful write, both calls of [f.Write] of which
    wrote all their bytes, flipping any single bit of the stored
    ciphertext (the bytes after the 12 bytes of the nonce) makes
    [readModel] fail with its error response and no text and no model.
    In general, what [readModel] returns without [ok] carries no text,
    and what it returns with [ok] is the whole decompression of a
    plaintext that AES-GCM has opened. AES-GCM is relied on for
    rejecting a sealed message with one bit flipped. *)
Theorem tamper_detection `{E : Externals} (ctx : Context) (fs fs' : FS) (T key : list Z)
    (modelUUID uuid : string) (F : path) (reason : string) (skipBackup : bool)
    (rnd : option (list Z)) (stamp : string) (resp : option response)
    (doc : list Z) (i : nat) (j : Z) :
  uuid_Parse modelUUID = Some uuid ->
  (forall cryptoKey,
      generateKeyFromAlreadyStrongRandomInput key = Return cryptoKey ->
      GcmDetectsFlip cryptoKey) ->
  writeModelYAML ctx fs T key (folderNameForModel F uuid) reason skipBackup rnd stamp
                 (None, None)
  = Return (fs', true, resp) ->
  os_ReadFile fs' (documentOf ctx (folderNameForModel F uuid)) = Some doc ->
  (12 + i < length doc)%nat -> 0 <= j < 8 ->
  readModel ctx (tamper fs' (documentOf ctx (folderNameForModel F uuid)) i j)
            modelUUID key F
  = Return {| modelInputResult := None; yamlText := []; ok := false;
              readResponse :=
                Some (ErrorJSON StatusInternalServerError "unable to open model") |} /\
  (forall fs0 r,
      readModel ctx fs0 modelUUID key F = Return r ->
      (ok r = false -> yamlText r = [] /\ modelInputResult r = None) /\
      (ok r = true ->
       exists cryptoKey fileBytes plaintext,
         generateKeyFromAlreadyStrongRandomInput key = Return cryptoKey /\
         os_ReadFile fs0 (documentOf ctx (folderNameForModel F uuid)) = Some fileBytes /\
         gcm_Open cryptoKey (take 12 fileBytes) (drop 12 fileBytes) = Some plaintext /\
         gzip_decompress plaintext = Some (yamlText r))).
Proof.
  intros Hu Hflip Hw Hdoc Hi Hj. split.
  - apply writeModelYAML_persists in Hw
      as (cryptoKey & block & nonce & Hk & Hb & Hn & Hd & Hr & _).
    apply io_ReadFull_length in Hn. simpl in Hr.
    pose proof (aes_NewCipher_same _ _ Hb) as ->.
    rewrite Hr in Hdoc. injection Hdoc as <-.
    rewrite length_app, Hn in Hi.
    set (p := documentOf ctx (folderNameForModel F uuid)) in *.
    assert (Hread : os_ReadFile (tamper fs' p i j) p
                    = Some (nonce ++ flip_bit i j
                              (gcm_Seal cryptoKey nonce (gzip_compress T)))).
    { rewrite read_tampered, Hr. unfold flip_bit.
      replace (12 + i)%nat with (length nonce + i)%nat by lia.
      cbn [fmap option_fmap option_map]. f_equal. apply alter_app_r. }
    rewrite (readModel_document ctx (tamper fs' p i j) modelUUID uuid key cryptoKey
               cryptoKey _ F Hu (notExist_dir (tamper fs' p i j) _ Hd) Hk Hb Hread).
    rewrite length_app, Hn. simpl.
    rewrite take_app_length' by done. rewrite drop_app_length' by done.
    rewrite (Hflip cryptoKey Hk) by lia. done.
  - intros fs0 r Hr. apply readModel_atomic in Hr as [H1 H2]. split; [exact H1|].
    intros Hok. destruct (H2 Hok) as (uuid' & ck & block & fb & pt & Hu' & Hk & Hb & Hf & Ho & Hz).
    assert (uuid' = uuid) as -> by congruence.
    pose proof (aes_NewCipher_same _ _ Hb) as ->.
    exists ck, fb, pt. done.
Qed.

Lemma tamper_detection_witness :
  exists fs',
    writeModelYAML (H := Stub.externals) Example.ctx Example.fs
      (bytes_of_string "title: A") Example.key
      (folderNameForModel Example.folder Example.uuid)
      "New Model Creation" true (Some (repeat 9 12)) "2024-01-01 10:00:00" (None, None)
    = Return (fs', true, None) /\
    readModel (H := Stub.externals) Example.ctx
      (tamper fs' (documentOf Example.ctx (folderNameForModel Example.folder Example.uuid))
              3 5)
      Example.uuid Example.key Example.folder
    = Return (@Build_modelRead Stub.externals None [] false
                (Some (ErrorJSON StatusInternalServerError "unable to open model"))).
Proof.
  destruct (writeModelYAML_succeeds (E := Stub.externals) Example.ctx Example.fs
              (bytes_of_string "title: A") Example.key
              (folderNameForModel Example.folder Example.uuid)
              "New Model Creation" (repeat 9 12) "2024-01-01 10:00:00" (None, None))
    as [fs' Hw].
  - exact stub_argon2_length.
  - vm_compute. lia.
  - vm_compute. lia.
  - vm_compute. reflexivity.
  - vm_compute. intros Hin. discriminate Hin.
  - intros f Hf. vm_compute in Hf. discriminate Hf.
  - destruct (writeModelYAML_persists (E := Stub.externals) _ _ _ _ _ _ _ _ _ _ _ _ Hw)
      as (ck & block & nonce & Hk & Hb & Hn & Hd & Hr & _).
    simpl in Hr.
    exists fs'. split; [exact Hw|].
    refine (proj1 (tamper_detection (E := Stub.externals) Example.ctx Example.fs fs'
                     (bytes_of_string "title: A") Example.key Example.uuid Example.uuid
                     Example.folder "New Model Creation" true (Some (repeat 9 12))
                     "2024-01-01 10:00:00" None _ 3 5 _ _ Hw Hr _ _)).
    + reflexivity.
    + intros cryptoKey _. apply stub_detects_flip.
    + rewrite length_app, (stub_overhead block nonce). lia.
    + lia.
Defined.

(** * The order of file names *)

Lemma leb_cons (x y : ascii) (a b : string) :
  String.leb (String x a) (String y b)
  = match (N_of_ascii x ?= N_of_ascii y)%N with
    | Eq => String.leb a b
    | Lt => true
    | Gt => false
    end.
Proof.
  unfold String.leb. simpl. unfold Ascii.compare.
  by destruct (N_of_ascii x ?= N_of_ascii y)%N.
Qed.

Global Instance string_le_trans : Transitive string_le.
Proof.
  unfold string_le. intros a. induction a as [|x a IH]; intros [|y b] [|z c]; try done.
  rewrite !leb_cons.
  destruct (N.compare_spec (N_of_ascii x) (N_of_ascii y)) as [Hxy|Hxy|Hxy];
    destruct (N.compare_spec (N_of_ascii y) (N_of_ascii z)) as [Hyz|Hyz|Hyz];
    destruct (N.compare_spec (N_of_ascii x) (N_of_ascii z)) as [Hxz|Hxz|Hxz];
    try done; try lia.
  apply IH.
Qed.

Global Instance string_le_total : Total string_le.
Proof. intros a b. apply String.leb_total. Qed.

Global Instance string_le_antisym : AntiSymm (=) string_le.
Proof. intros a b. apply String.leb_antisym. Qed.

Lemma not_after_le (a b : string) : not_after a b <-> string_le a b.
Proof.
  unfold not_after, name_less, string_le, String.ltb, String.leb.
  rewrite (String.compare_antisym a b).
  destruct (String.compare b a); simpl; split; done.
Qed.

Global Instance not_after_trans : Transitive not_after.
Proof. intros a b c. rewrite !not_after_le. apply string_le_trans. Qed.

Global Instance not_after_total : Total not_after.
Proof. intros a b. rewrite !not_after_le. apply string_le_total. Qed.

Global Instance not_after_antisym : AntiSymm (=) not_after.
Proof. intros a b. rewrite !not_after_le. apply string_le_antisym. Qed.

Lemma StronglySorted_not_after (l : list string) :
  StronglySorted string_le l -> StronglySorted not_after l.
Proof.
  induction 1 as [|a l Hs IH Ha]; constructor; [done|].
  eapply Forall_impl; [exact Ha|]. intros b. by rewrite not_after_le.
Qed.

(** A directory listing is sorted already: sorting it again by name
    leaves it as it is. *)
Lemma sort_Slice_sorted (l : list string) :
  StronglySorted string_le l -> sort_Slice_by_name l = l.
Proof.
  intros Hs. unfold sort_Slice_by_name.
  apply (StronglySorted_unique not_after).
  - apply StronglySorted_merge_sort; apply _.
  - by apply StronglySorted_not_after.
  - apply merge_sort_Permutation.
Qed.

Lemma listing_sorted (names : gset string) : StronglySorted string_le (listing names).
Proof. apply StronglySorted_merge_sort; apply _. Qed.

Lemma listing_perm (names : gset string) : listing names ≡ₚ elements names.
Proof. apply merge_sort_Permutation. Qed.

Lemma listing_NoDup (names : gset string) : NoDup (listing names).
Proof. rewrite listing_perm. apply NoDup_elements. Qed.

Lemma elem_of_listing (names : gset string) (n : string) :
  n ∈ listing names <-> n ∈ names.
Proof. rewrite listing_perm. apply elem_of_elements. Qed.

(** Removing the first [k] names of a listing from the set leaves the
    rest of the listing. *)
Lemma listing_drop (names : gset string) (k : nat) :
  listing (names ∖ list_to_set (take k (listing names))) = drop k (listing names).
Proof.
  apply (StronglySorted_unique string_le).
  - apply listing_sorted.
  - pose proof (listing_sorted names) as Hs.
    rewrite <- (take_drop k (listing names)) in Hs.
    by apply StronglySorted_app_1_r in Hs.
  - apply NoDup_Permutation.
    + apply listing_NoDup.
    + pose proof (listing_NoDup names) as Hn.
      rewrite <- (take_drop k (listing names)) in Hn.
      by apply NoDup_app in Hn as (_ & _ & Hn).
    + intros n. rewrite elem_of_listing, elem_of_difference, elem_of_list_to_set.
      rewrite <- (elem_of_listing names).
      pose proof (listing_NoDup names) as Hn.
      rewrite <- (take_drop k (listing names)) in Hn.
      apply NoDup_app in Hn as (_ & Hdisj & _).
      rewrite <- (take_drop k (listing names)) at 1.
      rewrite elem_of_app. split.
      * intros [[Ht|Hd] Hnt]; done.
      * intros Hd. split; [by right|]. intros Ht. by apply (Hdisj n).
Qed.

(** Every name among the first [k] of a listing is strictly before
    every name after them. *)
Lemma listing_take_before_drop (names : gset string) (k : nat) (a b : string) :
  a ∈ take k (listing names) -> b ∈ drop k (listing names) ->
  string_le a b /\ a <> b.
Proof.
  intros Ha Hb.
  pose proof (listing_sorted names) as Hs.
  pose proof (listing_NoDup names) as Hn.
  rewrite <- (take_drop k (listing names)) in Hs, Hn.
  split.
  - by eapply (StronglySorted_app_1_elem_of string_le).
  - apply NoDup_app in Hn as (_ & Hdisj & _). intros ->. by apply (Hdisj b).
Qed.

(** * Directory entries *)

Lemma child_name_Some (d p : path) (n : string) :
  child_name d p = Some n <-> p = d ++ [n].
Proof.
  unfold child_name. split.
  - destruct (reverse p) as [|m rd] eqn:Hr; [done|].
    destruct (bool_decide (reverse rd = d)) eqn:Hd; [|done].
    apply bool_decide_eq_true in Hd. intros [= ->]. subst d.
    rewrite <- (reverse_involutive p), Hr. by rewrite reverse_cons.
  - intros ->. rewrite reverse_app. simpl.
    rewrite reverse_involutive. by rewrite bool_decide_eq_true_2.
Qed.

Lemma elem_of_entries (fs : FS) (d : path) (n : string) :
  n ∈ entries fs d <-> d ++ [n] ∈ dirs fs \/ is_Some (files fs !! (d ++ [n])).
Proof.
  unfold entries. rewrite elem_of_set_omap. split.
  - intros (p & Hp & Hc). apply child_name_Some in Hc as ->.
    apply elem_of_union in Hp as [Hp|Hp]; [by left|right]. by apply elem_of_dom.
  - intros H. exists (d ++ [n]). split; [|by apply child_name_Some].
    apply elem_of_union. destruct H as [H|H]; [by left|right]. by apply elem_of_dom.
Qed.

Lemma os_ReadDir_Some (fs : FS) (d : path) (l : list string) :
  os_ReadDir fs d = Some l -> d ∈ dirs fs /\ l = listing (entries fs d).
Proof.
  unfold os_ReadDir. destruct (bool_decide (d ∈ dirs fs)) eqn:Hd; [|done].
  apply bool_decide_eq_true in Hd. by intros [= <-].
Qed.

Lemma os_ReadDir_dir (fs : FS) (d : path) :
  d ∈ dirs fs -> os_ReadDir fs d = Some (listing (entries fs d)).
Proof. intros Hd. unfold os_ReadDir. by rewrite bool_decide_eq_true_2. Qed.

Lemma app_singleton_ne (d : path) (n : string) : d <> d ++ [n].
Proof. intros H. apply (f_equal length) in H. rewrite length_app in H. simpl in H. lia. Qed.

Lemma app_singleton_inj (d : path) (n m : string) : d ++ [n] = d ++ [m] -> n = m.
Proof. intros H. apply app_inv_head in H. by injection H. Qed.

Section Entries.
Context `{E : Externals}.

Lemma os_Mkdir_entries (fs fs1 : FS) (d : path) :
  os_Mkdir fs d = Some fs1 ->
  d ∈ dirs fs1 /\ entries fs1 d = entries fs d /\ files fs1 = files fs /\
  (fs_wf fs -> fs_wf fs1).
Proof.
  unfold os_Mkdir. destruct (notExist fs d) eqn:Hne; [|done]. simpl.
  destruct (bool_decide (path_dir d ∈ dirs fs)); [|done]. simpl.
  intros [= <-]. simpl. split; [set_solver|]. split; [|split; [done|]].
  - apply set_eq. intros n. rewrite !elem_of_entries. simpl.
    rewrite elem_of_union, elem_of_singleton.
    split; [|tauto]. intros [[H|H]|H]; [|tauto..].
    symmetry in H. by apply app_singleton_ne in H.
  - intros Hwf p Hp. simpl in *. apply elem_of_union in Hp as [Hp|Hp]; [|by apply Hwf].
    apply elem_of_singleton in Hp as ->.
    unfold notExist in Hne. apply andb_true_iff in Hne as [_ Hf].
    apply negb_true_iff, bool_decide_eq_false in Hf.
    by apply eq_None_not_Some.
Qed.

Lemma os_WriteFile_entries (fs fs2 : FS) (d : path) (n : string) (b : list Z) (perm : Z) :
  os_WriteFile fs (d ++ [n]) b perm = Some fs2 ->
  dirs fs2 = dirs fs /\ entries fs2 d = entries fs d ∪ {[n]} /\
  (fs_wf fs -> fs_wf fs2).
Proof.
  unfold os_WriteFile. destruct (open_trunc fs (d ++ [n]) perm) as [fs1|] eqn:Ho; [|done].
  simpl. intros [= <-].
  assert (Hnd : d ++ [n] ∉ dirs fs).
  { intros Hin. unfold open_trunc in Ho. by rewrite bool_decide_eq_true_2 in Ho. }
  apply open_trunc_Some in Ho as (_ & Hdirs & md & Hfiles).
  unfold file_Write. simpl. rewrite Hfiles, lookup_insert_eq. simpl.
  split; [done|]. split.
  - apply set_eq. intros m. rewrite elem_of_union, elem_of_singleton, !elem_of_entries.
    simpl. rewrite Hdirs.
    destruct (decide (m = n)) as [->|Hne].
    + rewrite lookup_insert_eq. split; [by right|]. intros _. right. eauto.
    + rewrite !lookup_insert_ne by (intros H; by apply app_singleton_inj in H).
      tauto.
  - intros Hwf p Hp. simpl in *. rewrite Hdirs in Hp.
    rewrite !lookup_insert_ne by (intros <-; done). by apply Hwf.
Qed.

Lemma os_Remove_entries (fs fs' : FS) (d : path) (n : string) :
  fs_wf fs -> os_Remove fs (d ++ [n]) = Some fs' ->
  entries fs' d = entries fs d ∖ {[n]} /\ fs_wf fs' /\ (d ∈ dirs fs -> d ∈ dirs fs').
Proof.
  intros Hwf. unfold os_Remove.
  destruct (bool_decide (is_Some (files fs !! (d ++ [n])))) eqn:Hf.
  - apply bool_decide_eq_true in Hf. intros [= <-]. simpl. split; [|split; [|done]].
    + apply set_eq. intros m.
      rewrite elem_of_difference, elem_of_singleton, !elem_of_entries. simpl.
      destruct (decide (m = n)) as [->|Hne].
      * rewrite lookup_delete_eq. split; [|tauto].
        intros [Hd|[? ?]]; [|done]. apply Hwf in Hd. destruct Hf as [? Hf]. congruence.
      * rewrite lookup_delete_ne by (intros H; by apply app_singleton_inj in H). tauto.
    + intros p Hp. simpl in *.
      destruct (decide (p = d ++ [n])) as [->|Hne]; [apply lookup_delete_eq|].
      rewrite lookup_delete_ne by done. by apply Hwf.
  - apply bool_decide_eq_false in Hf.
    destruct (bool_decide (d ++ [n] ∈ dirs fs) && _) eqn:Hd; [|done].
    intros [= <-]. simpl. split; [|split].
    + apply set_eq. intros m.
      rewrite elem_of_difference, elem_of_singleton, !elem_of_entries. simpl.
      rewrite elem_of_difference, elem_of_singleton.
      destruct (decide (m = n)) as [->|Hne]; [tauto|].
      split; [tauto|]. intros [[H|H] _]; [|tauto].
      left. split; [done|]. intros H'. by apply app_singleton_inj in H'.
    + intros p Hp. simpl in *. apply elem_of_difference in Hp as [Hp _]. by apply Hwf.
    + intros Hin. apply elem_of_difference. split; [done|].
      rewrite elem_of_singleton. apply app_singleton_ne.
Qed.

End Entries.

(** * The history archive *)

Section History.
Context `{E : Externals}.

(** The deletion loop removes the first [requiredToDelete] names of the
    list it is given. *)
Lemma delete_oldest_removes (hf : path) (files0 : list string) :
  forall (k : Z) (fs fs' : FS),
    1 <= k < 2 ^ 63 -> fs_wf fs ->
    delete_oldest hf files0 k fs = (fs', None) ->
    entries fs' hf = entries fs hf ∖ list_to_set (take (Z.to_nat k) files0) /\
    fs_wf fs' /\ (hf ∈ dirs fs -> hf ∈ dirs fs').
Proof.
  induction files0 as [|file0 rest IH]; intros k fs fs' Hk Hwf Hd.
  - simpl in Hd. injection Hd as <-. rewrite take_nil. simpl.
    split; [set_solver|done].
  - cbn [delete_oldest] in Hd.
    rewrite wrap64_id in Hd by (unfold int64_range; lia).
    destruct (negb (String.eqb file0 (filepath_Clean file0))); [done|].
    destruct (os_Remove fs (filepath_Join hf file0)) as [fs1|] eqn:Hr; [|done].
    apply (os_Remove_entries fs fs1 hf file0 Hwf) in Hr as (He & Hwf1 & Hd1).
    replace (Z.to_nat k) with (S (Z.to_nat (k - 1))) by lia.
    cbn [take list_to_set].
    destruct (k - 1 <=? 0) eqn:Hle.
    + injection Hd as <-. apply Z.leb_le in Hle.
      replace (Z.to_nat (k - 1)) with 0%nat by lia. rewrite take_0. simpl.
      split; [rewrite He; set_solver|done].
    + apply Z.leb_gt in Hle.
      apply IH in Hd as (He' & Hwf' & Hd'); [|lia|done].
      split; [rewrite He', He; set_solver|]. split; [done|]. auto.
Qed.

(** A backup that returns no error has added its copy to the history
    folder and then removed the first names of the listing beyond the
    number to keep. *)
Lemma backupModelToHistory_listing (ctx : Context) (fs fs' : FS) (modelFolder : path)
    (reason stamp : string) :
  fs_wf fs ->
  0 <= backupHistoryFilesToKeep ctx ->
  let L := listing (entries fs (historyOf modelFolder) ∪ {[backupName stamp reason]}) in
  Z.of_nat (length L) < 2 ^ 63 ->
  backupModelToHistory ctx fs modelFolder reason stamp = (fs', None) ->
  os_ReadDir fs' (historyOf modelFolder)
  = Some (drop (excess (backupHistoryFilesToKeep ctx) L) L) /\
  fs_wf fs'.
Proof.
  intros Hwf Hkeep L HL. unfold backupModelToHistory.
  fold (historyOf modelFolder). set (hf := historyOf modelFolder) in *.
  fold (backupName stamp reason). set (name := backupName stamp reason) in *.
  assert (H1 : forall fs1,
             (if notExist fs hf then os_Mkdir fs hf else Some fs) = Some fs1 ->
             entries fs1 hf = entries fs hf /\ fs_wf fs1).
  { intros fs1. destruct (notExist fs hf).
    - intros Hm. apply os_Mkdir_entries in Hm as (_ & He & _ & Hw). auto.
    - by intros [= <-]. }
  destruct (if notExist fs hf then os_Mkdir fs hf else Some fs) as [fs1|]; [|done].
  destruct (H1 fs1 eq_refl) as [He1 Hwf1].
  destruct (os_ReadFile fs1 _) as [inputModel|]; [|done].
  destruct (os_WriteFile fs1 (filepath_Join hf name) inputModel 256) as [fs2|] eqn:Hw;
    [|done].
  apply os_WriteFile_entries in Hw as (Hd2 & He2 & Hwf2). specialize (Hwf2 Hwf1).
  destruct (os_ReadDir fs2 hf) as [files0|] eqn:Hrd; [|done].
  apply os_ReadDir_Some in Hrd as [Hhf ->].
  rewrite He2, He1. fold L.
  unfold excess.
  destruct (Z.of_nat (length L) >? backupHistoryFilesToKeep ctx) eqn:Hgt.
  - apply Z.gtb_lt in Hgt.
    rewrite wrap64_id by (unfold int64_range; lia).
    rewrite sort_Slice_sorted by apply listing_sorted.
    intros Hdel.
    apply delete_oldest_removes in Hdel as (He' & Hwf' & Hd'); [|lia|done].
    split; [|done].
    rewrite os_ReadDir_dir by auto.
    rewrite He', He2, He1. fold L. f_equal. apply listing_drop.
  - intros [= <-]. split; [|done].
    rewrite os_ReadDir_dir by done. rewrite He2, He1. fold L.
    assert (Hle : Z.of_nat (length L) <= backupHistoryFilesToKeep ctx).
    { rewrite Z.gtb_ltb in Hgt. by apply Z.ltb_ge in Hgt. }
    replace (Z.to_nat (Z.of_nat (length L) - backupHistoryFilesToKeep ctx)) with 0%nat
      by lia.
    done.
Qed.

(** Writing the document leaves the history folder as the backup left
    it, however the writes end. *)
Lemma document_write_keeps_history (ctx : Context) (fs fs2 : FS) (f : handle)
    (modelFolder : path) (a b : list Z) (wa wb : option nat) :
  os_Create fs (filepath_Join modelFolder (inputFile ctx)) = Some (fs2, f) ->
  let '(fs3, f1) := file_Write fs2 f a wa in
  let '(fs4, f2) := file_Write fs3 f1 b wb in
  os_ReadDir fs4 (historyOf modelFolder) = os_ReadDir fs (historyOf modelFolder).
Proof.
  intros Hc.
  pose proof (create_write_write fs fs2 f _ a b wa wb Hc) as Hw.
  destruct (file_Write fs2 f a wa) as [fs3 f1].
  destruct (file_Write fs3 f1 b wb) as [fs4 f2].
  destruct Hw as (_ & Hdirs & _ & Hfiles).
  unfold os_ReadDir. rewrite Hdirs.
  destruct (bool_decide _); [|done]. do 3 f_equal.
  apply set_eq. intros n. rewrite !elem_of_entries, Hdirs.
  rewrite Hfiles; [done|].
  unfold historyOf, filepath_Join. rewrite <- app_assoc. simpl.
  intros H. apply app_inv_head in H. discriminate H.
Qed.

End History.

(** C7. After a write with the backup enabled has completed, however
    its calls of [f.Write] on the document ended, the history folder of
    the model lists at most
    [backupHistoryFilesToKeep] entries (50 by default): with [L] the
    listing, by name, of the folder once the copy has been added, the
    folder lists [L] without its first entries beyond the number to
    keep, and every entry removed is lexically before every entry
    kept. *)
Theorem history_retention_bound `{E : Externals} (ctx : Context) (fs fs' : FS)
    (T key : list Z) (modelFolder : path) (reason : string) (rnd : option (list Z))
    (stamp : string) (writes : option nat * option nat) (resp : option response) :
  fs_wf fs ->
  0 <= backupHistoryFilesToKeep ctx ->
  Z.of_nat (length (listing (entries fs (historyOf modelFolder)
                               ∪ {[backupName stamp reason]}))) < 2 ^ 63 ->
  writeModelYAML ctx fs T key modelFolder reason false rnd stamp writes
  = Return (fs', true, resp) ->
  let L := listing (entries fs (historyOf modelFolder) ∪ {[backupName stamp reason]}) in
  let k := excess (backupHistoryFilesToKeep ctx) L in
  os_ReadDir fs' (historyOf modelFolder) = Some (drop k L) /\
  Z.of_nat (length (drop k L)) <= backupHistoryFilesToKeep ctx /\
  (backupHistoryFilesToKeep ctx < Z.of_nat (length L) ->
   Z.of_nat (length (drop k L)) = backupHistoryFilesToKeep ctx) /\
  (forall a b, a ∈ take k L -> b ∈ drop k L -> string_le a b /\ a <> b) /\
  (forall server KeyDir InputFile,
      backupHistoryFilesToKeep (Defaults server KeyDir InputFile) = 50).
Proof.
  intros Hwf Hkeep HL Hw L k.
  assert (Hlisting : os_ReadDir fs' (historyOf modelFolder) = Some (drop k L)).
  { unfold writeModelYAML in Hw.
    destruct (generateKeyFromAlreadyStrongRandomInput key) as [ck|]; [|done].
    simpl in Hw.
    destruct (aes_NewCipher ck) as [block|]; [|by injection Hw].
    destruct (io_ReadFull 12 rnd) as [nonce|]; [|by injection Hw].
    destruct (backupModelToHistory ctx fs modelFolder reason stamp) as [fs1 err] eqn:Hb.
    destruct err as [e|]; [by injection Hw|].
    apply backupModelToHistory_listing in Hb as [Hb _]; [|done..].
    destruct (os_Create fs1 _) as [[fs2 f]|] eqn:Hc; [|by injection Hw].
    pose proof (document_write_keeps_history ctx fs1 fs2 f modelFolder nonce
                  (gcm_Seal block nonce (gzip_compress T)) (fst writes) (snd writes) Hc)
      as Hk.
    destruct (file_Write fs2 f nonce (fst writes)) as [fs3 f1].
    destruct (file_Write fs3 f1 _ (snd writes)) as [fs4 f2].
    injection Hw as <- _. by rewrite Hk. }
  split; [exact Hlisting|].
  assert (Hlen : length (drop k L) = (length L - k)%nat) by apply length_drop.
  unfold k, excess in *.
  split; [lia|]. split; [lia|]. split; [|done].
  intros a b. apply listing_take_before_drop.
Qed.

Lemma history_retention_bound_witness :
  Written.outcome = Return (Written.after, true, None) /\
  os_ReadDir Written.after Archive.history
  = Some ["2024-01-02 09:00:00 Edit.backup"; "2024-01-03 09:00:00 Edit.backup"]%string.
Proof.
  assert (Hw : Written.outcome = Return (Written.after, true, None)).
  { vm_cast_no_check (eq_refl (Return (Written.after, true, @None response))). }
  split; [exact Hw|].
  destruct (history_retention_bound (E := Stub.externals) Archive.ctx Archive.fs
              Written.after (bytes_of_string "title: B") Example.key Example.modelFolder
              "Edit" (Some (repeat 9 12)) "2024-01-03 09:00:00" (None, None) None)
    as (Hl & _).
  - intros p Hp. apply elem_of_elements in Hp. vm_compute in Hp.
    repeat (apply elem_of_cons in Hp as [->|Hp]; [vm_compute; reflexivity|]).
    exfalso. exact (proj1 (elem_of_nil p) Hp).
  - vm_compute. discriminate.
  - vm_compute. reflexivity.
  - exact Hw.
  - etrans; [exact Hl|]. vm_compute. reflexivity.
Defined.

Example history_keeps_the_newest :
  match writeModelYAML (H := Stub.externals) Archive.ctx Archive.fs
          (bytes_of_string "title: B") Example.key Example.modelFolder "Edit" false
          (Some (repeat 9 12)) "2024-01-03 09:00:00" (None, None) with
  | Return (fs', true, _) => os_ReadDir fs' Archive.history
  | _ => None
  end
  = Some ["2024-01-02 09:00:00 Edit.backup"; "2024-01-03 09:00:00 Edit.backup"]%string.
Proof. vm_compute. reflexivity. Qed.

(** C9. The folder lock does not serialize the writes to one model.
    [unlockFolder] deletes the mutex from [locksByFolderName] after
    unlocking it, while a goroutine that waits in [lockFolder] holds a
    pointer to that very mutex. Of three uploads [a], [b], [c] for one
    model: once [a] has unlocked, [b] acquires the deleted mutex, at
    address 0, and [c] a fresh one, at address 1, so both are between
    [lockFolder] and [unlockFolder] at once. Run on, all three handlers end with the
    write reported done, and the document is the nonce of [c] followed
    by the ciphertext of [b]: the stored form of none of the three
    texts, and [readModel] cannot open it. *)
Theorem folder_lock_overtaken :
  match run (H := Stub.externals) Example.ctx Race.overtaking Race.start with
  | Some c1 =>
      points c1 = [finished Imported; importModel_readModel; importModel_readModel] /\
      inside <$> points c1 = [false; true; true] /\
      locksByFolderName c1.2 !! Example.folder = Some 1%nat /\
      mutexes c1.2 = [true; true] /\
      match run (H := Stub.externals) Example.ctx Race.mingled c1 with
      | Some c2 =>
          let document :=
            os_ReadFile (disk c2.2) (documentOf Example.ctx Example.modelFolder) in
          let stored_of r :=
            stored (H := Stub.externals) (upKey r) (upYaml r) (default [] (upRnd r)) in
          points c2 = [finished Imported; finished Imported; finished Imported] /\
          document = Some (take 12 (stored_of Race.c) ++ drop 12 (stored_of Race.b)) /\
          document <> Some (stored_of Race.a) /\
          document <> Some (stored_of Race.b) /\
          document <> Some (stored_of Race.c) /\
          readModel (H := Stub.externals) Example.ctx (disk c2.2) Example.uuid
            Example.key Example.folder
          = Return (@unableToOpen Stub.externals)
      | None => False
      end
  | None => False
  end.
Proof.
  vm_compute. repeat split; discriminate.
Qed.

(** * Further properties of the token broker *)

(** X1. [xor] on slices of one length returns the bytewise exclusive or,
    of that length; on slices of different lengths it panics, whichever
    is the longer. *)
Theorem xor_lengths (key x : list Z) :
  (length key = length x ->
   exists r, xor key x = Return r /\ length r = length x /\
             forall i a b, key !! i = Some a -> x !! i = Some b ->
                           r !! i = Some (Z.lxor a b)) /\
  (length key <> length x ->
   xor key x = Panicked "key length not matching XOR length").
Proof.
  split; intros H.
  - exists (zip_with Z.lxor key x). split; [by apply xor_Return|].
    split; [by apply length_zip_lxor|].
    intros i a b Ha Hb. rewrite lookup_zip_with, Ha. simpl. by rewrite Hb.
  - unfold xor. apply Nat.eqb_neq in H. by rewrite H.
Qed.

Lemma sweep_sub `{E : Externals} (now : Z) (tm : TokenMaps) (h : string) (r : timeoutStruct) :
  mapTokenHashToTimeoutStruct (housekeepingTokenMaps now tm) !! h = Some r ->
  mapTokenHashToTimeoutStruct tm !! h = Some r.
Proof. apply sweep_tokens_sub. Qed.

Lemma invalidatePrevious_sub (F : path) (tm : TokenMaps) (h : string) (r : timeoutStruct) :
  mapTokenHashToTimeoutStruct (invalidatePrevious F tm) !! h = Some r ->
  mapTokenHashToTimeoutStruct tm !! h = Some r.
Proof.
  unfold invalidatePrevious. destruct (_ !! F); simpl; [|done].
  intros H. by apply lookup_delete_Some in H as [_ H].
Qed.

Lemma createToken_state `{E : Externals} (ctx : Context) (fs : FS)
    (header rnd : option (list Z)) (now nowSweep : Z) (tm : TokenMaps) :
  let tm' := fst (createToken ctx fs header rnd now nowSweep tm) in
  tm' = tm \/
  tm' = invalidatePrevious (fst (fst (fst (checkKeyToFolderName ctx fs header)))) tm \/
  exists F h pad,
    tm' = installed F h {| xorRand := pad; createdNanoTime := now;
                           lastAccessedNanoTime := now |} nowSweep tm.
Proof.
  unfold createToken.
  destruct (checkKeyToFolderName ctx fs header) as [[[F key] ok] resp]. simpl.
  destruct ok; simpl; [|by left].
  fold (invalidatePrevious F tm).
  destruct (rand_Read keySize rnd) as [[pad n] err].
  destruct (negb (n =? keySize)%nat || err); simpl; [by right; left|].
  destruct (xor key pad) as [token|msg]; simpl; [|by right; left].
  right; right. by exists F, (hashSHA256 token), pad.
Qed.

Lemma untouched_sub (tm tm' : TokenMaps) :
  (forall h r, mapTokenHashToTimeoutStruct tm' !! h = Some r ->
               mapTokenHashToTimeoutStruct tm !! h = Some r) ->
  untouched tm -> untouched tm'.
Proof. intros Hsub Hu h r Hr. eauto. Qed.

Lemma untouched_serve `{E : Externals} (ctx : Context) (tm : TokenMaps) (q : request) :
  untouched tm -> untouched (serve ctx tm q).
Proof.
  intros Hu. destruct q as [fs header rnd now nowSweep|fs header nowSweep nowAccess|header];
    simpl.
  - destruct (createToken_state ctx fs header rnd now nowSweep tm)
      as [->|[->|(F & h & pad & ->)]]; [done| |].
    + eapply untouched_sub; [|done]. apply invalidatePrevious_sub.
    + intros k r. unfold installed. simpl.
      destruct (decide (k = h)) as [->|Hne].
      * rewrite lookup_insert_eq. by intros [= <-].
      * rewrite lookup_insert_ne by done. intros Hr.
        apply sweep_sub, invalidatePrevious_sub in Hr. eauto.
  - unfold checkTokenToFolderName. destruct header as [token|]; [|done].
    destruct (length token =? 0)%nat; [done|].
    assert (Hh : untouched (housekeepingTokenMaps nowSweep tm)).
    { eapply untouched_sub; [|done]. intros h r. apply sweep_sub. }
    destruct (_ !! hashSHA256 token) as [r|]; [|done].
    destruct (xor token (xorRand r)); [|done].
    by destruct (notExist fs _).
  - unfold deleteToken. destruct header as [token|]; [|done].
    destruct (length token =? 0)%nat; [done|]. simpl.
    eapply untouched_sub; [|done]. intros h r. rewrite delete_hash_tokens.
    intros H. by apply lookup_delete_Some in H as [_ H].
Qed.

(** X2. No request ever changes a record once [createToken] has stored
    it: in every state the broker reaches from its empty maps, every
    record has [lastAccessedNanoTime] equal to [createdNanoTime]. So
    the sweep removes a token 30 minutes after it was issued, however
    often it was used, and the limit of 10 hours never decides. *)
Theorem token_records_untouched `{E : Externals} (ctx : Context) (reqs : list request) :
  untouched (fold_left (serve ctx) reqs noTokens) /\
  forall h r now,
    mapTokenHashToTimeoutStruct (fold_left (serve ctx) reqs noTokens) !! h = Some r ->
    timedOut now r = (wrap64 (now - createdNanoTime r) >? 1800000000000).
Proof.
  assert (Hu : untouched (fold_left (serve ctx) reqs noTokens)).
  { assert (H0 : untouched noTokens) by (intros h r; simpl; by rewrite lookup_empty).
    revert H0. generalize noTokens. induction reqs as [|q reqs IH]; intros tm H0; [done|].
    simpl. apply IH. by apply untouched_serve. }
  split; [exact Hu|].
  intros h r now Hr. unfold timedOut. simpl. rewrite (Hu h r Hr).
  destruct (Z.gtb_spec (wrap64 (now - createdNanoTime r)) 1800000000000) as [H|H]; [done|].
  simpl. rewrite Z.gtb_ltb. apply Z.ltb_ge. lia.
Qed.

Lemma sweep_folders_keep `{E : Externals} (now : Z) (l : list (string * timeoutStruct)) :
  RangeLaw ->
  forall (tm : TokenMaps) (F : path) (x : string),
    (forall v, (x, v) ∈ l -> timedOut now v = false) ->
    mapFolderNameToTokenHash tm !! F = Some x ->
    mapFolderNameToTokenHash (fold_left (housekeeping_step now) l tm) !! F = Some x.
Proof.
  intros Hr. induction l as [|[h val] l IH]; intros tm F x Hx HF; simpl in *; [done|].
  apply IH; [intros v Hv; apply Hx; by right|].
  unfold housekeeping_step. simpl.
  destruct (timedOut now val) eqn:Hto; [|done].
  apply delete_hash_folders_keep; try done.
  intros ->. specialize (Hx val (list_elem_of_here _ _)). congruence.
Qed.

(** X3. The sweep of [housekeepingTokenMaps] removes exactly the records
    that have timed out at the clock it reads, in whatever order the
    map is visited; it adds nothing to the reverse index, and keeps the
    entry of every folder whose token has not timed out. *)
Theorem housekeeping_sweeps_exactly `{E : Externals} (now : Z) (tm : TokenMaps) :
  RangeLaw ->
  (forall h,
      mapTokenHashToTimeoutStruct (housekeepingTokenMaps now tm) !! h
      = r ← mapTokenHashToTimeoutStruct tm !! h; if timedOut now r then None else Some r) /\
  (forall F h,
      mapFolderNameToTokenHash (housekeepingTokenMaps now tm) !! F = Some h ->
      mapFolderNameToTokenHash tm !! F = Some h) /\
  (forall F h r,
      mapFolderNameToTokenHash tm !! F = Some h ->
      mapTokenHashToTimeoutStruct tm !! h = Some r -> timedOut now r = false ->
      mapFolderNameToTokenHash (housekeepingTokenMaps now tm) !! F = Some h).
Proof.
  intros Hr. split; [|split].
  - intros h. rewrite housekeeping_tokens by done.
    by destruct (mapTokenHashToTimeoutStruct tm !! h).
  - intros F h. apply housekeeping_folders_sub.
  - intros F h r HF Hh Hto. apply sweep_folders_keep; [done| |done].
    intros v Hv. apply Hr in Hv. congruence.
Qed.

Lemma housekeeping_sweeps_exactly_witness :
  mapTokenHashToTimeoutStruct
    (housekeepingTokenMaps (H := Stub.externals) (1000 + 30 * Example.minute) Issued.tm)
    !! hashSHA256 Issued.token
  = Some {| xorRand := Example.pad1; createdNanoTime := 1000; lastAccessedNanoTime := 1000 |} /\
  mapTokenHashToTimeoutStruct
    (housekeepingTokenMaps (H := Stub.externals) (1001 + 30 * Example.minute) Issued.tm)
    !! hashSHA256 Issued.token
  = None.
Proof.
  split.
  - rewrite (proj1 (housekeeping_sweeps_exactly (E := Stub.externals)
                      (1000 + 30 * Example.minute) Issued.tm stub_range_law)).
    vm_compute. reflexivity.
  - rewrite (proj1 (housekeeping_sweeps_exactly (E := Stub.externals)
                      (1001 + 30 * Example.minute) Issued.tm stub_range_law)).
    vm_compute. reflexivity.
Defined.

Lemma checkToken_gone `{E : Externals} (ctx : Context) (fs : FS) (token : list Z)
    (nowSweep nowAccess : Z) (tm : TokenMaps) :
  mapTokenHashToTimeoutStruct tm !! hashSHA256 token = None ->
  snd (checkTokenToFolderName ctx fs (Some token) nowSweep nowAccess tm)
  = Return (tokenNotFound [] []).
Proof.
  intros H. apply checkToken_miss.
  destruct (mapTokenHashToTimeoutStruct (housekeepingTokenMaps nowSweep tm)
              !! hashSHA256 token) as [r|] eqn:Hr; [|done].
  apply sweep_sub in Hr. congruence.
Qed.

(** X4. A [createToken] that fails at the random source has already
    invalidated the token issued before for the key: it answers 500,
    the previous record is gone, and the previous token gets 404 from
    then on. *)
Theorem createToken_failure_revokes `{E : Externals} (ctx : Context) (fs : FS)
    (key : list Z) (now nowSweep : Z) (tm : TokenMaps) (h : string) :
  key <> [] ->
  notExist fs (folderNameFromKey ctx key) = false ->
  mapFolderNameToTokenHash tm !! folderNameFromKey ctx key = Some h ->
  let after := createToken ctx fs (Some key) None now nowSweep tm in
  snd after = Return (ErrorJSON StatusInternalServerError "unable to create token") /\
  mapTokenHashToTimeoutStruct (fst after) = delete h (mapTokenHashToTimeoutStruct tm) /\
  mapFolderNameToTokenHash (fst after) = mapFolderNameToTokenHash tm /\
  forall fs' token sweep access,
    hashSHA256 token = h ->
    snd (checkTokenToFolderName ctx fs' (Some token) sweep access (fst after))
    = Return (tokenNotFound [] []).
Proof.
  intros Hkey Hfs Hh after.
  assert (Ha : after = ({| mapFolderNameToTokenHash := mapFolderNameToTokenHash tm;
                           mapTokenHashToTimeoutStruct :=
                             delete h (mapTokenHashToTimeoutStruct tm) |},
                        Return (ErrorJSON StatusInternalServerError "unable to create token"))).
  { unfold after, createToken, checkKeyToFolderName.
    destruct key as [|b key]; [done|]. simpl length. simpl Nat.eqb. cbv iota.
    rewrite Hfs. simpl. by rewrite Hh. }
  rewrite Ha. do 3 (split; [done|]).
  intros fs' token sweep access <-. apply checkToken_gone. simpl.
  apply lookup_delete_eq.
Qed.

Lemma createToken_failure_revokes_witness :
  mapTokenHashToTimeoutStruct
    (fst (createToken (H := Stub.externals) Example.ctx Example.fs (Some Example.key)
            None 2000 2000 Issued.tm))
  = delete (hashSHA256 Issued.token) (mapTokenHashToTimeoutStruct Issued.tm).
Proof.
  refine (proj1 (proj2 (createToken_failure_revokes (E := Stub.externals) Example.ctx
                          Example.fs Example.key 2000 2000 Issued.tm
                          (hashSHA256 Issued.token) _ _ _))).
  - discriminate.
  - vm_compute. reflexivity.
  - vm_compute. reflexivity.
Defined.

(** X5. [deleteToken] removes the record of the token it is given and
    no other, answers 200 whether or not there was one, and the token
    gets 404 from then on. *)
Theorem deleteToken_revokes `{E : Externals} (ctx : Context) (fs : FS) (token : list Z)
    (nowSweep nowAccess : Z) (tm : TokenMaps) :
  token <> [] ->
  let after := deleteToken (Some token) tm in
  snd after = MessageJSON StatusOK "token deleted" /\
  mapTokenHashToTimeoutStruct (fst after)
  = delete (hashSHA256 token) (mapTokenHashToTimeoutStruct tm) /\
  snd (checkTokenToFolderName ctx fs (Some token) nowSweep nowAccess (fst after))
  = Return (tokenNotFound [] []).
Proof.
  intros Ht after.
  assert (Ha : after = (deleteTokenHashFromMaps (hashSHA256 token) tm,
                        MessageJSON StatusOK "token deleted")).
  { unfold after, deleteToken. by destruct token. }
  rewrite Ha. cbn [fst snd].
  split; [done|]. rewrite delete_hash_tokens. split; [done|].
  apply checkToken_gone. rewrite delete_hash_tokens. apply lookup_delete_eq.
Qed.

Lemma deleteToken_revokes_witness :
  snd (checkTokenToFolderName (H := Stub.externals) Example.ctx Example.fs
         (Some Issued.token) 2000 2000
         (fst (deleteToken (H := Stub.externals) (Some Issued.token) Issued.tm)))
  = Return (tokenNotFound [] []).
Proof.
  refine (proj2 (proj2 (deleteToken_revokes (E := Stub.externals) Example.ctx Example.fs
                          Issued.token 2000 2000 Issued.tm _))).
  discriminate.
Defined.

(** * Further properties of the creation throttle *)

Lemma keep_bounded (cutoff : Z) (s s' : list Z) :
  keep cutoff s = Some s' -> s' <> [] /\ (length s' <= length s)%nat.
Proof.
  unfold keep. pose proof (length_filter (fun t => cutoff <= t) s) as Hl.
  destruct (filter _ s) as [|a l] eqn:Hf; [done|].
  intros [= <-]. split; [done|]. exact Hl.
Qed.

Lemma windows_bounded_call `{E : Externals} (m : gmap string (list Z)) (call : string * Z) :
  RangeLaw -> windows_bounded m -> windows_bounded (throttled m call).
Proof.
  intros Hr Hm. destruct call as [typeName now].
  unfold throttled, checkObjectCreationThrottler. simpl fst. simpl snd.
  set (cutoff := wrap64 (now - 180000000000)).
  set (m1 := fold_left (sweep_step cutoff) (map_range m) m).
  assert (H1 : windows_bounded m1).
  { intros k s Hk. unfold m1 in Hk. rewrite sweep_lookup in Hk by done.
    destruct (m !! k) as [s0|] eqn:Hs0; [|done]. simpl in Hk.
    apply keep_bounded in Hk as [Hne Hle]. split; [done|].
    destruct (Hm k s0 Hs0) as [_ H20]. lia. }
  destruct (m1 !! hash typeName) as [s0|] eqn:Hs0.
  - rewrite Hs0. simpl.
    destruct (length s0 <? 20)%nat eqn:Hlt; simpl; [|done].
    intros k s. destruct (decide (k = hash typeName)) as [->|Hne].
    + rewrite lookup_insert_eq. intros [= <-]. apply Nat.ltb_lt in Hlt.
      split; [by destruct s0|]. rewrite length_app. simpl. lia.
    + rewrite lookup_insert_ne by done. apply H1.
  - rewrite lookup_insert_eq. simpl.
    intros k s. destruct (decide (k = hash typeName)) as [->|Hne].
    + rewrite lookup_insert_eq. intros [= <-]. split; [done|simpl; lia].
    + rewrite !lookup_insert_ne by done. apply H1.
Qed.

(** X6. The throttle map stays small: after any sequence of calls, for
    any type names and at any clock values, no window is empty and none
    holds more than 20 timestamps. *)
Theorem throttle_windows_bounded `{E : Externals} (calls : list (string * Z)) :
  RangeLaw -> windows_bounded (fold_left throttled calls ∅).
Proof.
  intros Hr.
  assert (H0 : windows_bounded (∅ : gmap string (list Z))).
  { intros k s. by rewrite lookup_empty. }
  revert H0. generalize (∅ : gmap string (list Z)).
  induction calls as [|c calls IH]; intros m Hm; [done|].
  simpl. apply IH. by apply windows_bounded_call.
Qed.

Lemma throttle_windows_bounded_witness :
  windows_bounded
    (fold_left (throttled (H := Stub.externals)) [("KEY"%string, 1); ("MODEL"%string, 2)] ∅).
Proof.
  exact (throttle_windows_bounded (E := Stub.externals) _ stub_range_law).
Defined.

(** * Capability keys *)

Lemma mkdirAll_from_dirs (rest : path) :
  forall (fs fs' : FS) (parent : path),
    mkdirAll_from fs parent rest = Some fs' ->
    files fs' = files fs /\ dirs fs ⊆ dirs fs' /\
    (parent ∈ dirs fs -> parent ++ rest ∈ dirs fs').
Proof.
  induction rest as [|n rest IH]; intros fs fs' parent H; simpl in H.
  - injection H as <-. rewrite app_nil_r. done.
  - unfold filepath_Join in H.
    replace (parent ++ n :: rest) with ((parent ++ [n]) ++ rest)
      by (by rewrite <- app_assoc).
    destruct (bool_decide (parent ++ [n] ∈ dirs fs)) eqn:Hd.
    + apply bool_decide_eq_true in Hd.
      apply IH in H as (Hf & Hs & Hp). auto.
    + destruct (bool_decide (is_Some (files fs !! (parent ++ [n])))); [done|].
      apply IH in H as (Hf & Hs & Hp). simpl in *.
      split; [done|]. split; [set_solver|]. intros _. apply Hp. set_solver.
Qed.

Lemma os_MkdirAll_dir (fs fs' : FS) (n : string) (rest : path) :
  os_MkdirAll fs (n :: rest) = Some fs' ->
  files fs' = files fs /\ dirs fs ⊆ dirs fs' /\ n :: rest ∈ dirs fs'.
Proof.
  unfold os_MkdirAll. simpl. unfold filepath_Join. simpl.
  destruct (bool_decide ([n] ∈ dirs fs)) eqn:Hd.
  - apply bool_decide_eq_true in Hd. intros H.
    apply mkdirAll_from_dirs in H as (Hf & Hs & Hp). auto.
  - destruct (bool_decide (is_Some (files fs !! [n]))); [done|]. intros H.
    apply mkdirAll_from_dirs in H as (Hf & Hs & Hp). simpl in *.
    split; [done|]. split; [set_solver|]. apply Hp. set_solver.
Qed.

Lemma folderNameFromKey_cons (ctx : Context) (key : list Z) :
  exists n rest, folderNameFromKey ctx key = n :: rest.
Proof.
  unfold folderNameFromKey, filepath_Join.
  destruct (serverFolder ctx) as [|n rest]; simpl; eauto.
Qed.

Lemma rand_Read_ok (size : nat) (rnd : option (list Z)) (k : list Z) (n : nat) (err : bool) :
  rand_Read size rnd = (k, n, err) -> negb (n =? size)%nat || err = false ->
  exists bs, rnd = Some bs /\ (size <= length bs)%nat /\ k = take size bs.
Proof.
  unfold rand_Read. destruct rnd as [bs|]; intros [= <- <- <-] H.
  - apply orb_false_iff in H as [H _]. apply negb_false_iff, Nat.eqb_eq in H.
    exists bs. split; [done|]. split; [lia|]. rewrite take_app_le by lia. done.
  - by rewrite orb_true_r in H.
Qed.

(** X7. A key that [createKey] answers with is accepted from then on:
    it is the 32 bytes the random source delivered, its folder exists,
    [checkKeyToFolderName] finds it, and [createToken] issues a token
    for it. No file is touched, and no folder is removed. *)
Theorem createKey_accepted `{E : Externals} (ctx : Context) (fs fs' : FS)
    (rnd : option (list Z)) (now : Z) (m m' : gmap string (list Z)) (key : list Z) :
  createKey ctx fs rnd now m = (m', fs', KeyJSON StatusCreated key) ->
  length key = keySize /\
  (exists bs, rnd = Some bs /\ key = take keySize bs) /\
  files fs' = files fs /\ dirs fs ⊆ dirs fs' /\
  checkKeyToFolderName ctx fs' (Some key) = (folderNameFromKey ctx key, key, true, None) /\
  forall pad now' nowSweep tm,
    (keySize <= length pad)%nat ->
    createToken ctx fs' (Some key) (Some pad) now' nowSweep tm
    = (issued ctx key (take keySize pad) now' nowSweep tm,
       Return (TokenJSON StatusCreated (zip_with Z.lxor key (take keySize pad)))).
Proof.
  unfold createKey.
  destruct (checkObjectCreationThrottler "KEY" now m) as [[m1 ok] resp].
  destruct ok; cbn [negb]; cbv iota; [|done].
  destruct (rand_Read keySize rnd) as [[k n] err] eqn:Hrnd.
  destruct (negb (n =? keySize)%nat || err) eqn:Hn; [done|].
  destruct (rand_Read_ok _ _ _ _ _ Hrnd Hn) as (bs & -> & Hbs & ->).
  destruct (os_MkdirAll fs _) as [fs1|] eqn:Hmk; [|done].
  intros [= <- <- <-].
  assert (Hlen : length (take keySize bs) = keySize) by (rewrite length_take; lia).
  destruct (folderNameFromKey_cons ctx (take keySize bs)) as (n0 & rest & Hf).
  rewrite Hf in Hmk. apply os_MkdirAll_dir in Hmk as (Hfiles & Hdirs & Hin).
  rewrite <- Hf in Hin.
  assert (Hex : notExist fs1 (folderNameFromKey ctx (take keySize bs)) = false)
    by by apply notExist_dir.
  split; [done|]. split; [eauto|]. split; [done|]. split; [done|]. split.
  - unfold checkKeyToFolderName. rewrite Hlen. cbn [keySize Nat.eqb]. by rewrite Hex.
  - intros pad now' nowSweep tm Hpad. by apply createToken_issues.
Qed.

Lemma createKey_accepted_witness :
  checkKeyToFolderName Example.ctx
    (snd (fst (createKey (H := Stub.externals) Example.ctx Fresh.fs (Some Fresh.bytes) 1000 ∅)))
    (Some Fresh.bytes)
  = (folderNameFromKey Example.ctx Fresh.bytes, Fresh.bytes, true, None).
Proof.
  destruct (createKey (H := Stub.externals) Example.ctx Fresh.fs (Some Fresh.bytes) 1000 ∅)
    as [[m' fs'] answer] eqn:Hc.
  assert (Ha : answer = KeyJSON StatusCreated Fresh.bytes).
  { apply (f_equal snd) in Hc. simpl in Hc. rewrite <- Hc. vm_compute. reflexivity. }
  subst answer.
  exact (proj1 (proj2 (proj2 (proj2 (proj2
           (createKey_accepted (E := Stub.externals) _ _ _ _ _ _ _ _ Hc)))))).
Defined.

Lemma os_RemoveAll_spec (fs : FS) (p : path) (denied : gset path) (q : path) :
  (q ∈ dirs (fst (os_RemoveAll fs p denied)) <-> q ∈ dirs fs /\ stays fs p denied q) /\
  files (fst (os_RemoveAll fs p denied)) !! q
  = (if decide (stays fs p denied q) then files fs !! q else None).
Proof.
  unfold os_RemoveAll. simpl. split.
  - rewrite elem_of_filter. tauto.
  - destruct (decide (stays fs p denied q)) as [Hp|Hp].
    + destruct (files fs !! q) as [x|] eqn:Hq.
      * apply map_lookup_filter_Some. done.
      * apply map_lookup_filter_None. by left.
    + apply map_lookup_filter_None. right. intros x _. simpl. tauto.
Qed.

Lemma held_back_top (fs : FS) (p : path) (denied : gset path) (q : path) :
  held_back fs p denied q -> held_back fs p denied p.
Proof.
  intros (d & Hd & Hex & Hp & Hq). exists d. done.
Qed.

Lemma checkKey_nonempty (ctx : Context) (fs : FS) (key : list Z) :
  key <> [] ->
  checkKeyToFolderName ctx fs (Some key)
  = if notExist fs (folderNameFromKey ctx key)
    then (folderNameFromKey ctx key, key, false,
          Some (ErrorJSON StatusNotFound "key not found"))
    else (folderNameFromKey ctx key, key, true, None).
Proof. intros H. unfold checkKeyToFolderName. by destruct key. Qed.

(** X8. When [deleteKey] answers 200, the key was known, and the folder
    of the key and all that is below it are removed, and nothing else.
    The key is unknown from then on. The token maps are not touched: a
    token of the key that is still live keeps its record, and is
    answered with 404 because the folder is gone. [deleteKey] answers
    200 for a known key unless [os.RemoveAll] is refused something at
    or below the folder; then it answers 404, and the folder is still
    there. *)
Theorem deleteKey_removes `{E : Externals} (ctx : Context) (fs : FS) (key : list Z)
    (denied : gset path) :
  key <> [] ->
  let folderName := folderNameFromKey ctx key in
  let after := deleteKey ctx fs (Some key) denied in
  (notExist fs folderName = false ->
   snd after = (if bool_decide (held_back fs folderName denied folderName)
                then ErrorJSON StatusNotFound "key not found"
                else MessageJSON StatusOK "key deleted") /\
   (held_back fs folderName denied folderName ->
    notExist (fst after) folderName = false)) /\
  (snd after = MessageJSON StatusOK "key deleted" ->
   notExist fs folderName = false /\
   (forall p, p ∈ dirs (fst after) <-> p ∈ dirs fs /\ ~ folderName `prefix_of` p) /\
   (forall p, files (fst after) !! p
              = if decide (folderName `prefix_of` p) then None else files fs !! p) /\
   (forall denied',
       deleteKey ctx (fst after) (Some key) denied'
       = (fst after, ErrorJSON StatusNotFound "key not found")) /\
   forall token r nowSweep nowAccess tm,
     mapTokenHashToTimeoutStruct (housekeepingTokenMaps nowSweep tm) !! hashSHA256 token
     = Some r ->
     xor token (xorRand r) = Return key ->
     checkTokenToFolderName ctx (fst after) (Some token) nowSweep nowAccess tm
     = (housekeepingTokenMaps nowSweep tm, Return (tokenNotFound folderName key))).
Proof.
  intros Hkey folderName after.
  assert (Ha : notExist fs folderName = false ->
               after = (fst (os_RemoveAll fs folderName denied),
                        if bool_decide (held_back fs folderName denied folderName)
                        then ErrorJSON StatusNotFound "key not found"
                        else MessageJSON StatusOK "key deleted")).
  { intros Hex. unfold after, deleteKey. rewrite checkKey_nonempty by done.
    fold folderName. rewrite Hex. cbn [negb]. cbv iota.
    unfold os_RemoveAll. by destruct (bool_decide _). }
  split.
  - intros Hex. rewrite (Ha Hex). cbn [fst snd]. split; [done|].
    intros Hheld. unfold notExist in *.
    destruct (os_RemoveAll_spec fs folderName denied folderName) as [Hd Hf].
    rewrite Hf. rewrite decide_True by (by right).
    destruct (bool_decide (folderName ∈ dirs fs)) eqn:Hdir.
    + apply bool_decide_eq_true in Hdir.
      rewrite bool_decide_eq_true_2; [done|]. apply Hd. split; [done|by right].
    + simpl in Hex. by rewrite Hex, andb_false_r.
  - intros Hok.
    assert (Hex : notExist fs folderName = false).
    { destruct (notExist fs folderName) eqn:Hex; [|done].
      unfold after, deleteKey in Hok. rewrite checkKey_nonempty in Hok by done.
      fold folderName in Hok. rewrite Hex in Hok. simpl in Hok. discriminate Hok. }
    rewrite (Ha Hex) in Hok |- *. cbn [fst snd] in *.
    destruct (bool_decide (held_back fs folderName denied folderName)) eqn:Hheld;
      [discriminate Hok|].
    apply bool_decide_eq_false in Hheld.
    assert (Hstays : forall q, stays fs folderName denied q <-> ~ folderName `prefix_of` q).
    { intros q. unfold stays. split; [|by left].
      intros [H|H]; [done|]. by apply held_back_top in H. }
    assert (Hgone : notExist (fst (os_RemoveAll fs folderName denied)) folderName = true).
    { unfold notExist.
      destruct (os_RemoveAll_spec fs folderName denied folderName) as [Hd Hf].
      rewrite Hf. rewrite decide_False by (rewrite Hstays; by intros H; apply H).
      rewrite bool_decide_eq_false_2;
        [|intros H; apply Hd in H as [_ H]; apply Hstays in H; by apply H].
      rewrite bool_decide_eq_false_2; [done|]. by intros [x Hx]. }
    split; [done|]. split.
    { intros p. destruct (os_RemoveAll_spec fs folderName denied p) as [Hd _].
      rewrite Hd. by rewrite Hstays. }
    split.
    { intros p. destruct (os_RemoveAll_spec fs folderName denied p) as [_ Hf].
      rewrite Hf. destruct (decide (folderName `prefix_of` p)) as [Hp|Hp].
      - rewrite decide_False; [done|]. rewrite Hstays. by intros H; apply H.
      - rewrite decide_True; [done|]. by apply Hstays. }
    split.
    { intros denied'. unfold deleteKey. rewrite checkKey_nonempty by done.
      fold folderName. by rewrite Hgone. }
    intros token r nowSweep nowAccess tm Hr Hx.
    unfold checkTokenToFolderName.
    destruct token as [|b token].
    { unfold xor in Hx. destruct (xorRand r); simpl in Hx; [|done].
      injection Hx as <-. done. }
    simpl length. simpl Nat.eqb. cbv iota.
    rewrite Hr, Hx. fold folderName. by rewrite Hgone.
Qed.

Lemma deleteKey_removes_witness :
  notExist (fst (deleteKey Example.ctx Example.fs (Some Example.key) ∅))
           (folderNameFromKey Example.ctx Example.key)
  = true.
Proof.
  destruct (deleteKey_removes (E := Stub.externals) Example.ctx Example.fs Example.key ∅)
    as [_ H].
  - discriminate.
  - destruct H as (_ & Hd & Hf & _).
    + vm_compute. reflexivity.
    + unfold notExist. rewrite Hf.
      rewrite decide_True by done.
      rewrite bool_decide_eq_false_2; [|intros H; apply Hd in H as [_ H]; by apply H].
      rewrite bool_decide_eq_false_2; [done|]. by intros [x Hx].
Defined.

(** * New models *)

Lemma os_Mkdir_Some (fs fs1 : FS) (p : path) :
  os_Mkdir fs p = Some fs1 ->
  notExist fs p = true /\ fs1 = set_dirs fs ({[p]} ∪ dirs fs).
Proof.
  unfold os_Mkdir. destruct (notExist fs p); simpl; [|done].
  destruct (bool_decide (path_dir p ∈ dirs fs)); simpl; [|done].
  by intros [= <-].
Qed.

(** X9. A model that [createNewModel] answers with can be read, when
    both calls of [f.Write] in its write wrote all their bytes: the
    folder of the new id did not exist before and exists now, and
    [readModel] with the same key returns the text of the empty model,
    provided the YAML decoder accepts it. *)
Theorem createNewModel_then_read `{E : Externals} (ctx : Context) (fs fs' : FS)
    (folderNameOfKey : path) (key : list Z) (aUuid : string) (aYaml : list Z)
    (rnd : option (list Z)) (stamp : string) (now : Z) (m m' : gmap string (list Z)) :
  GzipLaw -> GcmOpenSeal ->
  uuid_Parse aUuid = Some aUuid ->
  createNewModel ctx fs folderNameOfKey key aUuid aYaml rnd stamp (None, None) now m
  = Return (m', fs', ModelJSON StatusCreated "model created" aUuid) ->
  notExist fs (folderNameForModel folderNameOfKey aUuid) = true /\
  notExist fs' (folderNameForModel folderNameOfKey aUuid) = false /\
  fst (fst (checkObjectCreationThrottler "MODEL" now m)) = m' /\
  readModel ctx fs' aUuid key folderNameOfKey
  = match yaml_Unmarshal aYaml with
    | None => Return unableToOpen
    | Some modelInput =>
        Return {| modelInputResult := Some modelInput; yamlText := aYaml; ok := true;
                  readResponse := None |}
    end.
Proof.
  intros Hgz Hgcm Hid. unfold createNewModel.
  destruct (checkObjectCreationThrottler "MODEL" now m) as [[m1 allowed] resp].
  destruct allowed; cbn [negb]; cbv iota; [|done].
  destruct (os_Mkdir fs _) as [fs1|] eqn:Hmk; [|done].
  apply os_Mkdir_Some in Hmk as [Hfresh ->].
  destruct (writeModelYAML ctx _ aYaml key _ _ true rnd stamp (None, None))
    as [[[fs2 written] resp2]|msg] eqn:Hw; [|done].
  destruct written; [|done]. intros [= <- <-].
  split; [done|]. split.
  - apply writeModelYAML_persists in Hw as (_ & _ & _ & _ & _ & _ & Hin & _).
    by apply notExist_dir.
  - split; [done|]. eapply read_after_write; eauto.
Qed.

Lemma createNewModel_then_read_witness :
  match createNewModel (H := Stub.externals) Example.ctx Example.fs Example.folder
          Example.key NewModel.uuid NewModel.yaml (Some (repeat 5 12))
          "2024-01-01 09:00:00" (None, None) 1000 ∅ with
  | Return (_, fs', ModelJSON _ _ id) =>
      id = NewModel.uuid /\
      readModel (H := Stub.externals) Example.ctx fs' id Example.key Example.folder
      = Return (@Build_modelRead Stub.externals (Some NewModel.yaml) NewModel.yaml true None)
  | _ => False
  end.
Proof.
  destruct (createNewModel (H := Stub.externals) Example.ctx Example.fs Example.folder
              Example.key NewModel.uuid NewModel.yaml (Some (repeat 5 12))
              "2024-01-01 09:00:00" (None, None) 1000 ∅) as [[[m' fs'] answer]|msg] eqn:Hc.
  - assert (Ha : answer = ModelJSON StatusCreated "model created" NewModel.uuid).
    { apply (f_equal (fun r => match r with Return (_, _, a) => a | _ => answer end)) in Hc.
      rewrite <- Hc. vm_compute. reflexivity. }
    subst answer. split; [done|].
    destruct (createNewModel_then_read (E := Stub.externals) Example.ctx Example.fs fs'
                Example.folder Example.key NewModel.uuid NewModel.yaml (Some (repeat 5 12))
                "2024-01-01 09:00:00" 1000 ∅ m'
                stub_gzip_law stub_open_seal eq_refl Hc) as (_ & _ & _ & ->).
    reflexivity.
  - apply (f_equal (fun r => match r with Return _ => true | _ => false end)) in Hc.
    vm_compute in Hc. discriminate.
Defined.

(** X10. When the write inside [createNewModel] fails at the random
    source, the folder made just before stays behind: the answer is
    500, the folder of the new id exists and holds no document, the
    place in the throttle window is used up, and [readModel] of the id
    answers 500. *)
Theorem createNewModel_leaves_folder `{E : Externals} (ctx : Context) (fs : FS)
    (folderNameOfKey : path) (key : list Z) (aUuid : string) (aYaml : list Z)
    (stamp : string) (writes : option nat * option nat) (now : Z)
    (m : gmap string (list Z)) :
  Argon2Length -> (16 <= length key)%nat ->
  uuid_Parse aUuid = Some aUuid ->
  snd (fst (checkObjectCreationThrottler "MODEL" now m)) = true ->
  notExist fs (folderNameForModel folderNameOfKey aUuid) = true ->
  folderNameOfKey ∈ dirs fs ->
  files fs !! documentOf ctx (folderNameForModel folderNameOfKey aUuid) = None ->
  let modelFolder := folderNameForModel folderNameOfKey aUuid in
  let fs1 := set_dirs fs ({[modelFolder]} ∪ dirs fs) in
  createNewModel ctx fs folderNameOfKey key aUuid aYaml None stamp writes now m
  = Return (fst (fst (checkObjectCreationThrottler "MODEL" now m)), fs1,
            NotCreated unableToWrite) /\
  notExist fs1 modelFolder = false /\
  os_ReadFile fs1 (documentOf ctx modelFolder) = None /\
  readModel ctx fs1 aUuid key folderNameOfKey = Return unableToOpen.
Proof.
  intros Hlen Hkey Hid Hallowed Hfresh Hparent Hdoc modelFolder fs1.
  destruct (keygen_ok key Hlen Hkey) as (cryptoKey & Hgen & Hcipher).
  assert (Hmk : os_Mkdir fs modelFolder = Some fs1).
  { unfold os_Mkdir. fold modelFolder in Hfresh. rewrite Hfresh. simpl.
    unfold modelFolder, folderNameForModel, filepath_Join, path_dir.
    rewrite removelast_last. rewrite bool_decide_eq_true_2 by done. done. }
  assert (Hin : notExist fs1 modelFolder = false).
  { apply notExist_dir. unfold fs1. simpl. set_solver. }
  assert (Hnone : os_ReadFile fs1 (documentOf ctx modelFolder) = None).
  { unfold os_ReadFile, fs1. simpl. fold modelFolder in Hdoc. by rewrite Hdoc. }
  split; [|split; [done|split; [done|]]].
  - unfold createNewModel.
    destruct (checkObjectCreationThrottler "MODEL" now m) as [[m1 allowed] resp].
    simpl in Hallowed. subst allowed. cbn [negb fst]. cbv iota.
    fold modelFolder. rewrite Hmk.
    unfold writeModelYAML. rewrite Hgen. simpl. by rewrite Hcipher.
  - unfold readModel, checkModelFolder. rewrite Hid. fold modelFolder.
    rewrite Hin. cbn [negb]. cbv iota. rewrite Hgen. simpl. rewrite Hcipher.
    fold (documentOf ctx modelFolder). by rewrite Hnone.
Qed.

Lemma createNewModel_leaves_folder_witness :
  readModel (H := Stub.externals) Example.ctx
    (set_dirs Example.fs ({[folderNameForModel Example.folder NewModel.uuid]}
                            ∪ dirs Example.fs))
    NewModel.uuid Example.key Example.folder
  = Return (@unableToOpen Stub.externals).
Proof.
  refine (proj2 (proj2 (proj2
    (createNewModel_leaves_folder (E := Stub.externals) Example.ctx Example.fs
       Example.folder Example.key NewModel.uuid NewModel.yaml "2024-01-01 09:00:00"
       (None, None) 1000 ∅ stub_argon2_length _ _ _ _ _ _)))).
  - vm_compute. lia.
  - reflexivity.
  - vm_compute. reflexivity.
  - vm_compute. reflexivity.
  - vm_compute. reflexivity.
  - vm_compute. reflexivity.
Defined.

(** * Further properties of the vault *)

Section Vault.
Context `{E : Externals}.

Lemma write_at_nil (b : list Z) : write_at [] 0 b = b.
Proof. change 0%nat with (length (@nil Z)). by rewrite write_at_end. Qed.

Lemma os_WriteFile_lookup (fs fs2 : FS) (p : path) (b : list Z) (perm : Z) :
  os_WriteFile fs p b perm = Some fs2 ->
  (exists md, files fs2 !! p = Some {| mode := md; data := b |} /\
              md = match files fs !! p with Some f => mode f | None => perm end) /\
  (forall q, q <> p -> files fs2 !! q = files fs !! q).
Proof.
  unfold os_WriteFile, open_trunc.
  destruct (bool_decide (p ∈ dirs fs)); [done|].
  destruct (negb (bool_decide (path_dir p ∈ dirs fs))); [done|].
  destruct (files fs !! p) as [f|] eqn:Hp.
  - destruct (writable f); [|done]. simpl. intros [= <-].
    unfold file_Write. simpl. rewrite lookup_insert_eq. simpl.
    split.
    + exists (mode f). rewrite lookup_insert_eq, write_at_nil. done.
    + intros q Hq. by rewrite !lookup_insert_ne.
  - simpl. intros [= <-].
    unfold file_Write. simpl. rewrite lookup_insert_eq. simpl.
    split.
    + exists perm. rewrite lookup_insert_eq, write_at_nil. done.
    + intros q Hq. by rewrite !lookup_insert_ne.
Qed.

Lemma os_Remove_lookup (fs fs' : FS) (p q : path) :
  os_Remove fs p = Some fs' -> q <> p -> files fs' !! q = files fs !! q.
Proof.
  unfold os_Remove. destruct (bool_decide (is_Some (files fs !! p))).
  - intros [= <-] Hq. simpl. by rewrite lookup_delete_ne.
  - destruct (_ && _); [|done]. by intros [= <-].
Qed.

Lemma delete_oldest_lookup (hf : path) (files0 : list string) (q : path) :
  (forall n, q <> filepath_Join hf n) ->
  forall (k : Z) (fs fs' : FS) (err : option string),
    delete_oldest hf files0 k fs = (fs', err) -> files fs' !! q = files fs !! q.
Proof.
  intros Hq. induction files0 as [|file0 rest IH]; intros k fs fs' err Hd.
  - simpl in Hd. by injection Hd as <- _.
  - cbn [delete_oldest] in Hd.
    destruct (negb (String.eqb file0 (filepath_Clean file0))); [by injection Hd as <- _|].
    destruct (os_Remove fs (filepath_Join hf file0)) as [fs1|] eqn:Hr;
      [|by injection Hd as <- _].
    apply (os_Remove_lookup _ _ _ q) in Hr; [|done].
    destruct (wrap64 (k - 1) <=? 0).
    + injection Hd as <- _. done.
    + apply IH in Hd. by rewrite Hd.
Qed.

Lemma document_not_in_history (ctx : Context) (modelFolder : path) (n : string) :
  documentOf ctx modelFolder <> filepath_Join (historyOf modelFolder) n.
Proof.
  unfold documentOf, historyOf, filepath_Join. rewrite <- app_assoc. simpl.
  intros H. apply app_inv_head in H. discriminate H.
Qed.

(** The backup never touches the document. *)
Lemma backupModelToHistory_document (ctx : Context) (fs fs' : FS) (modelFolder : path)
    (reason stamp : string) (err : option string) :
  backupModelToHistory ctx fs modelFolder reason stamp = (fs', err) ->
  files fs' !! documentOf ctx modelFolder = files fs !! documentOf ctx modelFolder.
Proof.
  unfold backupModelToHistory. fold (historyOf modelFolder).
  set (hf := historyOf modelFolder).
  assert (H1 : forall fs1,
             (if notExist fs hf then os_Mkdir fs hf else Some fs) = Some fs1 ->
             files fs1 = files fs).
  { intros fs1. destruct (notExist fs hf).
    - intros Hm. apply os_Mkdir_entries in Hm as (_ & _ & Hf & _). done.
    - by intros [= <-]. }
  destruct (if notExist fs hf then os_Mkdir fs hf else Some fs) as [fs1|];
    [|by intros [= <- _]].
  rewrite <- (H1 fs1 eq_refl).
  destruct (os_ReadFile fs1 _) as [inputModel|]; [|by intros [= <- _]].
  destruct (os_WriteFile fs1 _ inputModel 256) as [fs2|] eqn:Hw; [|by intros [= <- _]].
  apply os_WriteFile_lookup in Hw as [_ Hw].
  rewrite <- (Hw (documentOf ctx modelFolder)) by apply document_not_in_history.
  destruct (os_ReadDir fs2 hf) as [files0|]; [|by intros [= <- _]].
  destruct (_ >? _); [|by intros [= <- _]].
  apply delete_oldest_lookup. intros n. apply document_not_in_history.
Qed.

(** X11. A write that does not report success has left the document as
    it was, whatever else it did in the history folder; its answer is
    500. *)
Theorem write_failure_leaves_document (ctx : Context) (fs fs' : FS) (yaml key : list Z)
    (modelFolder : path) (reason : string) (skipBackup : bool) (rnd : option (list Z))
    (stamp : string) (writes : option nat * option nat) (resp : option response) :
  writeModelYAML ctx fs yaml key modelFolder reason skipBackup rnd stamp writes
  = Return (fs', false, resp) ->
  resp = Some (ErrorJSON StatusInternalServerError "unable to write model") /\
  files fs' !! documentOf ctx modelFolder = files fs !! documentOf ctx modelFolder.
Proof.
  unfold writeModelYAML.
  destruct (generateKeyFromAlreadyStrongRandomInput key) as [ck|]; [|done]. simpl.
  destruct (aes_NewCipher ck) as [block|]; [|by intros [= <- <-]].
  destruct (io_ReadFull 12 rnd) as [nonce|]; [|by intros [= <- <-]].
  destruct (if negb skipBackup
            then backupModelToHistory ctx fs modelFolder reason stamp
            else (fs, None)) as [fs1 err] eqn:Hb.
  assert (H1 : files fs1 !! documentOf ctx modelFolder
               = files fs !! documentOf ctx modelFolder).
  { destruct skipBackup; simpl in Hb.
    - by injection Hb as <- _.
    - by apply backupModelToHistory_document in Hb. }
  destruct err as [e|]; [by intros [= <- <-]|].
  destruct (os_Create fs1 _) as [[fs2 f]|]; [|by intros [= <- <-]].
  destruct (file_Write fs2 f nonce _) as [fs3 f1].
  destruct (file_Write fs3 f1 _ _) as [fs4 f2]. done.
Qed.

(** X12. A server that is not privileged cannot write two backups of
    one name: when the history folder already holds a file with the
    name of the backup (the clock in seconds, then the reason) and
    without the owner's write bit, which is how backups are created,
    the write is refused with 500 and the file system is left as it
    was. *)
Theorem backup_name_taken_refuses (ctx : Context) (fs : FS) (yaml key : list Z)
    (modelFolder : path) (reason : string) (rnd : option (list Z)) (stamp : string)
    (writes : option nat * option nat) (f : file) :
  os_privileged = false ->
  (16 <= length key)%nat ->
  historyOf modelFolder ∈ dirs fs ->
  files fs !! filepath_Join (historyOf modelFolder) (backupName stamp reason) = Some f ->
  Z.testbit (mode f) 7 = false ->
  writeModelYAML ctx fs yaml key modelFolder reason false rnd stamp writes
  = Return (fs, false, Some (ErrorJSON StatusInternalServerError "unable to write model")).
Proof.
  intros Hpriv Hkey Hdir Hfile Hmode. unfold writeModelYAML.
  unfold generateKeyFromAlreadyStrongRandomInput. simpl saltLength.
  destruct (length key <? 16)%nat eqn:Hk; [apply Nat.ltb_lt in Hk; lia|]. simpl.
  destruct (aes_NewCipher _) as [block|]; [|done].
  destruct (io_ReadFull 12 rnd) as [nonce|]; [|done].
  assert (Hb : exists e, backupModelToHistory ctx fs modelFolder reason stamp = (fs, Some e)).
  { unfold backupModelToHistory. fold (historyOf modelFolder).
    rewrite notExist_dir by done.
    destruct (os_ReadFile fs _) as [inputModel|]; [|eauto].
    fold (backupName stamp reason).
    assert (Hw : os_WriteFile fs (filepath_Join (historyOf modelFolder)
                                    (backupName stamp reason)) inputModel 256 = None).
    { unfold os_WriteFile, open_trunc.
      destruct (bool_decide (_ ∈ dirs fs)); [done|].
      destruct (negb (bool_decide (_ ∈ dirs fs))); [done|].
      rewrite Hfile. unfold writable. by rewrite Hpriv, Hmode. }
    rewrite Hw. eauto. }
  destruct Hb as [e ->]. done.
Qed.

Lemma delete_oldest_keeps (hf : path) (n : string) (files0 : list string) :
  forall (k : Z) (fs fs' : FS),
    1 <= k < 2 ^ 63 ->
    n ∉ take (Z.to_nat k) files0 ->
    delete_oldest hf files0 k fs = (fs', None) ->
    files fs' !! filepath_Join hf n = files fs !! filepath_Join hf n.
Proof.
  induction files0 as [|file0 rest IH]; intros k fs fs' Hk Hn Hd.
  - simpl in Hd. by injection Hd as <-.
  - cbn [delete_oldest] in Hd.
    rewrite wrap64_id in Hd by (unfold int64_range; lia).
    destruct (negb (String.eqb file0 (filepath_Clean file0))); [done|].
    destruct (os_Remove fs (filepath_Join hf file0)) as [fs1|] eqn:Hr; [|done].
    replace (Z.to_nat k) with (S (Z.to_nat (k - 1))) in Hn by lia.
    cbn [take] in Hn. apply not_elem_of_cons in Hn as [Hne Hn].
    apply (os_Remove_lookup _ _ _ (filepath_Join hf n)) in Hr;
      [|intros H; by apply app_singleton_inj in H].
    destruct (k - 1 <=? 0) eqn:Hle.
    + by injection Hd as <-.
    + apply Z.leb_gt in Hle. apply IH in Hd; [|lia|done]. by rewrite Hd.
Qed.

(** A backup that returns no error has copied the document as it was,
    and the copy is there unless its name is among those removed. *)
Lemma backupModelToHistory_copy (ctx : Context) (fs fs' : FS) (modelFolder : path)
    (reason stamp : string) :
  0 <= backupHistoryFilesToKeep ctx ->
  let L := listing (entries fs (historyOf modelFolder) ∪ {[backupName stamp reason]}) in
  Z.of_nat (length L) < 2 ^ 63 ->
  backupModelToHistory ctx fs modelFolder reason stamp = (fs', None) ->
  backupName stamp reason ∈ drop (excess (backupHistoryFilesToKeep ctx) L) L ->
  exists old,
    os_ReadFile fs (documentOf ctx modelFolder) = Some old /\
    os_ReadFile fs' (filepath_Join (historyOf modelFolder) (backupName stamp reason))
    = Some old.
Proof.
  intros Hkeep L HL. unfold backupModelToHistory.
  fold (historyOf modelFolder). set (hf := historyOf modelFolder) in *.
  fold (backupName stamp reason). set (name := backupName stamp reason) in *.
  assert (H1 : forall fs1,
             (if notExist fs hf then os_Mkdir fs hf else Some fs) = Some fs1 ->
             entries fs1 hf = entries fs hf /\ files fs1 = files fs).
  { intros fs1. destruct (notExist fs hf).
    - intros Hm. apply os_Mkdir_entries in Hm as (_ & He & Hf & _). auto.
    - by intros [= <-]. }
  destruct (if notExist fs hf then os_Mkdir fs hf else Some fs) as [fs1|]; [|done].
  destruct (H1 fs1 eq_refl) as [He1 Hf1].
  fold (documentOf ctx modelFolder).
  destruct (os_ReadFile fs1 (documentOf ctx modelFolder)) as [inputModel|] eqn:Hread;
    [|done].
  assert (Hold : os_ReadFile fs (documentOf ctx modelFolder) = Some inputModel).
  { unfold os_ReadFile in *. by rewrite <- Hf1. }
  destruct (os_WriteFile fs1 (filepath_Join hf name) inputModel 256) as [fs2|] eqn:Hw;
    [|done].
  pose proof (os_WriteFile_entries _ _ _ _ _ _ Hw) as (Hd2 & He2 & _).
  apply os_WriteFile_lookup in Hw as [(md & Hcopy & _) _].
  destruct (os_ReadDir fs2 hf) as [files0|] eqn:Hrd; [|done].
  apply os_ReadDir_Some in Hrd as [Hhf ->].
  rewrite He2, He1. fold L. unfold excess.
  destruct (Z.of_nat (length L) >? backupHistoryFilesToKeep ctx) eqn:Hgt.
  - apply Z.gtb_lt in Hgt.
    rewrite wrap64_id by (unfold int64_range; lia).
    rewrite sort_Slice_sorted by apply listing_sorted.
    intros Hdel Hin. exists inputModel. split; [done|].
    apply delete_oldest_keeps with (n := name) in Hdel; [| lia |].
    + unfold os_ReadFile. by rewrite Hdel, Hcopy.
    + intros Htake.
      destruct (listing_take_before_drop _ _ _ _ Htake Hin) as [_ Hne]. done.
  - intros [= <-] _. exists inputModel. split; [done|].
    unfold os_ReadFile. by rewrite Hcopy.
Qed.

(** X13. A write with the backup enabled that reports success has
    archived the version it replaced: the document existed, and the
    backup named after the clock and the reason holds its bytes as they
    were before the write, unless that name is among the oldest ones
    that were removed. *)
Theorem backup_holds_previous_version (ctx : Context) (fs fs' : FS) (yaml key : list Z)
    (modelFolder : path) (reason : string) (rnd : option (list Z)) (stamp : string)
    (writes : option nat * option nat) (resp : option response) :
  0 <= backupHistoryFilesToKeep ctx ->
  let L := listing (entries fs (historyOf modelFolder) ∪ {[backupName stamp reason]}) in
  Z.of_nat (length L) < 2 ^ 63 ->
  writeModelYAML ctx fs yaml key modelFolder reason false rnd stamp writes
  = Return (fs', true, resp) ->
  backupName stamp reason ∈ drop (excess (backupHistoryFilesToKeep ctx) L) L ->
  exists old,
    os_ReadFile fs (documentOf ctx modelFolder) = Some old /\
    os_ReadFile fs' (filepath_Join (historyOf modelFolder) (backupName stamp reason))
    = Some old.
Proof.
  intros Hkeep L HL Hw Hin. unfold writeModelYAML in Hw.
  destruct (generateKeyFromAlreadyStrongRandomInput key) as [ck|]; [|done].
  simpl in Hw.
  destruct (aes_NewCipher ck) as [block|]; [|by injection Hw].
  destruct (io_ReadFull 12 rnd) as [nonce|]; [|by injection Hw].
  destruct (backupModelToHistory ctx fs modelFolder reason stamp) as [fs1 err] eqn:Hb.
  destruct err as [e|]; [by injection Hw|].
  destruct (backupModelToHistory_copy ctx fs fs1 modelFolder reason stamp Hkeep HL Hb Hin)
    as (old & Hold & Hcopy).
  exists old. split; [done|].
  destruct (os_Create fs1 _) as [[fs2 f]|] eqn:Hc; [|by injection Hw].
  pose proof (create_write_write fs1 fs2 f _ nonce
                (gcm_Seal block nonce (gzip_compress yaml)) (fst writes) (snd writes) Hc)
    as Hk.
  destruct (file_Write fs2 f nonce (fst writes)) as [fs3 f1].
  destruct (file_Write fs3 f1 _ (snd writes)) as [fs4 f2].
  injection Hw as <- _. destruct Hk as (_ & _ & _ & Hfiles).
  unfold os_ReadFile in *. rewrite Hfiles; [done|].
  intros H. symmetry in H. by apply document_not_in_history in H.
Qed.

End Vault.

Lemma backup_name_taken_refuses_witness :
  writeModelYAML (H := Stub.externals) Archive.ctx Written.after
    (bytes_of_string "title: C") Example.key Example.modelFolder "Edit" false
    (Some (repeat 7 12)) "2024-01-03 09:00:00" (None, None)
  = Return (Written.after, false,
            Some (ErrorJSON StatusInternalServerError "unable to write model")).
Proof.
  apply (backup_name_taken_refuses (E := Stub.externals) Archive.ctx Written.after
           (bytes_of_string "title: C") Example.key Example.modelFolder "Edit"
           (Some (repeat 7 12)) "2024-01-03 09:00:00" (None, None)
           {| mode := 256; data := [1; 2; 3] |}).
  - reflexivity.
  - vm_compute. lia.
  - vm_compute. reflexivity.
  - vm_compute. reflexivity.
  - reflexivity.
Defined.

Lemma write_failure_leaves_document_witness :
  match writeModelYAML (H := Stub.externals) Archive.ctx Archive.fs
          (bytes_of_string "title: C") Example.key Example.modelFolder "Edit" false
          None "2024-01-03 09:00:00" (None, None) with
  | Return (fs', _, _) =>
      os_ReadFile fs' (documentOf Archive.ctx Example.modelFolder) = Some [1; 2; 3]
  | Panicked _ => False
  end.
Proof.
  destruct (writeModelYAML (H := Stub.externals) Archive.ctx Archive.fs
              (bytes_of_string "title: C") Example.key Example.modelFolder "Edit" false
              None "2024-01-03 09:00:00" (None, None)) as [[[fs' written] resp]|msg] eqn:Hw.
  - assert (Hf : written = false).
    { apply (f_equal (fun r => match r with Return (_, b, _) => b | _ => written end)) in Hw.
      rewrite <- Hw. vm_compute. reflexivity. }
    subst written. unfold os_ReadFile.
    rewrite (proj2 (write_failure_leaves_document (E := Stub.externals)
                      _ _ _ _ _ _ _ _ _ _ _ _ Hw)).
    vm_compute. reflexivity.
  - apply (f_equal (fun r => match r with Return _ => true | _ => false end)) in Hw.
    vm_compute in Hw. discriminate.
Defined.

Lemma backup_holds_previous_version_witness :
  os_ReadFile Written.after
    (filepath_Join Archive.history "2024-01-03 09:00:00 Edit.backup")
  = Some [1; 2; 3].
Proof.
  assert (Hw : Written.outcome = Return (Written.after, true, None)).
  { vm_cast_no_check (eq_refl (Return (Written.after, true, @None response))). }
  destruct (backup_holds_previous_version (E := Stub.externals) Archive.ctx Archive.fs
              Written.after (bytes_of_string "title: B") Example.key Example.modelFolder
              "Edit" (Some (repeat 9 12)) "2024-01-03 09:00:00" (None, None) None)
    as (old & Hold & Hcopy).
  - vm_compute. discriminate.
  - vm_compute. reflexivity.
  - exact Hw.
  - vm_compute. apply list_elem_of_further, list_elem_of_here.
  - assert (Ho : old = [1; 2; 3]).
    { assert (H3 : os_ReadFile Archive.fs (documentOf Archive.ctx Example.modelFolder)
                   = Some [1; 2; 3]) by (vm_compute; reflexivity).
      rewrite H3 in Hold. by injection Hold. }
    subst old. exact Hcopy.
Defined.

(** * Goroutines *)

Section Goroutines.
Context `{E : Externals}.

Lemma alone_lockFolder (ctx : Context) (n : nat) (r : upload) (fs : FS) :
  alone ctx (5 + n) r lockFolder_globalLock (idle fs)
  = alone ctx n r importModel_readModel (held fs (upFolder r)).
Proof.
  cbn [Nat.add alone step idle globalLock locksByFolderName mutexes disk
       set_globalLock set_locks set_mutexes].
  rewrite lookup_empty. cbn [alone step set_globalLock set_locks set_mutexes
       globalLock locksByFolderName mutexes disk length app].
  rewrite lookup_insert_eq. cbn [alone step set_globalLock set_locks set_mutexes
       globalLock locksByFolderName mutexes disk length app lookup list_lookup].
  reflexivity.
Qed.

Lemma alone_unlockFolder (ctx : Context) (n : nat) (r : upload) (fs : FS) (e : ending) :
  alone ctx (3 + n) r (unlockFolder_exists e) (held fs (upFolder r))
  = (finished e, released fs).
Proof.
  cbn [Nat.add alone step held globalLock locksByFolderName mutexes disk
       set_globalLock set_locks set_mutexes].
  rewrite lookup_singleton_eq.
  cbn [alone step held globalLock locksByFolderName mutexes disk
       set_globalLock set_locks set_mutexes].
  rewrite lookup_singleton_eq.
  cbn [alone step held globalLock locksByFolderName mutexes disk
       set_globalLock set_locks set_mutexes lookup list_lookup insert list_insert].
  rewrite delete_singleton_eq.
  destruct n; reflexivity.
Qed.

Lemma held_disk (fs fs' : FS) (F : path) : set_disk (held fs F) fs' = held fs' F.
Proof. reflexivity. Qed.

(** X14. A goroutine that runs [importModel] with no other beside it
    ends within 13 statements, in whatever way [readModel] and
    [writeModelYAML] end in sequence on the disk it found; the global
    lock is free again, [locksByFolderName] is empty again, and the
    mutex it made is unlocked. *)
Theorem importModel_alone (ctx : Context) (r : upload) (fs : FS) (n : nat) :
  alone ctx (13 + n) r lockFolder_globalLock (idle fs)
  = (finished (fst (importModel_locked ctx r fs)),
     released (snd (importModel_locked ctx r fs))).
Proof.
  change (13 + n)%nat with (5 + (8 + n))%nat. rewrite alone_lockFolder.
  unfold importModel_locked.
  cbn [Nat.add alone step held disk].
  fold (held fs (upFolder r)).
  destruct (readModel ctx fs (upUuid r) (upKey r) (upFolder r)) as [got|msg].
  2: { apply (alone_unlockFolder ctx (4 + n)). }
  destruct (ok got).
  2: { apply (alone_unlockFolder ctx (4 + n)). }
  cbn [alone step held disk]. fold (held fs (upFolder r)).
  unfold writeModelYAML.
  destruct (generateKeyFromAlreadyStrongRandomInput (upKey r)) as [ck|msg].
  2: { apply (alone_unlockFolder ctx (3 + n)). }
  cbn [mbind result_bind].
  destruct (aes_NewCipher ck) as [block|].
  2: { apply (alone_unlockFolder ctx (3 + n)). }
  destruct (io_ReadFull 12 (upRnd r)) as [nonce|].
  2: { apply (alone_unlockFolder ctx (3 + n)). }
  cbn [negb].
  destruct (backupModelToHistory ctx fs _ "Model Import" (upStamp r)) as [fs1 err].
  rewrite held_disk.
  destruct err as [e|].
  { apply (alone_unlockFolder ctx (3 + n)). }
  cbn [alone step held disk]. fold (held fs1 (upFolder r)).
  destruct (os_Create fs1 _) as [[fs2 f]|].
  2: { apply (alone_unlockFolder ctx (2 + n)). }
  rewrite held_disk.
  cbn [alone step held disk]. fold (held fs2 (upFolder r)).
  destruct (file_Write fs2 f nonce _) as [fs3 f1]. rewrite held_disk.
  cbn [alone step held disk]. fold (held fs3 (upFolder r)).
  destruct (file_Write fs3 f1 _ _) as [fs4 f2]. rewrite held_disk.
  apply (alone_unlockFolder ctx n).
Qed.

Lemma step_inside (ctx : Context) (r : upload) (p p' : point) (s s' : Server) :
  inside p = true -> step ctx r p s = Some (p', s') ->
  globalLock s' = globalLock s /\ locksByFolderName s' = locksByFolderName s /\
  mutexes s' = mutexes s.
Proof.
  destruct p; try done; intros _; cbn [step].
  - destruct (readModel _ _ _ _ _) as [got|msg]; [destruct (ok got)|];
      by intros [= <- <-].
  - destruct (generateKeyFromAlreadyStrongRandomInput _) as [ck|msg];
      [|by intros [= <- <-]].
    destruct (aes_NewCipher ck); [|by intros [= <- <-]].
    destruct (io_ReadFull 12 _); [|by intros [= <- <-]].
    destruct (backupModelToHistory _ _ _ _ _) as [fs1 [e|]]; by intros [= <- <-].
  - destruct (os_Create _ _) as [[fs2 f]|]; by intros [= <- <-].
  - destruct (file_Write _ _ _ _). by intros [= <- <-].
  - destruct (file_Write _ _ _ _). by intros [= <- <-].
Qed.

Lemma pick_at (ctx : Context) (i : nat) (threads : pool) (s s' : Server)
    (r : upload) (p p' : point) :
  threads !! i = Some (r, p) -> step ctx r p s = Some (p', s') ->
  pick ctx i (threads, s) = Some (<[i := (r, p')]> threads, s').
Proof. intros Hi Hs. unfold pick. simpl. rewrite Hi. simpl. by rewrite Hs. Qed.

Lemma run_cons (ctx : Context) (i : nat) (rest : list nat) (c c' : pool * Server) :
  pick ctx i c = Some c' -> run ctx (i :: rest) c = run ctx rest c'.
Proof. intros H. simpl. by rewrite H. Qed.

(** X15. A goroutine that waits in [lockFolder] for the mutex of a
    folder waits with the global lock held. With [a] inside for a folder
    and [b] waiting for the same folder, a third goroutine [d] cannot
    take the first step of [lockFolder], whatever its folder; nothing
    [a] executes inside changes that, so [d] waits until [a] has
    unlocked. *)
Theorem lockFolder_waits_with_globalLock (ctx : Context) (a b d : upload) (fs : FS) :
  upFolder a = upFolder b ->
  let waiting := [(a, importModel_readModel); (b, lockFolder_Lock 0);
                  (d, lockFolder_globalLock)] in
  let s := {| globalLock := true; locksByFolderName := {[ upFolder a := 0%nat ]};
              mutexes := [true]; disk := fs |} in
  run ctx [0; 0; 0; 0; 0; 1; 1; 1]%nat
      ([(a, lockFolder_globalLock); (b, lockFolder_globalLock); (d, lockFolder_globalLock)],
       idle fs)
  = Some (waiting, s) /\
  pick ctx 1 (waiting, s) = None /\
  pick ctx 2 (waiting, s) = None /\
  forall p p' s1 s2,
    globalLock s1 = true -> mutexes s1 !! 0%nat = Some true ->
    inside p = true -> step ctx a p s1 = Some (p', s2) ->
    globalLock s2 = true /\ mutexes s2 !! 0%nat = Some true /\
    step ctx b (lockFolder_Lock 0) s2 = None /\
    step ctx d lockFolder_globalLock s2 = None.
Proof.
  intros Hab waiting s. split; [|split; [|split]].
  - do 8 (erewrite run_cons;
          [|eapply pick_at; [reflexivity|];
            cbn [step idle globalLock locksByFolderName mutexes disk
                 set_globalLock set_locks set_mutexes];
            rewrite <- ?Hab, ?lookup_empty, ?lookup_insert_eq; reflexivity]).
    reflexivity.
  - reflexivity.
  - reflexivity.
  - intros p p' s1 s2 Hg Hm Hin Hstep.
    destruct (step_inside ctx a p p' s1 s2 Hin Hstep) as (Hg2 & _ & Hm2).
    rewrite Hg in Hg2.
    assert (Hm' : mutexes s2 !! 0%nat = Some true) by (by rewrite Hm2).
    split; [done|]. split; [done|]. cbn [step]. by rewrite Hm', Hg2.
Qed.

(** X16. The overtaking needs nothing of the requests but their folder.
    For any three goroutines on one folder, with [a] about to run
    [unlockFolder] and [b] waiting on the mutex of [a]: once [a] has
    unlocked and deleted the entry, [b] locks the deleted mutex, [c]
    finds no entry and locks a second mutex, and both stand at the
    first statement after [lockFolder], on any disk. *)
Theorem folder_lock_admits_two (ctx : Context) (a b c : upload) (fs : FS) (e : ending) :
  upFolder b = upFolder a -> upFolder c = upFolder a ->
  run ctx [0; 0; 0; 1; 1; 2; 2; 2; 2; 2]%nat
      ([(a, unlockFolder_exists e); (b, lockFolder_Lock 0); (c, lockFolder_globalLock)],
       {| globalLock := true; locksByFolderName := {[ upFolder a := 0%nat ]};
          mutexes := [true]; disk := fs |})
  = Some ([(a, finished e); (b, importModel_readModel); (c, importModel_readModel)],
          {| globalLock := false; locksByFolderName := {[ upFolder a := 1%nat ]};
             mutexes := [true; true]; disk := fs |}).
Proof.
  intros Hb Hc.
  do 10 (erewrite run_cons;
         [|eapply pick_at; [reflexivity|];
           cbn [step idle globalLock locksByFolderName mutexes disk
                set_globalLock set_locks set_mutexes];
           rewrite ?Hb, ?Hc, ?delete_singleton_eq, ?lookup_empty, ?lookup_singleton_eq,
                   ?lookup_insert_eq;
           reflexivity]).
  cbn [run]. rewrite insert_empty. reflexivity.
Qed.

End Goroutines.

Lemma folder_lock_admits_two_witness :
  inside <$> points
    (default Race.start
       (run (H := Stub.externals) Example.ctx [0; 0; 0; 1; 1; 2; 2; 2; 2; 2]%nat
          ([(Race.a, unlockFolder_exists Imported); (Race.b, lockFolder_Lock 0);
            (Race.c, lockFolder_globalLock)],
           {| globalLock := true; locksByFolderName := {[ upFolder Race.a := 0%nat ]};
              mutexes := [true]; disk := Race.fs0 |})))
  = [false; true; true].
Proof.
  rewrite (folder_lock_admits_two (E := Stub.externals) Example.ctx Race.a Race.b Race.c
             Race.fs0 Imported eq_refl eq_refl).
  reflexivity.
Defined.

Lemma lockFolder_waits_with_globalLock_witness :
  pick (H := Stub.externals) Example.ctx 2
    ([(Race.a, importModel_readModel); (Race.b, lockFolder_Lock 0);
      (Race.c, lockFolder_globalLock)],
     {| globalLock := true; locksByFolderName := {[ upFolder Race.a := 0%nat ]};
        mutexes := [true]; disk := Race.fs0 |})
  = None.
Proof.
  exact (proj1 (proj2 (proj2
    (lockFolder_waits_with_globalLock (E := Stub.externals) Example.ctx
       Race.a Race.b Race.c Race.fs0 eq_refl)))).
Defined.

(** * Digests, and what hangs on them *)

Lemma length_be_bytes (n : nat) (x : Z) : length (SHA2.be_bytes n x) = n.
Proof.
  revert x. induction n as [|n IH]; intros x; simpl; [done|].
  rewrite length_app, IH. simpl. lia.
Qed.

Lemma length_round (P : SHA2.params) (st : list Z) (kw : Z * Z) :
  length (SHA2.round P st kw) = length st.
Proof.
  unfold SHA2.round.
  do 9 (destruct st as [|? st]; [reflexivity|]). reflexivity.
Qed.

Lemma length_rounds (P : SHA2.params) (kws : list (Z * Z)) :
  forall st, length (fold_left (SHA2.round P) kws st) = length st.
Proof.
  induction kws as [|kw kws IH]; intros st; simpl; [done|].
  by rewrite IH, length_round.
Qed.

Lemma length_compress (P : SHA2.params) (h block : list Z) :
  length (SHA2.compress P h block) = length h.
Proof.
  unfold SHA2.compress. rewrite length_map, length_combine, length_rounds. lia.
Qed.

Lemma length_compressed (P : SHA2.params) (blocks : list (list Z)) :
  forall h, length (fold_left (SHA2.compress P) blocks h) = length h.
Proof.
  induction blocks as [|b blocks IH]; intros h; simpl; [done|].
  by rewrite IH, length_compress.
Qed.

Lemma length_concat_bytes (n : nat) (ws : list Z) :
  length (concat (map (SHA2.be_bytes n) ws)) = (length ws * n)%nat.
Proof.
  induction ws as [|x ws IH]; simpl; [done|].
  by rewrite length_app, length_be_bytes, IH.
Qed.

Lemma length_hex (bs : list Z) :
  String.length (hex_EncodeToString bs) = (2 * length bs)%nat.
Proof. induction bs as [|b bs IH]; simpl; [done|]. rewrite IH. lia. Qed.

(** X17. What [hashSHA256] returns always has 128 characters, the
    length of a SHA-512 digest in hexadecimal (a SHA-256 digest has
    64): so has the name of every tenant folder, and every key of the
    token map. *)
Theorem hashSHA256_length (ctx : Context) (key : list Z) :
  String.length (hashSHA256 key) = 128%nat /\
  String.length (hex_EncodeToString (SHA2.sha256_Sum key)) = 64%nat /\
  exists name, folderNameFromKey ctx key = serverFolder ctx ++ [keyDir ctx; name] /\
               String.length name = 128%nat.
Proof.
  assert (H512 : String.length (hashSHA256 key) = 128%nat).
  { unfold hashSHA256, SHA2.sha512_Sum, SHA2.digest.
    rewrite length_hex, length_concat_bytes, length_compressed. reflexivity. }
  split; [done|]. split.
  - unfold SHA2.sha256_Sum, SHA2.digest.
    rewrite length_hex, length_concat_bytes, length_compressed. reflexivity.
  - exists (hashSHA256 key). split; [|done].
    unfold folderNameFromKey, filepath_Join. by rewrite <- app_assoc.
Qed.

(** * Keys under the throttle *)

(** X18. [createKey] is throttled before anything else: with 20 keys
    created in the last 3 minutes it answers 429, reads no random
    bytes, makes no folder and records no timestamp. *)
Theorem createKey_throttled `{E : Externals} (ctx : Context) (fs : FS)
    (rnd : option (list Z)) (now : Z) (m : gmap string (list Z)) :
  RangeLaw ->
  (20 <= length (recent now (window "KEY" m)))%nat ->
  exists m',
    createKey ctx fs rnd now m
    = (m', fs,
       NotCreated (Some (ErrorJSON StatusTooManyRequests
         "object creation throttling exceeded (denial-of-service protection): please wait some time and try again"))) /\
    window "KEY" m' = recent now (window "KEY" m).
Proof.
  intros Hr H20. unfold createKey.
  destruct (throttle_call Hr "KEY" now m) as (m' & Hcall & Hwin).
  cbv zeta in Hcall, Hwin.
  assert (Hlt : (length (recent now (window "KEY" m)) <? 20)%nat = false)
    by (apply Nat.ltb_ge; lia).
  rewrite Hlt in Hcall, Hwin. rewrite Hcall. simpl. eauto.
Qed.

Lemma createKey_throttled_witness :
  snd (createKey (H := Stub.externals) Example.ctx Fresh.fs (Some Fresh.bytes) 1000 Busy.m)
  = NotCreated (Some (ErrorJSON StatusTooManyRequests
      "object creation throttling exceeded (denial-of-service protection): please wait some time and try again")).
Proof.
  destruct (createKey_throttled (E := Stub.externals) Example.ctx Fresh.fs
              (Some Fresh.bytes) 1000 Busy.m stub_range_law) as (m' & -> & _).
  - vm_compute. lia.
  - reflexivity.
Defined.

(** * Models that are not there *)

(** X19. [readModel] answers 404 for a model id that is no UUID and for
    one whose folder does not exist, before it looks at the key: no
    text, no model, and no panic however short the key. *)
Theorem readModel_unknown_model `{E : Externals} (ctx : Context) (fs : FS)
    (modelUUID : string) (key : list Z) (folderNameOfKey : path) :
  match uuid_Parse modelUUID with
  | None => True
  | Some uuidParsed => notExist fs (folderNameForModel folderNameOfKey uuidParsed) = true
  end ->
  readModel ctx fs modelUUID key folderNameOfKey
  = Return {| modelInputResult := None; yamlText := []; ok := false;
              readResponse := Some (ErrorJSON StatusNotFound "model not found") |}.
Proof.
  intros H. unfold readModel, checkModelFolder.
  destruct (uuid_Parse modelUUID) as [u|]; [|done]. by rewrite H.
Qed.

Lemma readModel_unknown_model_witness :
  readModel (H := Stub.externals) Example.ctx Example.fs "no-uuid" [] Example.folder
  = Return (@Build_modelRead Stub.externals None [] false
              (Some (ErrorJSON StatusNotFound "model not found"))).
Proof.
  apply (readModel_unknown_model (E := Stub.externals)). exact I.
Defined.

(** * Tokens of different keys *)

Section Tenants.
Context `{E : Externals}.
Hypothesis range_law : RangeLaw.

Lemma housekeeping_noTokens (now : Z) (F : path) :
  mapFolderNameToTokenHash (housekeepingTokenMaps now noTokens) !! F = None.
Proof.
  destruct (mapFolderNameToTokenHash (housekeepingTokenMaps now noTokens) !! F)
    as [x|] eqn:Hx; [|done].
  apply housekeeping_folders_sub in Hx. simpl in Hx. by rewrite lookup_empty in Hx.
Qed.

(** X20. Issuing a token for one key does not invalidate the token of
    another: after a first token for [key1] and then one for [key2],
    whose folder and digest differ, the first token still verifies to
    [key1] and its folder, within its 30 minutes. *)
Theorem tokens_of_two_keys_coexist (ctx : Context) (fs : FS) (key1 key2 bs1 bs2 : list Z)
    (now1 sweep1 now2 sweep2 sweep3 access3 : Z) :
  length key1 = keySize -> length key2 = keySize ->
  (keySize <= length bs1)%nat -> (keySize <= length bs2)%nat ->
  notExist fs (folderNameFromKey ctx key1) = false ->
  notExist fs (folderNameFromKey ctx key2) = false ->
  folderNameFromKey ctx key1 <> folderNameFromKey ctx key2 ->
  hashSHA256 (zip_with Z.lxor key1 (take keySize bs1))
    <> hashSHA256 (zip_with Z.lxor key2 (take keySize bs2)) ->
  0 <= now1 < 2 ^ 63 -> 0 <= sweep2 < 2 ^ 63 -> 0 <= sweep3 < 2 ^ 63 ->
  sweep2 - now1 <= 1800000000000 -> sweep3 - now1 <= 1800000000000 ->
  let token1 := zip_with Z.lxor key1 (take keySize bs1) in
  let tm1 := fst (createToken ctx fs (Some key1) (Some bs1) now1 sweep1 noTokens) in
  let tm2 := fst (createToken ctx fs (Some key2) (Some bs2) now2 sweep2 tm1) in
  snd (createToken ctx fs (Some key1) (Some bs1) now1 sweep1 noTokens)
  = Return (TokenJSON StatusCreated token1) /\
  snd (checkTokenToFolderName ctx fs (Some token1) sweep3 access3 tm2)
  = Return {| tcFolder := folderNameFromKey ctx key1; tcKey := key1;
              tcOk := true; tcResponse := None |}.
Proof.
  intros Hk1 Hk2 Hb1 Hb2 Hf1 Hf2 HF Hh Hn1 Hs2 Hs3 Hd2 Hd3 token1 tm1 tm2.
  set (pad1 := take keySize bs1) in *. set (pad2 := take keySize bs2) in *.
  assert (Hp1 : length pad1 = keySize) by (unfold pad1; rewrite length_take; lia).
  unfold tm2, tm1.
  rewrite !createToken_issues by done. cbn [fst snd]. split; [done|].
  fold pad1 pad2 token1.
  set (r1 := {| xorRand := pad1; createdNanoTime := now1; lastAccessedNanoTime := now1 |}).
  assert (Hfresh : forall now, 0 <= now < 2 ^ 63 -> now - now1 <= 1800000000000 ->
                               timedOut now r1 = false).
  { intros now Hn Hd. by apply timedOut_fresh. }
  assert (H1 : mapTokenHashToTimeoutStruct (issued ctx key1 pad1 now1 sweep1 noTokens)
                 !! hashSHA256 token1 = Some r1) by apply issued_lookup.
  assert (HF2 : mapFolderNameToTokenHash (issued ctx key1 pad1 now1 sweep1 noTokens)
                  !! folderNameFromKey ctx key2 = None).
  { unfold issued, installed. simpl. rewrite lookup_insert_ne by done.
    unfold invalidatePrevious. simpl. rewrite lookup_empty.
    apply housekeeping_noTokens. }
  assert (H2 : mapTokenHashToTimeoutStruct
                 (issued ctx key2 pad2 now2 sweep2
                    (issued ctx key1 pad1 now1 sweep1 noTokens))
                 !! hashSHA256 token1 = Some r1).
  { unfold issued at 1. unfold installed. simpl.
    rewrite lookup_insert_ne by (intros H; by apply Hh).
    rewrite housekeeping_tokens by done.
    unfold invalidatePrevious. rewrite HF2, H1. by rewrite Hfresh. }
  eapply checkToken_hit.
  - intros Ht. apply (f_equal length) in Ht. unfold token1 in Ht.
    rewrite length_zip_lxor, Hp1 in Ht by lia. unfold keySize in Ht. discriminate Ht.
  - rewrite housekeeping_tokens by done. rewrite H2. by rewrite Hfresh.
  - simpl. unfold token1. rewrite xor_Return by (rewrite length_zip_lxor; lia).
    by rewrite zip_lxor_cancel by lia.
  - done.
Qed.

End Tenants.

Lemma tokens_of_two_keys_coexist_witness :
  let token1 := zip_with Z.lxor Example.key Example.pad1 in
  let tm1 := fst (createToken (H := Stub.externals) Example.ctx Two.fs (Some Example.key)
                    (Some Example.pad1) 1000 1000 noTokens) in
  let tm2 := fst (createToken (H := Stub.externals) Example.ctx Two.fs (Some Two.key)
                    (Some Example.pad2) 2000 2000 tm1) in
  snd (checkTokenToFolderName (H := Stub.externals) Example.ctx Two.fs (Some token1)
         3000 3000 tm2)
  = Return {| tcFolder := folderNameFromKey Example.ctx Example.key; tcKey := Example.key;
              tcOk := true; tcResponse := None |}.
Proof.
  refine (proj2 (tokens_of_two_keys_coexist (E := Stub.externals) stub_range_law
                   Example.ctx Two.fs Example.key Two.key Example.pad1 Example.pad2
                   1000 1000 2000 2000 3000 3000 _ _ _ _ _ _ _ _ _ _ _ _ _)).
  - reflexivity.
  - reflexivity.
  - vm_compute. lia.
  - vm_compute. lia.
  - vm_compute. reflexivity.
  - vm_compute. reflexivity.
  - vm_compute. discriminate.
  - vm_compute. discriminate.
  - lia.
  - lia.
  - lia.
  - lia.
  - lia.
Defined.
